(** * go-ewon / dmweb: the request and response mapping layer

    A shallow embedding of [dmweb.go] and [types.go]: client construction,
    credential-bearing URL construction, the authenticated request primitive,
    the typed operations built on it, and the part of [net/url], [net/http]
    and [encoding/json] they rely on.

    Conventions.
    - A Go function returning [(T, error)] returns a pair
      [option T * option error]; [None] is Go's [nil].
    - Go's [int] is the 64-bit signed integer, held in [Z] with its range
      checked where the library checks it.
    - [url.Values] and [http.Header] are Go maps from a key to a list of
      values: [gmap string (list string)].
    - Code that talks to the network runs in a state monad over a [World]
      holding the requests handed to the transport and the response bodies
      obtained from it. *)

From Stdlib Require Import ZArith String Ascii List Lia DecimalString.
From Stdlib Require Import DecimalZ.
From stdpp Require Import base gmap strings list sorting fin_maps.

Set Warnings "-register-all".

(** ** Strings and bytes *)

Definition byte_in (lo hi : N) (c : ascii) : bool :=
  ((lo <=? N_of_ascii c) && (N_of_ascii c <=? hi))%N.

Definition is_alnum (c : ascii) : bool :=
  byte_in 97 122 c || byte_in 65 90 c || byte_in 48 57 c.

(** [strconv.Itoa]. *)
Definition strconv_Itoa (i : Z) : string :=
  NilZero.string_of_int (Z.to_int i).

(** ** net/url: query escaping and [url.Values] *)

(** [shouldEscape(c, encodeQueryComponent)]. *)
Definition shouldEscape (c : ascii) : bool :=
  if is_alnum c then false
  else match c with
       | "-" | "_" | "." | "~" => false
       | "$" | "&" | "+" | "," | "/" | ":" | ";" | "=" | "?" | "@" => true
       | _ => true
       end%char.

Definition upperhex (n : N) : ascii :=
  match n with
  | 0 => "0" | 1 => "1" | 2 => "2" | 3 => "3" | 4 => "4" | 5 => "5"
  | 6 => "6" | 7 => "7" | 8 => "8" | 9 => "9" | 10 => "A" | 11 => "B"
  | 12 => "C" | 13 => "D" | 14 => "E" | _ => "F"
  end%N%char.

(** [escape(s, encodeQueryComponent)]: a space becomes [+], a byte that
    must be escaped becomes [%XX] in upper-case hexadecimal. *)
Fixpoint escape (s : string) : string :=
  match s with
  | EmptyString => EmptyString
  | String c rest =>
      if Ascii.eqb c " " then String "+" (escape rest)
      else if shouldEscape c then
        String "%" (String (upperhex (N.shiftr (N_of_ascii c) 4))
                   (String (upperhex (N.land (N_of_ascii c) 15)) (escape rest)))
      else String c (escape rest)
  end.

Definition QueryEscape (s : string) : string := escape s.

Abbreviation Values := (gmap string (list string)).

(** [func (v Values) Add(key, value string)]:
    [v[key] = append(v[key], value)]. *)
Definition Values_Add (v : Values) (key value : string) : Values :=
  <[key := default [] (v !! key) ++ [value]]> v.

(** [func (v Values) Get(key string) string]: the first value, or the empty
    string. *)
Definition Values_Get (v : Values) (key : string) : string :=
  match v !! key with
  | Some (x :: _) => x
  | _ => ""
  end.

(** One [key=value] pair written to the buffer of [Encode], preceded by [&]
    when the buffer is not empty. *)
Definition write_pair (keyEscaped : string) (buf val : string) : string :=
  (if (0 <? String.length buf)%nat then buf +:+ "&" else buf)
    +:+ keyEscaped +:+ "=" +:+ QueryEscape val.

(** [func (v Values) Encode() string]: the keys sorted bytewise, and for
    each key its values in order. *)
Definition sorted_keys (v : Values) : list string :=
  merge_sort String.le (map fst (map_to_list v)).

Definition Values_Encode (v : Values) : string :=
  foldl (fun buf k => foldl (write_pair (QueryEscape k)) buf (default [] (v !! k)))
        "" (sorted_keys v).

(** [ishex] and [unhex]. *)
Definition ishex (c : ascii) : bool :=
  byte_in 48 57 c || byte_in 97 102 c || byte_in 65 70 c.

Definition unhex (c : ascii) : N :=
  (if byte_in 48 57 c then N_of_ascii c - 48
   else if byte_in 97 102 c then N_of_ascii c - 97 + 10
   else if byte_in 65 70 c then N_of_ascii c - 65 + 10
   else 0)%N.

(** The errors of [net/url] when it reads a query. *)
Inductive url_error :=
| EscapeError (s : string)
| InvalidSemicolon.

(** [unescape(s, encodeQueryComponent)]: [%XX] becomes the byte it names
    and [+] a space; a [%] that is not followed by two hexadecimal digits
    is an [EscapeError] on the bytes from that [%], three at most. *)
Fixpoint unescape (s : string) : string * option url_error :=
  match s with
  | EmptyString => (EmptyString, None)
  | String c rest =>
      if Ascii.eqb c "%" then
        match rest with
        | String a (String b rest') =>
            if ishex a && ishex b then
              match unescape rest' with
              | (t, None) =>
                  (String (ascii_of_N (N.lor (N.shiftl (unhex a) 4) (unhex b))) t, None)
              | (_, Some e) => (EmptyString, Some e)
              end
            else (EmptyString, Some (EscapeError (String c (String a (String b EmptyString)))))
        | _ => (EmptyString, Some (EscapeError s))
        end
      else
        match unescape rest with
        | (t, None) => (String (if Ascii.eqb c "+" then " "%char else c) t, None)
        | (_, Some e) => (EmptyString, Some e)
        end
  end.

Definition QueryUnescape (s : string) : string * option url_error := unescape s.

(** [strings.Cut(s, sep)] for a separator of one byte: the text before the
    first [sep], the text after it, and whether [sep] was found. *)
Fixpoint strings_Cut (s : string) (sep : ascii) : string * string * bool :=
  match s with
  | EmptyString => (EmptyString, EmptyString, false)
  | String c rest =>
      if Ascii.eqb c sep then (EmptyString, rest, true)
      else let '(before, after, found) := strings_Cut rest sep in
           (String c before, after, found)
  end.

(** [strings.Contains(s, sep)] for a separator of one byte. *)
Definition strings_Contains (s : string) (sep : ascii) : bool := (strings_Cut s sep).2.

(** The loop [for query != ""] of [parseQuery]. Each turn cuts the text up
    to the next [&] off the query, so as many turns as the query has bytes
    are enough: see [parseQuery_turns]. *)
Fixpoint parseQuery (turns : nat) (m : Values) (query : string) (err : option url_error)
  : Values * option url_error :=
  match turns with
  | O => (m, err)
  | S turns =>
      if String.eqb query "" then (m, err)
      else
        let '(key, query, _) := strings_Cut query "&" in
        if strings_Contains key ";" then parseQuery turns m query (Some InvalidSemicolon)
        else if String.eqb key "" then parseQuery turns m query err
        else
          let '(key, value, _) := strings_Cut key "=" in
          match QueryUnescape key with
          | (_, Some err1) =>
              parseQuery turns m query (match err with None => Some err1 | _ => err end)
          | (key, None) =>
              match QueryUnescape value with
              | (_, Some err1) =>
                  parseQuery turns m query (match err with None => Some err1 | _ => err end)
              | (value, None) => parseQuery turns (Values_Add m key value) query err
              end
          end
  end.

(** [func ParseQuery(query string) (Values, error)]. *)
Definition ParseQuery (query : string) : Values * option url_error :=
  parseQuery (String.length query) ∅ query None.

(** [u.RawQuery] of the URL [url.Parse] makes of a string it accepts: the
    fragment is cut off at the first [#], and the query is what follows the
    first [?] of the rest. *)
Definition RawQuery (rawURL : string) : string :=
  let '(u, _, _) := strings_Cut rawURL "#" in (strings_Cut u "?").1.2.

(** [func (u *URL) Query() Values]: the parsed query; the error of
    [ParseQuery] is dropped. *)
Definition URL_Query (rawURL : string) : Values := (ParseQuery (RawQuery rawURL)).1.

(** ** JSON documents and Go types *)

(** A JSON number literal: either integer syntax ([-?digits]), or a literal
    with a fraction or an exponent, of value [m * 10^e]. *)
Inductive Number :=
| NInt (z : Z)
| NDec (m e : Z).

Inductive JSON :=
| JNull
| JBool (b : bool)
| JNumber (n : Number)
| JString (s : string)
| JArray (elems : list JSON)
| JObject (members : list (string * JSON)).

(** The Go types that occur in [types.go]. A struct field is
    (Go name, JSON name, type); the JSON name is the [json:] tag, or the Go
    name where the field has no tag. *)
Inductive GoType :=
| TBool
| TInt
| TFloat64
| TString
| TTime
| TPtr (t : GoType)
| TSlice (t : GoType)
| TStruct (fields : list (string * string * GoType)).

Abbreviation Field := (string * string * GoType)%type.

(** A [time.Time]: nanoseconds since the zero instant (January 1, year 1,
    00:00:00 UTC); the zero value is [0]. *)
Definition Time := Z.

(** A [float64] read from a decimal literal: the double nearest to
    [significand * 10^exponent10]. Rounding is not modelled. *)
Record float64 := { significand : Z; exponent10 : Z }.

(** Go values of these types. A slice keeps its backing array: [backing]
    holds the elements up to the capacity and [len] of them are visible;
    [None] is the nil slice. *)
Inductive GoValue :=
| VBool (b : bool)
| VInt (i : Z)
| VFloat64 (f : float64)
| VString (s : string)
| VTime (t : Time)
| VPtr (p : option GoValue)
| VSlice (s : option (list GoValue * nat))
| VStruct (fields : list (string * GoValue)).

(** ** Errors *)

(** The [Value] of a [json.UnmarshalTypeError]: the kind of JSON value that
    did not fit, with the literal for a number that could not be parsed
    into the numeric target. *)
Inductive ValueDesc :=
| Dbool | Dstring | Dnumber | DnumberLit (n : Number) | Darray | Dobject.

(** Errors of the libraries the package calls. *)
Inductive lib_error :=
| UnmarshalTypeError (Value : ValueDesc) (Type_ : GoType)
| TimeNotAString
| TimeParseError (s : string)
| ReadError (text : string)
| BodyClosed
| ExternalError (text : string).

(** The error values the package handles: its two package-level variables,
    an error made by [errors.New] at run time, and library errors. *)
Inductive error :=
| errorMissingCredentials
| errorCouldNotParseArgument
| errors_New (text : string)
| LibError (e : lib_error).

(** ** types.go *)

Definition field (goName jsonName : string) (t : GoType) : Field :=
  (goName, jsonName, t).

Definition Tag : GoType :=
  TStruct [ field "ID" "id" TInt;
            field "Name" "name" TString;
            field "DataType" "dataType" TString;
            field "Description" "description" TString;
            field "AlarmHint" "alarmHint" TString;
            field "Value" "value" TFloat64;
            field "Quality" "quality" TString;
            field "EwonTagID" "ewonTagId" TInt ].

Definition Tags : GoType := TSlice (TPtr Tag).

Definition Ewon : GoType :=
  TStruct [ field "ID" "id" TInt;
            field "Name" "name" TString;
            field "LastSynchroDate" "lastSynchroDate" TTime;
            field "Tags" "tags" Tags;
            field "TimeZone" "timeZone" TString ].

Definition Ewons : GoType := TSlice (TPtr Ewon).

Definition GetStatusResponse : GoType :=
  TStruct [ field "HistoryCount" "historyCount" TInt;
            field "EwonsCount" "ewonsCount" TInt;
            field "Ewons" "ewons" (TSlice (TStruct [
              field "ID" "id" TInt;
              field "Name" "name" TString;
              field "HistoryCount" "historyCount" TInt;
              field "FirstHistoryDate" "firstHistoryDate" TTime;
              field "LastHistoryDate" "lastHistoryDate" TTime ])) ].

Definition GetData_History : GoType :=
  TStruct [ field "Date" "date" TTime;
            field "Quality" "quality" TString;
            field "Value" "value" TInt ].

Definition GetData_Tag : GoType :=
  TStruct [ field "ID" "id" TInt;
            field "Name" "name" TString;
            field "DataType" "dataType" TString;
            field "Description" "description" TString;
            field "AlarmHint" "alarmHint" TString;
            field "Value" "value" TInt;
            field "Quality" "quality" TString;
            field "EwonTagID" "ewonTagId" TInt;
            field "History" "history" (TSlice GetData_History) ].

Definition GetData_Ewon : GoType :=
  TStruct [ field "ID" "id" TInt;
            field "Name" "name" TString;
            field "Tags" "tags" (TSlice GetData_Tag);
            field "LastSynchroDate" "lastSynchroDate" TTime;
            field "TimeZone" "timeZone" TString ].

Definition GetDataResponse : GoType :=
  TStruct [ field "Success" "success" TBool;
            field "MoreDataAvailable" "moreDataAvailable" TBool;
            field "Ewons" "ewons" (TSlice GetData_Ewon) ].

Definition Sync_History : GoType :=
  TStruct [ field "Date" "date" TTime;
            field "DataType" "dataType" TString;
            field "Value" "value" TFloat64 ].

Definition Sync_Tag : GoType :=
  TStruct [ field "ID" "id" TInt;
            field "Name" "name" TString;
            field "DataType" "dataType" TString;
            field "Description" "description" TString;
            field "AlarmHint" "alarmHint" TString;
            field "Value" "value" TFloat64;
            field "Quality" "quality" TString;
            field "EwonTagID" "ewonTagId" TInt;
            field "History" "history" (TSlice Sync_History) ].

Definition Sync_Ewon : GoType :=
  TStruct [ field "ID" "id" TInt;
            field "Name" "name" TString;
            field "Tags" "tags" (TSlice Sync_Tag);
            field "LastSynchroDate" "lastSynchroDate" TTime ].

Definition SyncResponse : GoType :=
  TStruct [ field "Success" "success" TBool;
            field "TransactionID" "transactionId" TString;
            field "MoreDataAvailable" "moreDataAvailable" TBool;
            field "Ewons" "ewons" (TSlice Sync_Ewon) ].

Definition errorResponse : GoType :=
  TStruct [ field "Success" "success" TBool;
            field "Code" "code" TInt;
            field "Message" "message" TString ].

(** The anonymous struct [es] of [GetEwons]; its fields carry no tag. *)
Definition GetEwons_es : GoType :=
  TStruct [ field "Success" "Success" TBool;
            field "Ewons" "Ewons" Ewons ].

(** ** encoding/json: decoding a document into a Go value *)

(** The zero value of a type. *)
Fixpoint zero (t : GoType) : GoValue :=
  match t with
  | TBool => VBool false
  | TInt => VInt 0%Z
  | TFloat64 => VFloat64 {| significand := 0%Z; exponent10 := 0%Z |}
  | TString => VString ""
  | TTime => VTime 0%Z
  | TPtr _ => VPtr None
  | TSlice _ => VSlice None
  | TStruct fs => VStruct (map (fun f : Field => (f.1.1, zero f.2)) fs)
  end.

(** [foldName]: ASCII letters to upper case; the two non-ASCII runes whose
    fold set contains an ASCII letter, U+212A (Kelvin sign) and U+017F
    (long s), to that letter. Every other byte is kept. *)
Fixpoint foldName (s : string) : string :=
  match s with
  | EmptyString => EmptyString
  | String "226" (String "132" (String "170" rest)) => String "K" (foldName rest)
  | String "197" (String "191" rest) => String "S" (foldName rest)
  | String c rest =>
      String (if byte_in 97 122 c then ascii_of_N (N_of_ascii c - 32) else c)
             (foldName rest)
  end%char.

(** The struct field a JSON key is stored in: the field of that exact JSON
    name, else the first field whose name is equal under case folding,
    else none (the member is skipped). *)
Definition find_field (fields : list Field) (key : string) : option Field :=
  match List.find (fun f : Field => String.eqb f.1.2 key) fields with
  | Some f => Some f
  | None =>
      List.find (fun f : Field => String.eqb (foldName f.1.2) (foldName key)) fields
  end.

Fixpoint assoc_get (name : string) (fs : list (string * GoValue)) : option GoValue :=
  match fs with
  | [] => None
  | (n, x) :: rest => if String.eqb n name then Some x else assoc_get name rest
  end.

Fixpoint assoc_set (name : string) (x : GoValue) (fs : list (string * GoValue))
  : list (string * GoValue) :=
  match fs with
  | [] => [(name, x)]
  | (n, y) :: rest =>
      if String.eqb n name then (n, x) :: rest else (n, y) :: assoc_set name x rest
  end.

(** [v.Name] for a struct value [v]. *)
Definition get_field (name : string) (v : GoValue) : option GoValue :=
  match v with
  | VStruct fs => assoc_get name fs
  | _ => None
  end.

Definition set_field (name : string) (x : GoValue) (v : GoValue) : GoValue :=
  match v with
  | VStruct fs => VStruct (assoc_set name x fs)
  | _ => v
  end.

(** The visible elements of a slice. *)
Definition slice_elems (v : GoValue) : list GoValue :=
  match v with
  | VSlice (Some (backing, len)) => take len backing
  | _ => []
  end.

Definition string_of (v : option GoValue) : string :=
  match v with
  | Some (VString s) => s
  | _ => ""
  end.

Definition int64_ok (z : Z) : bool := ((- 2 ^ 63 <=? z) && (z <? 2 ^ 63))%Z.

(** A decimal literal is in the range of [float64] when it rounds to a
    finite double: its magnitude is below [2^1024 - 2^970]. *)
Definition float64_bound : Z := (2 ^ 1024 - 2 ^ 970)%Z.

Definition float64_ok (m e : Z) : bool :=
  (if 0 <=? e then Z.abs m * 10 ^ e <? float64_bound
   else Z.abs m <? float64_bound * 10 ^ (- e))%Z.

Definition Number_float (n : Number) : float64 :=
  match n with
  | NInt z => {| significand := z; exponent10 := 0%Z |}
  | NDec m e => {| significand := m; exponent10 := e |}
  end.

(** The result of decoding one JSON value: the value stored, the first
    saved error ([d.savedError]), and the error that aborts decoding. *)
Abbreviation Res := (GoValue * option error * option error)%type.

(** [d.saveError]: only the first error is kept. *)
Definition saveError (saved : option error) (e : lib_error) : option error :=
  match saved with
  | Some _ => saved
  | None => Some (LibError e)
  end.

(** A JSON value that does not fit the target: the target is left as it is,
    the error is saved and decoding goes on. *)
Definition mismatch (d : ValueDesc) (t : GoType) (v : GoValue)
    (saved : option error) : Res :=
  (v, saveError saved (UnmarshalTypeError d t), None).

(** [literalStore] for a target that is neither a pointer nor a
    [time.Time]. *)
Definition literalStore (j : JSON) (t : GoType) (v : GoValue)
    (saved : option error) : Res :=
  match j with
  | JNull =>
      match t with
      | TSlice _ => (VSlice None, saved, None)
      | _ => (v, saved, None)
      end
  | JBool b =>
      match t with
      | TBool => (VBool b, saved, None)
      | _ => mismatch Dbool t v saved
      end
  | JString s =>
      match t with
      | TString => (VString s, saved, None)
      | _ => mismatch Dstring t v saved
      end
  | JNumber n =>
      match t with
      | TInt =>
          match n with
          | NInt z =>
              if int64_ok z then (VInt z, saved, None)
              else mismatch (DnumberLit n) t v saved
          | NDec _ _ => mismatch (DnumberLit n) t v saved
          end
      | TFloat64 =>
          if float64_ok (significand (Number_float n)) (exponent10 (Number_float n))
          then (VFloat64 (Number_float n), saved, None)
          else mismatch (DnumberLit n) t v saved
      | _ => mismatch Dnumber t v saved
      end
  | JArray _ => mismatch Darray t v saved
  | JObject _ => mismatch Dobject t v saved
  end.

Section Decoder.

(** [time.Parse] for the RFC 3339 layout, as [Time.UnmarshalJSON] calls it
    on the contents of a JSON string. *)
Variable time_Parse : string -> option Time.

(** [func (t *Time) UnmarshalJSON(data []byte) error]. An error it returns
    aborts the decoding. *)
Definition Time_UnmarshalJSON (j : JSON) (v : GoValue) : GoValue * option error :=
  match j with
  | JNull => (v, None)
  | JString s =>
      match time_Parse s with
      | Some t => (VTime t, None)
      | None => (VTime 0%Z, Some (LibError (TimeParseError s)))
      end
  | _ => (v, Some (LibError TimeNotAString))
  end.

Section Loops.

Variable dec : JSON -> GoType -> GoValue -> option error -> Res.

(** The element loop of [d.array]: element [i] is decoded into slot [i] of
    the backing array, or into a zero value beyond it. *)
Fixpoint decode_elems (et : GoType) (elems : list JSON) (backing : list GoValue)
    (saved : option error) : list GoValue * option error * option error :=
  match elems with
  | [] => ([], saved, None)
  | j :: rest =>
      let '(x, saved', abort) := dec j et (default (zero et) (head backing)) saved in
      match abort with
      | Some e => ([x], saved', Some e)
      | None =>
          let '(xs, saved'', abort') := decode_elems et rest (tail backing) saved' in
          (x :: xs, saved'', abort')
      end
  end.

(** [d.array] for a slice target. *)
Definition decode_array (et : GoType) (elems : list JSON) (v : GoValue)
    (saved : option error) : Res :=
  let '(backing, len) := match v with
                         | VSlice (Some s) => s
                         | _ => ([], 0%nat)
                         end in
  let '(xs, saved', abort) := decode_elems et elems backing saved in
  let backing' := xs ++ drop (length xs) backing in
  match abort with
  | Some e => (VSlice (Some (backing', max len (length xs))), saved', Some e)
  | None =>
      match elems with
      | [] => (VSlice (Some ([], 0%nat)), saved', None)
      | _ => (VSlice (Some (backing', length xs)), saved', None)
      end
  end.

(** The member loop of [d.object] for a struct target. *)
Fixpoint decode_members (fields : list Field) (members : list (string * JSON))
    (v : GoValue) (saved : option error) : Res :=
  match members with
  | [] => (v, saved, None)
  | (key, j) :: rest =>
      match find_field fields key with
      | None => decode_members fields rest v saved
      | Some f =>
          let '(x, saved', abort) :=
            dec j f.2 (default (zero f.2) (get_field f.1.1 v)) saved in
          let v' := set_field f.1.1 x v in
          match abort with
          | Some e => (v', saved', Some e)
          | None => decode_members fields rest v' saved'
          end
      end
  end.

End Loops.

(** [d.value]: decode the JSON value [j] into the value [v] of type [t]. *)
Fixpoint decode (j : JSON) : GoType -> GoValue -> option error -> Res :=
  fix into (t : GoType) (v : GoValue) (saved : option error) {struct t} : Res :=
    match t with
    | TPtr t' =>
        match j with
        | JNull => (VPtr None, saved, None)
        | _ =>
            let '(x, saved', abort) :=
              into t' (match v with VPtr (Some x) => x | _ => zero t' end) saved in
            (VPtr (Some x), saved', abort)
        end
    | TTime => let '(x, abort) := Time_UnmarshalJSON j v in (x, saved, abort)
    | TSlice et =>
        match j with
        | JArray elems => decode_array decode et elems v saved
        | _ => literalStore j t v saved
        end
    | TStruct fields =>
        match j with
        | JObject members =>
            decode_members decode fields members
              (match v with VStruct _ => v | _ => zero t end) saved
        | _ => literalStore j t v saved
        end
    | _ => literalStore j t v saved
    end.

(** What a response body holds: a stream whose first JSON value is [j], or
    a stream the decoder rejects before it stores anything (no data, a
    syntax error, a failed read). *)
Inductive Payload :=
| Document (j : JSON)
| Malformed (e : error).

(** [json.Unmarshal] of the first value of the stream into [v]. *)
Definition json_Unmarshal (p : Payload) (t : GoType) (v : GoValue)
  : GoValue * option error :=
  match p with
  | Malformed e => (v, Some e)
  | Document j =>
      let '(v', saved, abort) := decode j t v None in
      (v', match abort with Some e => Some e | None => saved end)
  end.

End Decoder.

(** ** net/http: requests, responses, bodies and the transport *)

Record HttpRequest := { Method : string; URL : string; Header : Values }.

(** A response body is a handle into the bodies of the [World]. *)
Record HttpResponse := { StatusCode : Z; Body : nat }.

(** A body obtained from the transport: what it holds and whether it has
    been closed. *)
Record BodyState := { content : Payload; closed : bool }.

(** What the client has done to the outside: the requests it handed to the
    transport, oldest first, and the bodies it obtained. *)
Record World := { wire : list HttpRequest; bodies : list BodyState }.

Definition empty_world : World := {| wire := []; bodies := [] |}.

(** What [Do] gets for a request: a response, or an error, which may come
    with a response whose body is already closed. *)
Inductive DoResult :=
| DoResponse (status : Z) (body : Payload)
| DoError (res : option (Z * Payload)) (e : error).

(** An [http.Client], seen through what its transport answers. *)
Record http_Client := { Transport : HttpRequest -> DoResult }.

(** A Go call either returns or panics. *)
Inductive outcome (A : Type) :=
| Returns (a : A)
| Panics.
Arguments Returns {A} a.
Arguments Panics {A}.

Definition M (A : Type) : Type := World -> outcome A * World.

#[global] Instance M_ret : MRet M := fun A (a : A) w => (Returns a, w).

#[global] Instance M_bind : MBind M := fun A B (k : A -> M B) (m : M A) w =>
  match m w with
  | (Returns a, w') => k a w'
  | (Panics, w') => (Panics, w')
  end.

Definition panic {A : Type} : M A := fun w => (Panics, w).

(** The body [payload] enters the world; its handle is returned. *)
Definition new_body (payload : Payload) (is_closed : bool) : M nat := fun w =>
  (Returns (length (bodies w)),
   {| wire := wire w;
      bodies := bodies w ++ [{| content := payload; closed := is_closed |}] |}).

Definition send (req : HttpRequest) : M unit := fun w =>
  (Returns tt, {| wire := wire w ++ [req]; bodies := bodies w |}).

(** [http.Client.Do]: hands the request to the transport; a nil client
    panics before anything is sent. *)
Definition http_Do (h : option http_Client) (req : HttpRequest)
  : M (option HttpResponse * option error) :=
  match h with
  | None => panic
  | Some h =>
      _ ← send req;
      match Transport h req with
      | DoResponse status payload =>
          b ← new_body payload false;
          mret (Some {| StatusCode := status; Body := b |}, None)
      | DoError None e => mret (None, Some e)
      | DoError (Some (status, payload)) e =>
          b ← new_body payload true;
          mret (Some {| StatusCode := status; Body := b |}, Some e)
      end
  end.

(** [Body.Close()]. *)
Definition Body_Close (b : nat) : M unit := fun w =>
  (Returns tt,
   {| wire := wire w;
      bodies := alter (fun s => {| content := content s; closed := true |}) b (bodies w) |}).

(** [func (h Header) Add(key, value string)] on the header of a request;
    [User-Agent] is already in canonical form. *)
Definition Header_Add (req : HttpRequest) (key value : string) : HttpRequest :=
  {| Method := Method req; URL := URL req;
     Header := Values_Add (Header req) key value |}.

Section Package.

Variable time_Parse : string -> option Time.

(** [url.Parse], as [http.NewRequest] calls it: the error for a URL it
    rejects. *)
Variable url_Parse : string -> option error.

(** [http.NewRequest(method, url, nil)] for a valid method. *)
Definition http_NewRequest (method url : string) : option HttpRequest * option error :=
  match url_Parse url with
  | Some e => (None, Some e)
  | None => (Some {| Method := method; URL := url; Header := ∅ |}, None)
  end.

(** [json.NewDecoder(body).Decode(&v)]: reads the body; reading a closed
    body is an error. *)
Definition Decode (body : nat) (t : GoType) (v : GoValue) : M (GoValue * option error) :=
  fun w =>
    match bodies w !! body with
    | Some s =>
        if closed s then (Returns (v, Some (LibError BodyClosed)), w)
        else (Returns (json_Unmarshal time_Parse (content s) t v), w)
    | None => (Returns (v, Some (LibError BodyClosed)), w)
    end.

(** ** dmweb.go *)

Definition DefaultBaseURL : string := "https://data.talk2m.com/".

Definition DefaultUserAgent : string := "go-ewon/dmweb 0.1".

Record Client := {
  Client_http : option http_Client;
  AccountID : string;
  Username : string;
  Password : string;
  DevID : string;
  baseURL : string;
  userAgent : string
}.

Definition is_empty (s : string) : bool := String.eqb s "".

Definition New (h : option http_Client) (accountID username password developerID : string)
  : option Client * option error :=
  if is_empty accountID || is_empty username || is_empty password || is_empty developerID
  then (None, Some errorMissingCredentials)
  else (Some {| Client_http := h;
                AccountID := accountID;
                Username := username;
                Password := password;
                DevID := developerID;
                baseURL := DefaultBaseURL;
                userAgent := DefaultUserAgent |}, None).

(** [for _, val := range vals { v.Add(p, val) }]. *)
Definition add_values (v : Values) (entry : string * list string) : Values :=
  foldl (fun v val => Values_Add v entry.1 val) v entry.2.

(** The credentials every query starts with. *)
Definition credentials (c : Client) : Values :=
  let v : Values := ∅ in
  let v := Values_Add v "t2maccount" (AccountID c) in
  let v := Values_Add v "t2musername" (Username c) in
  let v := Values_Add v "t2mpassword" (Password c) in
  let v := Values_Add v "t2mdevid" (DevID c) in
  v.

(** The query of [buildURL] when the map [params] is ranged over in the
    order [entries]. *)
Definition merge_params (c : Client) (entries : list (string * list string)) : Values :=
  foldl add_values (credentials c) entries.

Definition buildURL (c : Client) (endpoint : string) (params : Values) : string :=
  let v := merge_params c (map_to_list params) in
  baseURL c +:+ endpoint +:+ "?" +:+ Values_Encode v.

(** [func (c *Client) Request(endpoint string, params url.Values)]. *)
Definition Request (c : Client) (endpoint : string) (params : Values)
  : M (option HttpResponse * option error) :=
  match http_NewRequest "GET" (buildURL c endpoint params) with
  | (_, Some err) => mret (None, Some err)
  | (None, None) => panic
  | (Some req, None) =>
      let req := Header_Add req "User-Agent" (userAgent c) in
      '(res, err) ← http_Do (Client_http c) req;
      match err, res with
      | Some e, _ => mret (res, Some e)
      | None, None => panic
      | None, Some r =>
          if negb (StatusCode r =? 200)%Z then
            '(er, err) ← Decode (Body r) errorResponse (zero errorResponse);
            match err with
            | Some e => mret (None, Some e)
            | None => mret (None, Some (errors_New (string_of (get_field "Message" er))))
            end
          else mret (Some r, None)
      end
  end.

(** The tail shared by the typed operations: decode the body of [res] into
    a fresh value of type [t] and return it with the decoder's error. *)
Definition decode_body (res : option HttpResponse) (t : GoType)
  : M (GoValue * option error) :=
  match res with
  | None => panic
  | Some r => Decode (Body r) t (zero t)
  end.

Definition GetStatus (c : Client) : M (option GoValue * option error) :=
  '(res, err) ← Request c "getstatus" ∅;
  match err with
  | Some e => mret (None, Some e)
  | None =>
      '(s, err) ← decode_body res GetStatusResponse;
      mret (Some s, err)
  end.

(** [GetEwons] returns the slice [es.Ewons] itself, not a pointer. *)
Definition GetEwons (c : Client) : M (GoValue * option error) :=
  '(res, err) ← Request c "getewons" ∅;
  match err with
  | Some e => mret (VSlice None, Some e)
  | None =>
      '(es, err) ← decode_body res GetEwons_es;
      mret (default (VSlice None) (get_field "Ewons" es), err)
  end.

(** A value of type [interface{}], of one of the dynamic types a caller is
    likely to pass; only [int] and [string] have a case in the type switch
    of [getEwonByIdentifier]. *)
Inductive any :=
| any_int (i : Z)
| any_string (s : string)
| any_int64 (i : Z)
| any_uint (i : Z)
| any_float64 (f : float64)
| any_bool (b : bool)
| any_bytes (b : list ascii)
| any_nil.

(** The query [qs] of [getEwonByIdentifier], or none for an identifier that
    is neither an [int] nor a [string]. *)
Definition identifier_query (qp : string) (i : any) : option Values :=
  let qs : Values := ∅ in
  match i with
  | any_int n => Some (Values_Add qs qp (strconv_Itoa n))
  | any_string s => Some (Values_Add qs qp s)
  | _ => None
  end.

Definition getEwonByIdentifier (c : Client) (qp : string) (i : any)
  : M (option GoValue * option error) :=
  match identifier_query qp i with
  | None => mret (None, Some errorCouldNotParseArgument)
  | Some qs =>
      '(res, err) ← Request c "getewon" qs;
      match err with
      | Some e => mret (None, Some e)
      | None =>
          '(e, err) ← decode_body res Ewon;
          mret (Some e, err)
      end
  end.

Definition GetEwonByID (c : Client) (id : Z) : M (option GoValue * option error) :=
  getEwonByIdentifier c "id" (any_int id).

Definition GetEwonByName (c : Client) (name : string) : M (option GoValue * option error) :=
  getEwonByIdentifier c "name" (any_string name).

(** [for k, v := range params { qs.Add(k, v) }] in the order [entries]. *)
Definition GetData_query (entries : list (string * string)) : Values :=
  foldl (fun qs kv => Values_Add qs kv.1 kv.2) (∅ : Values) entries.

Definition GetData (c : Client) (params : gmap string string)
  : M (option GoValue * option error) :=
  let qs := GetData_query (map_to_list params) in
  '(res, err) ← Request c "getdata" qs;
  match err with
  | Some e => mret (None, Some e)
  | None =>
      '(d, err) ← decode_body res GetDataResponse;
      mret (Some d, err)
  end.

(** The query [qs] of [SyncData]. *)
Definition SyncData_query (lastTransactionID : string) (createTransaction : bool) : Values :=
  let qs : Values := ∅ in
  let qs := if negb (is_empty lastTransactionID)
            then Values_Add qs "lastTransactionId" lastTransactionID else qs in
  let qs := if createTransaction
            then Values_Add qs "createTransaction" "true" else qs in
  qs.

Definition SyncData (c : Client) (lastTransactionID : string) (createTransaction : bool)
  : M (option GoValue * option error) :=
  let qs := SyncData_query lastTransactionID createTransaction in
  '(res, err) ← Request c "syncdata" qs;
  match err with
  | Some e => mret (None, Some e)
  | None =>
      '(s, err) ← decode_body res SyncResponse;
      mret (Some s, err)
  end.

Definition FirstSyncData (c : Client) : M (option GoValue * option error) :=
  SyncData c "" true.

(** [err.Error()] for the errors whose text the package decides. *)
Definition Error (e : error) : option string :=
  match e with
  | errorMissingCredentials => Some "missing one or more credentials"
  | errorCouldNotParseArgument => Some "could not parse argument"
  | errors_New text => Some text
  | LibError _ => None
  end.

End Package.

(** ** The operations, uniformly *)

(** The exported operations built on [Request]. *)
Inductive Operation :=
| OpGetStatus
| OpGetEwons
| OpGetEwonByID (id : Z)
| OpGetEwonByName (name : string)
| OpGetData (params : gmap string string)
| OpSyncData (lastTransactionID : string) (createTransaction : bool)
| OpFirstSyncData.

(** The endpoint, the query and the result type each operation passes to
    [Request] and to the decoder. *)
Definition endpoint_of (op : Operation) : string :=
  match op with
  | OpGetStatus => "getstatus"
  | OpGetEwons => "getewons"
  | OpGetEwonByID _ | OpGetEwonByName _ => "getewon"
  | OpGetData _ => "getdata"
  | OpSyncData _ _ | OpFirstSyncData => "syncdata"
  end.

Definition query_of (op : Operation) : Values :=
  match op with
  | OpGetStatus | OpGetEwons => ∅
  | OpGetEwonByID id => Values_Add ∅ "id" (strconv_Itoa id)
  | OpGetEwonByName name => Values_Add ∅ "name" name
  | OpGetData params => GetData_query (map_to_list params)
  | OpSyncData l ct => SyncData_query l ct
  | OpFirstSyncData => SyncData_query "" true
  end.

Definition result_type (op : Operation) : GoType :=
  match op with
  | OpGetStatus => GetStatusResponse
  | OpGetEwons => GetEwons_es
  | OpGetEwonByID _ | OpGetEwonByName _ => Ewon
  | OpGetData _ => GetDataResponse
  | OpSyncData _ _ | OpFirstSyncData => SyncResponse
  end.

(** What the caller gets next to the error: [None] for a nil pointer or a
    nil slice. *)
Definition slice_result (r : GoValue * option error) : option GoValue * option error :=
  match r with
  | (VSlice None, e) => (None, e)
  | (v, e) => (Some v, e)
  end.

(** The request an operation hands to the transport. *)
Definition request_of (c : Client) (endpoint : string) (params : Values) : HttpRequest :=
  {| Method := "GET";
     URL := buildURL c endpoint params;
     Header := Values_Add ∅ "User-Agent" (userAgent c) |}.

Section Run.

Variable time_Parse : string -> option Time.
Variable url_Parse : string -> option error.

Definition run (op : Operation) (c : Client) : M (option GoValue * option error) :=
  match op with
  | OpGetStatus => GetStatus time_Parse url_Parse c
  | OpGetEwons => r ← GetEwons time_Parse url_Parse c; mret (slice_result r)
  | OpGetEwonByID id => GetEwonByID time_Parse url_Parse c id
  | OpGetEwonByName name => GetEwonByName time_Parse url_Parse c name
  | OpGetData params => GetData time_Parse url_Parse c params
  | OpSyncData l ct => SyncData time_Parse url_Parse c l ct
  | OpFirstSyncData => FirstSyncData time_Parse url_Parse c
  end.

End Run.

(** ** Data for the examples *)

(** A parser for the UTC, whole-second form [YYYY-MM-DDThh:mm:ssZ] of
    RFC 3339, the form of every timestamp in the package's tests. *)
Definition digit (c : ascii) : option Z :=
  if byte_in 48 57 c then Some (Z.of_N (N_of_ascii c) - 48)%Z else None.

Fixpoint digits (n : nat) (acc : Z) (s : string) : option (Z * string) :=
  match n, s with
  | O, _ => Some (acc, s)
  | S n', String c rest => d ← digit c; digits n' (10 * acc + d)%Z rest
  | S _, EmptyString => None
  end.

Definition expect (c : ascii) (s : string) : option string :=
  match s with
  | String c' rest => if Ascii.eqb c c' then Some rest else None
  | EmptyString => None
  end.

Definition leap_year (y : Z) : bool :=
  ((y mod 4 =? 0) && (negb (y mod 100 =? 0) || (y mod 400 =? 0)))%Z.

Definition days_in_month (y m : Z) : Z :=
  (if m =? 2 then (if leap_year y then 29 else 28)
   else if (m =? 4) || (m =? 6) || (m =? 9) || (m =? 11) then 30 else 31)%Z.

(** Days from January 1 of year 1 to the given date. *)
Definition days_from_civil (y m d : Z) : Z :=
  (let y' := if m <=? 2 then y - 1 else y in
   let era := y' / 400 in
   let yoe := y' - era * 400 in
   let doy := (153 * (if 2 <? m then m - 3 else m + 9) + 2) / 5 + d - 1 in
   let doe := yoe * 365 + yoe / 4 - yoe / 100 + doy in
   era * 146097 + doe - 306)%Z.

Definition rfc3339_utc (s : string) : option Time :=
  '(y, s) ← digits 4 0 s; s ← expect "-" s;
  '(mo, s) ← digits 2 0 s; s ← expect "-" s;
  '(d, s) ← digits 2 0 s; s ← expect "T" s;
  '(h, s) ← digits 2 0 s; s ← expect ":" s;
  '(mi, s) ← digits 2 0 s; s ← expect ":" s;
  '(sec, s) ← digits 2 0 s; s ← expect "Z" s;
  if (is_empty s && (1 <=? mo) && (mo <=? 12) && (1 <=? d) && (d <=? days_in_month y mo)
      && (h <? 24) && (mi <? 60) && (sec <? 60))%Z
  then Some ((((days_from_civil y mo d * 24 + h) * 60 + mi) * 60 + sec) * 1000000000)%Z
  else None.

(** [url.Parse] accepting every URL. *)
Definition any_url (url : string) : option error := None.

(** A client with the credentials of the package's tests, over a transport
    that answers every request with [answer]. *)
Definition test_client (answer : DoResult) : Client :=
  {| Client_http := Some {| Transport := fun _ => answer |};
     AccountID := "aid";
     Username := "username";
     Password := "password";
     DevID := "devid";
     baseURL := DefaultBaseURL;
     userAgent := DefaultUserAgent |}.

Definition jint (z : Z) : JSON := JNumber (NInt z).

(** [{"success":false,"code":401,"message":"Invalid credentials"}]. *)
Definition invalid_credentials : JSON :=
  JObject [("success", JBool false); ("code", jint 401);
           ("message", JString "Invalid credentials")].

(** The status document of [TestGetStatus]. *)
Definition status_document : JSON :=
  JObject [
    ("historyCount", jint 20732);
    ("ewonsCount", jint 2);
    ("ewons", JArray [
       JObject [("id", jint 2); ("name", JString "Paris"); ("historyCount", jint 2702);
                ("firstHistoryDate", JString "2015-07-16T16:04:25Z");
                ("lastHistoryDate", JString "2015-07-17T17:43:36Z")];
       JObject [("id", jint 190); ("name", JString "Brussels"); ("historyCount", jint 18030);
                ("firstHistoryDate", JString "2015-08-24T08:56:44Z");
                ("lastHistoryDate", JString "2015-08-24T14:57:13Z")]])].

(** The history of the tag in [TestGetData] and [TestSyncData]: only the
    first sample has a quality. *)
Definition test_history : JSON :=
  JArray [
    JObject [("date", JString "2018-11-08T14:17:58Z"); ("quality", JString "initialGood");
             ("value", jint 0)];
    JObject [("date", JString "2018-11-08T14:18:00Z"); ("value", jint 0)];
    JObject [("date", JString "2018-11-08T14:18:02Z"); ("value", jint 0)];
    JObject [("date", JString "2018-11-08T14:18:04Z"); ("value", jint 0)];
    JObject [("date", JString "2018-11-08T14:18:06Z"); ("value", jint 0)]].

Definition test_ewons (tag_value : JSON) (history : JSON) : JSON :=
  JArray [
    JObject [
      ("id", jint 508238);
      ("name", JString "ltn_flexy");
      ("tags", JArray [
         JObject [("id", jint 780591); ("name", JString "TAG_2");
                  ("dataType", JString "Float"); ("description", JString "");
                  ("alarmHint", JString ""); ("value", tag_value);
                  ("quality", JString "good"); ("ewonTagId", jint 2);
                  ("history", history)]]);
      ("lastSynchroDate", JString "2018-11-09T09:47:00Z");
      ("timeZone", JString "Europe/Brussels")]].

(** The document of [TestGetData]. *)
Definition getdata_document : JSON :=
  JObject [("success", JBool true); ("moreDataAvailable", JBool true);
           ("ewons", test_ewons (jint 1510) test_history)].

(** The first document of [TestSyncData]. *)
Definition syncdata_document : JSON :=
  JObject [("success", JBool true); ("transactionId", JString "456789");
           ("moreDataAvailable", JBool true);
           ("ewons", test_ewons (jint 1510) test_history)].

(** A status document whose second member does not fit its field. *)
Definition half_status : JSON :=
  JObject [("historyCount", jint 5); ("ewonsCount", JString "two")].

(** The elements of the slice in the field [name] of a struct. *)
Definition sub_slice (name : string) (v : GoValue) : list GoValue :=
  slice_elems (default (VSlice None) (get_field name v)).

(** The history samples of a decoded [GetDataResponse] or [SyncResponse]:
    [Ewons[i].Tags[j].History[k]], in order. *)
Definition history_samples (response : GoValue) : list GoValue :=
  e ← sub_slice "Ewons" response; t ← sub_slice "Tags" e; sub_slice "History" t.

(** ** Notions used to state the properties *)

(** The text of one query parameter. *)
Definition pair_text (kv : string * string) : string :=
  QueryEscape kv.1 +:+ "=" +:+ QueryEscape kv.2.

(** The parameters of a query in the order [Encode] writes them. *)
Definition query_pairs (v : Values) : list (string * string) :=
  k ← sorted_keys v; val ← default [] (v !! k); [(k, val)].

(** One step of the buffer of [Encode]. *)
Definition step (buf : string) (kv : string * string) : string :=
  write_pair (QueryEscape kv.1) buf kv.2.

(** The values a list of map entries holds for the key [k], in order. *)
Definition extras (entries : list (string * list string)) (k : string) : list string :=
  concat (snd <$> filter (λ e, e.1 = k) entries).

(** No key of the map is bound to the empty list. *)
Definition no_empty_values (v : Values) : Prop := ∀ k, v !! k ≠ Some [].

(** The credential sent under the key [k], if [k] is a credential key. *)
Definition credential_of (c : Client) (k : string) : list string :=
  if decide (k = "t2maccount") then [AccountID c]
  else if decide (k = "t2musername") then [Username c]
  else if decide (k = "t2mpassword") then [Password c]
  else if decide (k = "t2mdevid") then [DevID c]
  else [].

(** The world after the transport took [req] and answered with a body. *)
Definition respond (w : World) (req : HttpRequest) (p : Payload) (is_closed : bool) : World :=
  {| wire := wire w ++ [req];
     bodies := bodies w ++ [{| content := p; closed := is_closed |}] |}.

(** The world after the transport took [req] and gave no body. *)
Definition sent (w : World) (req : HttpRequest) : World :=
  {| wire := wire w ++ [req]; bodies := bodies w |}.

(** The decoded [errorResponse] of a body, with the decoder's error. *)
Definition envelope (time_Parse : string → option Time) (p : Payload)
  : GoValue * option error :=
  json_Unmarshal time_Parse p errorResponse (zero errorResponse).

(** The error [Request] returns for a response whose status is not 200. *)
Definition envelope_error (time_Parse : string → option Time) (p : Payload) : error :=
  match envelope time_Parse p with
  | (_, Some e) => e
  | (er, None) => errors_New (string_of (get_field "Message" er))
  end.

(** What an operation returns from the decoded value and the decoder's
    error. *)
Definition finish (op : Operation) (r : GoValue * option error)
  : option GoValue * option error :=
  match op with
  | OpGetEwons => slice_result (default (VSlice None) (get_field "Ewons" r.1), r.2)
  | _ => (Some r.1, r.2)
  end.

(** A struct type is well formed when its Go field names are distinct. *)
Fixpoint wf_type (t : GoType) : bool :=
  match t with
  | TPtr t' | TSlice t' => wf_type t'
  | TStruct fs => bool_decide (NoDup fs.*1.*1) && forallb (λ f : Field, wf_type f.2) fs
  | _ => true
  end.

(** [has_type t v]: [v] is a value of type [t]. *)
Fixpoint has_type (t : GoType) (v : GoValue) {struct t} : bool :=
  match t, v with
  | TBool, VBool _ | TInt, VInt _ | TFloat64, VFloat64 _
  | TString, VString _ | TTime, VTime _ => true
  | TPtr _, VPtr None => true
  | TPtr t', VPtr (Some x) => has_type t' x
  | TSlice _, VSlice None => true
  | TSlice t', VSlice (Some (backing, len)) =>
      forallb (has_type t') backing && (len <=? length backing)%nat
  | TStruct fs, VStruct vs =>
      (fix go (fs : list Field) (vs : list (string * GoValue)) : bool :=
         match fs, vs with
         | [], [] => true
         | f :: fs', x :: vs' => String.eqb f.1.1 x.1 && has_type f.2 x.2 && go fs' vs'
         | _, _ => false
         end) fs vs
  | _, _ => false
  end.

Definition struct_typed (fs : list Field) (vs : list (string * GoValue)) : Prop :=
  Forall2 (λ (f : Field) x, f.1.1 = x.1 ∧ has_type f.2 x.2 = true) fs vs.

(** A decoder keeps the type of its target when it decodes [j]. *)
Definition typed_at (dec : JSON → GoType → GoValue → option error → Res) (j : JSON) : Prop :=
  ∀ t v saved, wf_type t = true → has_type t v = true → has_type t (dec j t v saved).1.1 = true.

(** Some member of a JSON object is stored in the field [name]. *)
Definition mentions (fields : list Field) (name : string) (members : list (string * JSON))
  : bool :=
  existsb (λ kv : string * JSON,
             match find_field fields kv.1 with
             | Some f => String.eqb f.1.1 name
             | None => false
             end) members.




(** Every body obtained between [w] and [w'] has been closed. *)
Definition bodies_released (w w' : World) : Prop :=
  ∀ b s, bodies w !! b = None → bodies w' !! b = Some s → closed s = true.

(** An error envelope with the given code and message. *)
Definition error_envelope (code : Z) (message : string) : JSON :=
  JObject [("success", JBool false); ("code", jint code); ("message", JString message)].

(** A response with one tag whose value, and the value of its one history
    sample, is the literal [n]. *)
Definition valued_document (n : Number) : JSON :=
  JObject [("ewons", JArray [
    JObject [("tags", JArray [
      JObject [("value", JNumber n);
               ("history", JArray [JObject [("value", JNumber n)]])]])]])].

(** The fields of a struct type. *)
Definition struct_fields (t : GoType) : list Field :=
  match t with
  | TStruct fs => fs
  | _ => []
  end.

(** The numeric code of a decoded error envelope can be read back from the
    error [Request] returns: some function of the error yields it, for every
    client, request and response. *)
Definition code_preserved (time_Parse : string → option Time)
    (url_Parse : string → option error) : Prop :=
  ∃ code_of : error → Z,
    ∀ c h w endpoint params status payload er code e w',
      Client_http c = Some h →
      url_Parse (buildURL c endpoint params) = None →
      Transport h (request_of c endpoint params) = DoResponse status payload →
      status ≠ 200%Z →
      envelope time_Parse payload = (er, None) →
      get_field "Code" er = Some (VInt code) →
      Request time_Parse url_Parse c endpoint params w = (Returns (None, Some e), w') →
      code_of e = code.

(** No error comes with a result. *)
Definition no_partial_result (r : option GoValue * option error) : Prop :=
  r.2 ≠ None → r.1 = None.

(** The bytes [QueryEscape] produces, and the bytes of an encoded query. *)
Definition escaped_char (c : ascii) : bool :=
  is_alnum c
  || match c with
     | "-" | "_" | "." | "~" | "+" | "%" => true
     | _ => false
     end%char.

Definition query_char (c : ascii) : bool :=
  escaped_char c
  || match c with
     | "=" | "&" => true
     | _ => false
     end%char.

(** The pairs of a query added to [m] one by one, as [parseQuery] adds
    them. *)
Definition of_pairs (ps : list (string * string)) (m : Values) : Values :=
  foldl (λ m kv, Values_Add m kv.1 kv.2) m ps.

(** What the decoder reads of [j] when it decodes into [t]: at every depth,
    a member of an object whose key names no field of the struct it is
    decoded into is left out. *)
Fixpoint known_part (j : JSON) : GoType → JSON :=
  fix into (t : GoType) : JSON :=
    match t with
    | TPtr t' => into t'
    | TSlice et =>
        match j with
        | JArray elems => JArray (map (λ e, known_part e et) elems)
        | _ => j
        end
    | TStruct fields =>
        match j with
        | JObject members =>
            JObject
              ((fix keep (ms : list (string * JSON)) : list (string * JSON) :=
                  match ms with
                  | [] => []
                  | (key, x) :: rest =>
                      match find_field fields key with
                      | None => keep rest
                      | Some f => (key, known_part x f.2) :: keep rest
                      end
                  end) members)
        | _ => j
        end
    | _ => j
    end.

(** The members of an object that are stored in a field, each with what
    the decoder reads of it. *)
Definition known_members (fields : list Field) (members : list (string * JSON))
  : list (string * JSON) :=
  omap (λ kv : string * JSON,
          match find_field fields kv.1 with
          | None => None
          | Some f => Some (kv.1, known_part kv.2 f.2)
          end) members.

(** The errors the decoder saves while it goes on: a JSON value that does
    not fit its target. *)
Definition is_type_error (e : error) : bool :=
  match e with
  | LibError (UnmarshalTypeError _ _) => true
  | _ => false
  end.

(** The errors that abort the decoding: those of [Time.UnmarshalJSON]. *)
Definition is_time_error (e : error) : bool :=
  match e with
  | LibError TimeNotAString | LibError (TimeParseError _) => true
  | _ => false
  end.

Definition none_or (P : error → bool) (e : option error) : bool := from_option P true e.

(** A decoder saves type errors only and aborts with time errors only. *)
Definition classified_at (dec : JSON → GoType → GoValue → option error → Res) (j : JSON)
  : Prop :=
  ∀ t v saved, none_or is_type_error saved = true →
    none_or is_type_error (dec j t v saved).1.2 = true
    ∧ none_or is_time_error (dec j t v saved).2 = true.

(** The JSON names of a struct, and of the structs inside it, are distinct
    under case folding. *)
Fixpoint fold_distinct (t : GoType) : bool :=
  match t with
  | TPtr t' | TSlice t' => fold_distinct t'
  | TStruct fs =>
      bool_decide (NoDup (foldName <$> fs.*1.*2)) && forallb (λ f : Field, fold_distinct f.2) fs
  | _ => true
  end.

(** A member of an object, with the boolean it holds replaced by [b] when
    it is stored in the field [name]. *)
Definition flag_member (fields : list Field) (name : string) (b : bool)
    (kv : string * JSON) : string * JSON :=
  match find_field fields kv.1, kv.2 with
  | Some f, JBool _ => if String.eqb f.1.1 name then (kv.1, JBool b) else kv
  | _, _ => kv
  end.

(** Two struct values that are equal in every field but [name]. *)
Definition same_but (name : string) (v1 v2 : GoValue) : Prop :=
  ∃ fs1 fs2, v1 = VStruct fs1 ∧ v2 = VStruct fs2
             ∧ ∀ n, n ≠ name → assoc_get n fs1 = assoc_get n fs2.

(** The types the package decodes a body into. *)
Definition response_types : list GoType :=
  [GetStatusResponse; GetEwons_es; Ewon; GetDataResponse; SyncResponse; errorResponse].

(** No [time.Time] occurs in the type. *)
Fixpoint time_free (t : GoType) : bool :=
  match t with
  | TTime => false
  | TPtr t' | TSlice t' => time_free t'
  | TStruct fs => forallb (λ f : Field, time_free f.2) fs
  | _ => true
  end.

(** A decoder does not abort when it decodes [j] into a type without
    [time.Time]. *)
Definition no_abort_at (dec : JSON → GoType → GoValue → option error → Res) (j : JSON)
  : Prop :=
  ∀ t v saved, time_free t = true → (dec j t v saved).2 = None.

(** The document of [TestGetEwons], with the given [success]. *)
Definition ewons_document (success : bool) : JSON :=
  JObject [
    ("success", JBool success);
    ("ewons", JArray [
       JObject [("id", jint 123456); ("name", JString "Ewon1");
                ("lastSynchroDate", JString "2017-07-08T10:51:28Z")];
       JObject [("id", jint 123457); ("name", JString "Ewon2");
                ("lastSynchroDate", JString "2018-06-05T12:49:27Z")]])].

(** The document of [TestGetEwonByID]; [Ewon] has no field for its first
    member. *)
Definition ewon_document : JSON :=
  JObject [
    ("success", JBool true);
    ("id", jint 123456);
    ("name", JString "Ewon1");
    ("tags", JArray [
       JObject [("id", jint 98765); ("name", JString "Random_Metric");
                ("dataType", JString "Float"); ("description", JString "");
                ("alarmHint", JString ""); ("value", JNumber (NDec 12344567 (-4)));
                ("quality", JString "good"); ("ewonTagId", jint 10)]]);
    ("lastSynchroDate", JString "2018-06-05T12:49:27Z")].

(** A query with a repeated key, an empty value, and separators inside a
    key and a value. *)
Definition awkward_query : Values :=
  of_pairs [("a b", "x&y=z"); ("a b", "1;2"); ("k", ""); ("100%", "é")] ∅.

(** Unfolds the monad of the operations. *)
Ltac run_m :=
  repeat (unfold mbind, M_bind, mret, M_ret, send, new_body, panic; simpl).

(** * Properties *)

(** ** Strings and the encoding of a query *)

Lemma append_nil_r s : s +:+ "" = s.
Proof. induction s; simpl; [done|]. unfold String.app in *. simpl. by rewrite IHs. Qed.

Lemma append_assoc (a b c : string) : (a +:+ b) +:+ c = a +:+ (b +:+ c).
Proof. induction a; [done|]. unfold String.app in *; simpl. by rewrite IHa. Qed.

Lemma append_empty_inv a b : a +:+ b = "" → a = "" ∧ b = "".
Proof. destruct a; [done|]. unfold String.app; simpl. discriminate. Qed.

Lemma length_pos_false s : (0 <? String.length s)%nat = false ↔ s = "".
Proof. destruct s; simpl; split; try done. Qed.

Lemma write_pair_nonempty ek buf val : write_pair ek buf val ≠ "".
Proof.
  unfold write_pair. intros H.
  apply append_empty_inv in H as [_ H].
  apply append_empty_inv in H as [_ H]. apply append_empty_inv in H as [H _]. done.
Qed.

Lemma write_pair_empty k val : write_pair (QueryEscape k) "" val = pair_text (k, val).
Proof. reflexivity. Qed.

Lemma write_pair_more k buf val :
  buf ≠ "" → write_pair (QueryEscape k) buf val = buf +:+ "&" +:+ pair_text (k, val).
Proof.
  intros H. unfold write_pair.
  destruct (0 <? String.length buf)%nat eqn:E.
  - unfold pair_text. simpl. by rewrite !append_assoc.
  - by apply length_pos_false in E.
Qed.

Lemma foldl_values k vs buf :
  foldl (write_pair (QueryEscape k)) buf vs = foldl step buf (val ← vs; [(k, val)]).
Proof. revert buf. induction vs as [|x vs IH]; intros buf; simpl; [done|]. by rewrite IH. Qed.

Lemma foldl_keys (vals : string → list string) keys buf :
  foldl (λ buf k, foldl (write_pair (QueryEscape k)) buf (vals k)) buf keys
  = foldl step buf (k ← keys; val ← vals k; [(k, val)]).
Proof.
  revert buf. induction keys as [|k keys IH]; intros buf; simpl; [done|].
  by rewrite foldl_app, IH, foldl_values.
Qed.

Lemma foldl_step_concat ps buf :
  foldl step buf ps =
  match ps with
  | [] => buf
  | _ => if decide (buf = "") then String.concat "&" (pair_text <$> ps)
         else buf +:+ "&" +:+ String.concat "&" (pair_text <$> ps)
  end.
Proof.
  revert buf. induction ps as [|[k val] ps IH]; intros buf; [done|].
  simpl foldl. rewrite IH.
  change (step buf (k, val)) with (write_pair (QueryEscape k) buf val).
  destruct ps as [|p ps]; simpl.
  - destruct (decide (buf = "")) as [->|Hb]; [done|]. by apply write_pair_more.
  - destruct (decide (write_pair _ _ _ = "")) as [H|_]; [by apply write_pair_nonempty in H|].
    destruct (decide (buf = "")) as [->|Hb]; [done|].
    rewrite write_pair_more by done. by rewrite !append_assoc.
Qed.

Theorem Encode_pairs v :
  Values_Encode v = String.concat "&" (pair_text <$> query_pairs v).
Proof.
  unfold Values_Encode, query_pairs.
  rewrite (foldl_keys (λ k, default [] (v !! k))), foldl_step_concat.
  by destruct (_ ≫= _).
Qed.

Lemma elem_of_sorted_keys (v : Values) k : k ∈ sorted_keys v ↔ is_Some (v !! k).
Proof.
  unfold sorted_keys. rewrite merge_sort_Permutation.
  rewrite list_elem_of_fmap. split.
  - intros [[k' x] [-> H]]. apply elem_of_map_to_list in H. by eexists.
  - intros [x H]. exists (k, x). split; [done|]. by apply elem_of_map_to_list.
Qed.

Lemma elem_of_query_pairs (v : Values) k x :
  (k, x) ∈ query_pairs v ↔ ∃ vs, v !! k = Some vs ∧ x ∈ vs.
Proof.
  unfold query_pairs. rewrite list_elem_of_bind. split.
  - intros (k' & H & Hk). apply list_elem_of_bind in H as (y & H & Hy).
    apply list_elem_of_singleton in H. simplify_eq.
    apply elem_of_sorted_keys in Hk as [vs Hvs]. rewrite Hvs in Hy. eauto.
  - intros (vs & Hvs & Hx). exists k. split.
    + apply list_elem_of_bind. exists x. rewrite Hvs. split; [set_solver|done].
    + apply elem_of_sorted_keys. by eexists.
Qed.

Lemma sorted_keys_sorted v : Sorted String.le (sorted_keys v).
Proof. apply (Sorted_merge_sort _). Qed.

Lemma sorted_keys_NoDup v : NoDup (sorted_keys v).
Proof.
  unfold sorted_keys. rewrite merge_sort_Permutation. apply NoDup_fst_map_to_list.
Qed.

Lemma chars_app (a b : string) :
  list_ascii_of_string (a +:+ b) = list_ascii_of_string a ++ list_ascii_of_string b.
Proof. induction a; [done|]. unfold String.app in *. simpl. by rewrite IHa. Qed.

Lemma upperhex_escaped n : escaped_char (upperhex n) = true.
Proof.
  destruct n as [|p]; [reflexivity|].
  do 4 (destruct p as [p|p|]; try reflexivity).
Qed.

Lemma escape_chars s : Forall (λ c, escaped_char c = true) (list_ascii_of_string (escape s)).
Proof.
  induction s as [|c s IH]; simpl; [constructor|].
  destruct (Ascii.eqb c " "); simpl; [by constructor|].
  destruct (shouldEscape c) eqn:E; simpl.
  - repeat constructor; try apply upperhex_escaped. done.
  - constructor; [|done]. unfold shouldEscape in E. unfold escaped_char.
    destruct (is_alnum c); [done|]. simpl.
    destruct c as [[] [] [] [] [] [] [] []]; try discriminate E; reflexivity.
Qed.

Lemma escaped_query_char c : escaped_char c = true → query_char c = true.
Proof. unfold query_char. by intros ->. Qed.

Lemma pair_text_chars kv :
  Forall (λ c, query_char c = true) (list_ascii_of_string (pair_text kv)).
Proof.
  unfold pair_text, QueryEscape. rewrite !chars_app.
  repeat apply Forall_app_2.
  - eapply Forall_impl; [apply escape_chars|]. apply escaped_query_char.
  - by constructor.
  - eapply Forall_impl; [apply escape_chars|]. apply escaped_query_char.
Qed.

Lemma concat_chars l :
  Forall (λ s, Forall (λ c, query_char c = true) (list_ascii_of_string s)) l →
  Forall (λ c, query_char c = true) (list_ascii_of_string (String.concat "&" l)).
Proof.
  induction 1 as [|s l Hs _ IH]; simpl; [constructor|].
  destruct l as [|s' l]; [done|].
  change (s ++ "&" ++ String.concat "&" (s' :: l))%string
    with (s +:+ "&" +:+ String.concat "&" (s' :: l)).
  rewrite !chars_app. repeat apply Forall_app_2; try done. by constructor.
Qed.

(** ** [Values.Add] and the merge of [buildURL] *)

Lemma Values_Add_lookup (v : Values) k x k' :
  Values_Add v k x !! k' =
  if decide (k = k') then Some (default [] (v !! k) ++ [x]) else v !! k'.
Proof. unfold Values_Add. apply lookup_insert. Qed.

Lemma Values_Add_default (v : Values) k x k' :
  default [] (Values_Add v k x !! k') =
  default [] (v !! k') ++ (if decide (k = k') then [x] else []).
Proof.
  rewrite Values_Add_lookup. destruct (decide (k = k')) as [->|]; simpl; [done|].
  by rewrite app_nil_r.
Qed.

Lemma Values_Add_no_empty v k x : no_empty_values v → no_empty_values (Values_Add v k x).
Proof.
  intros H k'. rewrite Values_Add_lookup. destruct (decide (k = k')); [|apply H].
  intros [= E]. by destruct (default [] (v !! k)).
Qed.

Lemma no_empty_eq (v1 v2 : Values) :
  no_empty_values v1 → no_empty_values v2 →
  (∀ k, default [] (v1 !! k) = default [] (v2 !! k)) → v1 = v2.
Proof.
  intros H1 H2 H. apply map_eq. intros k. specialize (H k).
  specialize (H1 k). specialize (H2 k).
  destruct (v1 !! k) as [[|]|], (v2 !! k) as [[|]|]; simpl in *; congruence.
Qed.


Lemma no_empty_lookup_None (v : Values) k :
  no_empty_values v → default [] (v !! k) = [] → v !! k = None.
Proof. intros Hv H. specialize (Hv k). destruct (v !! k); simpl in *; congruence. Qed.

Lemma add_values_default (v : Values) e k :
  default [] (add_values v e !! k) =
  default [] (v !! k) ++ (if decide (e.1 = k) then e.2 else []).
Proof.
  destruct e as [p vals]. unfold add_values. simpl. revert v.
  induction vals as [|x vals IH]; intros v; simpl.
  - destruct (decide (p = k)); by rewrite app_nil_r.
  - rewrite IH, Values_Add_default. rewrite <- app_assoc.
    by destruct (decide (p = k)).
Qed.

Lemma add_values_no_empty v e : no_empty_values v → no_empty_values (add_values v e).
Proof.
  destruct e as [p vals]. unfold add_values. simpl. revert v.
  induction vals as [|x vals IH]; intros v Hv; simpl; [done|].
  by apply IH, Values_Add_no_empty.
Qed.

Lemma extras_cons e entries k :
  extras (e :: entries) k = (if decide (e.1 = k) then e.2 else []) ++ extras entries k.
Proof. unfold extras. rewrite filter_cons. by destruct (decide (e.1 = k)). Qed.

Lemma foldl_add_values_default entries (v : Values) k :
  default [] (foldl add_values v entries !! k) = default [] (v !! k) ++ extras entries k.
Proof.
  revert v. induction entries as [|e entries IH]; intros v; simpl.
  - by rewrite app_nil_r.
  - by rewrite IH, add_values_default, extras_cons, <- app_assoc.
Qed.

Lemma foldl_add_values_no_empty entries v :
  no_empty_values v → no_empty_values (foldl add_values v entries).
Proof.
  revert v. induction entries as [|e entries IH]; intros v Hv; simpl; [done|].
  by apply IH, add_values_no_empty.
Qed.

Lemma extras_not_in entries k : k ∉ entries.*1 → extras entries k = [].
Proof.
  induction entries as [|e entries IH]; intros H; [done|].
  rewrite fmap_cons, not_elem_of_cons in H. destruct H as [H1 H2].
  rewrite extras_cons, decide_False by congruence. by apply IH.
Qed.

Lemma extras_NoDup entries k vals :
  NoDup entries.*1 → (k, vals) ∈ entries → extras entries k = vals.
Proof.
  induction entries as [|e entries IH]; intros Hnd Hin.
  - by apply elem_of_nil in Hin.
  - rewrite fmap_cons in Hnd. apply NoDup_cons in Hnd as [Hnot Hnd].
    rewrite extras_cons. apply elem_of_cons in Hin as [<-|Hin].
    + simpl. rewrite decide_True by done.
      rewrite extras_not_in by done. apply app_nil_r.
    + destruct (decide (e.1 = k)) as [E|]; [|by apply IH].
      exfalso. apply Hnot. rewrite E. apply list_elem_of_fmap. by exists (k, vals).
Qed.

Lemma extras_of_map (params : Values) entries k :
  entries ≡ₚ map_to_list params → extras entries k = default [] (params !! k).
Proof.
  intros Hp.
  assert (NoDup entries.*1) as Hnd.
  { rewrite Hp. apply NoDup_fst_map_to_list. }
  destruct (params !! k) as [vals|] eqn:E; simpl.
  - apply extras_NoDup; [done|]. rewrite Hp. by apply elem_of_map_to_list.
  - apply extras_not_in. rewrite Hp. intros H.
    apply list_elem_of_fmap in H as [[k' x] [-> H]].
    apply elem_of_map_to_list in H. simpl in *. congruence.
Qed.

Lemma credentials_no_empty c : no_empty_values (credentials c).
Proof.
  unfold credentials. repeat apply Values_Add_no_empty. intros k. by rewrite lookup_empty.
Qed.

Lemma credentials_default c k : default [] (credentials c !! k) = credential_of c k.
Proof.
  unfold credentials, credential_of. rewrite !Values_Add_default, lookup_empty. simpl.
  repeat case_decide; simplify_eq; done.
Qed.


Lemma merge_params_default c (params : Values) k :
  default [] (merge_params c (map_to_list params) !! k)
  = credential_of c k ++ default [] (params !! k).
Proof.
  unfold merge_params. rewrite foldl_add_values_default, credentials_default.
  by rewrite (extras_of_map params).
Qed.

Lemma merge_params_no_empty c entries : no_empty_values (merge_params c entries).
Proof. apply foldl_add_values_no_empty, credentials_no_empty. Qed.

(** ** The request primitive and the operations, case by case *)

Section Properties.

Variable time_Parse : string → option Time.
Variable url_Parse : string → option error.

Lemma Decode_world b t v w : (Decode time_Parse b t v w).2 = w.
Proof. unfold Decode. destruct (bodies w !! b) as [s|]; [destruct (closed s)|]; done. Qed.

Lemma Decode_returns b t v w : ∃ r, Decode time_Parse b t v w = (Returns r, w).
Proof. unfold Decode. destruct (bodies w !! b) as [s|]; [destruct (closed s)|]; eauto. Qed.

Lemma Decode_fresh w req p t v :
  Decode time_Parse (length (bodies w)) t v (respond w req p false)
  = (Returns (json_Unmarshal time_Parse p t v), respond w req p false).
Proof.
  unfold Decode, respond; simpl.
  rewrite lookup_app_r by lia. rewrite Nat.sub_diag. reflexivity.
Qed.

Lemma Request_cases c ep q w :
  Request time_Parse url_Parse c ep q w =
  match url_Parse (buildURL c ep q) with
  | Some e => (Returns (None, Some e), w)
  | None =>
      match Client_http c with
      | None => (Panics, w)
      | Some h =>
          let req := request_of c ep q in
          match Transport h req with
          | DoResponse st p =>
              if (st =? 200)%Z
              then (Returns (Some {| StatusCode := st; Body := length (bodies w) |}, None),
                    respond w req p false)
              else (Returns (None, Some (envelope_error time_Parse p)), respond w req p false)
          | DoError None e => (Returns (None, Some e), sent w req)
          | DoError (Some (st, p)) e =>
              (Returns (Some {| StatusCode := st; Body := length (bodies w) |}, Some e),
               respond w req p true)
          end
      end
  end.
Proof.
  unfold Request, http_NewRequest.
  destruct (url_Parse _) as [e|]; [done|].
  change (Header_Add _ _ _) with (request_of c ep q).
  unfold http_Do. destruct (Client_http c) as [h|]; [|done].
  destruct (Transport h _) as [st p|[[st p]|] e]; run_m; try done.
  destruct (Z.eqb_spec st 200) as [->|_]; simpl; [done|].
  fold (respond w (request_of c ep q) p false).
  change (VStruct _) with (zero errorResponse).
  rewrite Decode_fresh. unfold envelope_error, envelope.
  by destruct (json_Unmarshal _ _ _ _) as [er [e|]].
Qed.

Lemma run_cases op c w :
  run time_Parse url_Parse op c w =
  match Request time_Parse url_Parse c (endpoint_of op) (query_of op) w with
  | (Returns (_, Some e), w') => (Returns (None, Some e), w')
  | (Returns (res, None), w') =>
      match decode_body time_Parse res (result_type op) w' with
      | (Returns r, w'') => (Returns (finish op r), w'')
      | (Panics, w'') => (Panics, w'')
      end
  | (Panics, w') => (Panics, w')
  end.
Proof.
  destruct op; simpl;
    unfold GetStatus, GetEwons, GetEwonByID, GetEwonByName, getEwonByIdentifier,
      GetData, FirstSyncData, SyncData; simpl; run_m;
    destruct (Request _ _ _ _ _ _) as [[[res [e|]]|] w']; simpl; try done;
    destruct (decode_body _ _ _ _) as [[[v err]|] w'']; simpl; done.
Qed.

(** What every operation does when the transport answers with a response
    and no error. *)
Lemma run_response op c h w st p :
  Client_http c = Some h →
  url_Parse (buildURL c (endpoint_of op) (query_of op)) = None →
  Transport h (request_of c (endpoint_of op) (query_of op)) = DoResponse st p →
  run time_Parse url_Parse op c w =
  (Returns (if (st =? 200)%Z
            then finish op (json_Unmarshal time_Parse p (result_type op) (zero (result_type op)))
            else (None, Some (envelope_error time_Parse p))),
   respond w (request_of c (endpoint_of op) (query_of op)) p false).
Proof.
  intros Hh Hu Ht. rewrite run_cases, Request_cases, Hu, Hh. simpl. rewrite Ht.
  destruct (st =? 200)%Z; [|done].
  unfold decode_body. simpl. by rewrite Decode_fresh.
Qed.

End Properties.

Lemma JSON_nested_ind (P : JSON → Prop) :
  P JNull → (∀ b, P (JBool b)) → (∀ n, P (JNumber n)) → (∀ s, P (JString s)) →
  (∀ l, Forall P l → P (JArray l)) →
  (∀ m, Forall (λ kv : string * JSON, P kv.2) m → P (JObject m)) →
  ∀ j, P j.
Proof.
  intros Hn Hb Hnum Hs Ha Ho. fix IH 1.
  intros [|b|n|s|l|m]; [exact Hn|apply Hb|apply Hnum|apply Hs| |].
  - apply Ha. induction l as [|j l IHl]; constructor; [apply IH|exact IHl].
  - apply Ho. induction m as [|[k j] m IHm]; constructor; [apply IH|exact IHm].
Qed.

Lemma has_type_struct fs vs :
  has_type (TStruct fs) (VStruct vs) = true ↔ struct_typed fs vs.
Proof.
  unfold struct_typed. simpl. revert vs.
  induction fs as [|f fs IH]; intros [|x vs]; split; intros H;
    try done; try (by inversion H); try constructor.
  - apply andb_true_iff in H as [H _]. apply andb_true_iff in H as [H1 H2].
    apply String.eqb_eq in H1. done.
  - apply andb_true_iff in H as [_ H]. by apply IH.
  - inversion H as [|? ? ? ? [H1 H2] H3]; subst.
    apply andb_true_iff. split; [apply andb_true_iff; split|].
    + by apply String.eqb_eq.
    + done.
    + by apply IH.
Qed.

Lemma has_type_zero t : has_type t (zero t) = true.
Proof.
  revert t. fix IH 1. intros [| | | | |t|t|fs]; try reflexivity.
  apply has_type_struct. unfold struct_typed. simpl.
  induction fs as [|f fs IHfs]; constructor; [split; [reflexivity|apply IH]|exact IHfs].
Qed.

Lemma find_field_In fields key f : find_field fields key = Some f → f ∈ fields.
Proof.
  unfold find_field. intros H. apply list_elem_of_In.
  destruct (List.find _ fields) eqn:E.
  - simplify_eq. by apply List.find_some in E as [E _].
  - by apply List.find_some in H as [H _].
Qed.

Lemma struct_typed_get fs vs (f : Field) :
  struct_typed fs vs → NoDup fs.*1.*1 → f ∈ fs →
  ∃ x, assoc_get f.1.1 vs = Some x ∧ has_type f.2 x = true.
Proof.
  induction 1 as [|g y fs vs [Hn Ht] _ IH]; intros Hnd Hin.
  - by apply elem_of_nil in Hin.
  - simpl in Hnd. apply NoDup_cons in Hnd as [Hnot Hnd]. destruct y as [n y]. simpl in *.
    apply elem_of_cons in Hin as [->|Hin].
    + exists y. rewrite <- Hn, String.eqb_refl. done.
    + destruct (String.eqb_spec n f.1.1) as [E|_]; [|by apply IH].
      exfalso. apply Hnot. rewrite Hn, E. do 2 apply list_elem_of_fmap_2. exact Hin.
Qed.

Lemma struct_typed_set fs vs (f : Field) x :
  struct_typed fs vs → NoDup fs.*1.*1 → f ∈ fs →
  has_type f.2 x = true → struct_typed fs (assoc_set f.1.1 x vs).
Proof.
  intros H. induction H as [|g y fs vs [Hn Ht] Hrest IH]; intros Hnd Hin Hx.
  - by apply elem_of_nil in Hin.
  - simpl in Hnd. apply NoDup_cons in Hnd as [Hnot Hnd]. destruct y as [n y]. simpl in *.
    apply elem_of_cons in Hin as [->|Hin].
    + rewrite <- Hn, String.eqb_refl. by constructor.
    + destruct (String.eqb_spec n f.1.1) as [E|_].
      * exfalso. apply Hnot. rewrite Hn, E.
        do 2 apply list_elem_of_fmap_2. exact Hin.
      * constructor; [done|]. by apply IH.
Qed.

Lemma literalStore_typed j t v saved :
  has_type t v = true → has_type t (literalStore j t v saved).1.1 = true.
Proof.
  intros H. destruct j as [|b|[z|m e]|s|l|m], t; simpl; try done.
  all: try (destruct (int64_ok _)); try (destruct (float64_ok _ _)); done.
Qed.

Section Typing.

Variable time_Parse : string → option Time.

Lemma Time_UnmarshalJSON_typed j v :
  has_type TTime v = true → has_type TTime (Time_UnmarshalJSON time_Parse j v).1 = true.
Proof. intros H. destruct j; simpl; try done. by destruct (time_Parse s). Qed.

Lemma decode_eq j t v saved :
  decode time_Parse j t v saved =
  match t with
  | TPtr t' =>
      match j with
      | JNull => (VPtr None, saved, None)
      | _ =>
          let '(x, saved', abort) :=
            decode time_Parse j t' (match v with VPtr (Some x) => x | _ => zero t' end) saved in
          (VPtr (Some x), saved', abort)
      end
  | TTime => let '(x, abort) := Time_UnmarshalJSON time_Parse j v in (x, saved, abort)
  | TSlice et =>
      match j with
      | JArray elems => decode_array (decode time_Parse) et elems v saved
      | _ => literalStore j t v saved
      end
  | TStruct fields =>
      match j with
      | JObject members =>
          decode_members (decode time_Parse) fields members
            (match v with VStruct _ => v | _ => zero t end) saved
      | _ => literalStore j t v saved
      end
  | _ => literalStore j t v saved
  end.
Proof. destruct j, t; reflexivity. Qed.

Lemma decode_elems_typed dec et elems backing saved :
  Forall (typed_at dec) elems → wf_type et = true →
  forallb (has_type et) backing = true →
  forallb (has_type et) (decode_elems dec et elems backing saved).1.1 = true.
Proof.
  intros Hall Hwf. revert backing saved.
  induction Hall as [|j elems Hj _ IH]; intros backing saved Hb; [done|].
  simpl.
  assert (has_type et (default (zero et) (head backing)) = true) as Hold.
  { destruct backing; simpl in *; [apply has_type_zero|]. by apply andb_true_iff in Hb as [? _]. }
  specialize (Hj et _ saved Hwf Hold).
  destruct (dec j et _ saved) as [[x s] [e|]]; simpl in *.
  - by rewrite Hj.
  - assert (forallb (has_type et) (tail backing) = true) as Htl.
    { destruct backing; simpl in *; [done|]. by apply andb_true_iff in Hb as [_ ?]. }
    specialize (IH (tail backing) s Htl).
    destruct (decode_elems dec et elems (tail backing) s) as [[xs s'] a]. simpl in *.
    by rewrite Hj, IH.
Qed.

Lemma decode_array_typed dec et elems v saved :
  Forall (typed_at dec) elems → wf_type et = true →
  has_type (TSlice et) v = true →
  has_type (TSlice et) (decode_array dec et elems v saved).1.1 = true.
Proof.
  intros Hall Hwf Hv. unfold decode_array.
  set (s := match v with VSlice (Some s) => s | _ => ([], 0%nat) end).
  assert (forallb (has_type et) s.1 = true ∧ s.2 ≤ length s.1) as [Hb Hlen].
  { subst s. destruct v as [| | | | | |[[b n]|]|]; simpl in *; try done; try (split; [done|lia]).
    apply andb_true_iff in Hv as [? ?%Nat.leb_le]. done. }
  destruct s as [backing len]. simpl in *.
  pose proof (decode_elems_typed dec et elems backing saved Hall Hwf Hb) as Hxs.
  destruct (decode_elems dec et elems backing saved) as [[xs s'] a]. simpl in *.
  assert (forallb (has_type et) (xs ++ drop (length xs) backing) = true) as Hnew.
  { rewrite forallb_app, Hxs. simpl.
    rewrite <- (take_drop (length xs) backing), forallb_app in Hb.
    by apply andb_true_iff in Hb as [_ ?]. }
  destruct a as [e|]; simpl.
  - rewrite Hnew. simpl. apply Nat.leb_le. rewrite length_app, length_drop. lia.
  - destruct elems; simpl; [done|]. rewrite Hnew. simpl.
    apply Nat.leb_le. rewrite length_app. lia.
Qed.

Lemma decode_members_typed dec fields members vs saved :
  Forall (λ kv : string * JSON, typed_at dec kv.2) members →
  wf_type (TStruct fields) = true →
  struct_typed fields vs →
  ∃ vs', (decode_members dec fields members (VStruct vs) saved).1.1 = VStruct vs'
         ∧ struct_typed fields vs'.
Proof.
  intros Hall Hwf. revert vs saved.
  simpl in Hwf. apply andb_true_iff in Hwf as [Hnd%bool_decide_eq_true Hwfs].
  induction Hall as [|[key j] members Hj _ IH]; intros vs saved Hvs; [by exists vs|].
  simpl. destruct (find_field fields key) as [f|] eqn:Hf; [|by apply IH].
  apply find_field_In in Hf.
  destruct (struct_typed_get fields vs f Hvs Hnd Hf) as (x & Hget & Hx).
  rewrite Hget. simpl.
  assert (wf_type f.2 = true) as Hwf.
  { rewrite forallb_forall in Hwfs. apply (Hwfs f), list_elem_of_In, Hf. }
  specialize (Hj f.2 x saved Hwf Hx). simpl in Hj.
  destruct (dec j f.2 x saved) as [[x' s'] a]. simpl in *.
  pose proof (struct_typed_set fields vs f x' Hvs Hnd Hf Hj) as Hset.
  destruct a as [e|]; simpl; [by eexists|]. by apply IH.
Qed.

Lemma decode_typed j : typed_at (decode time_Parse) j.
Proof.
  induction j as [|b|n|s|l IHl|m IHm] using JSON_nested_ind;
    intros t; induction t as [| | | | |t IHt|t IHt|fs]; intros v saved Hwf Hv;
    rewrite decode_eq; try (by apply literalStore_typed);
    try (by pose proof (Time_UnmarshalJSON_typed) as H;
         match goal with |- context [Time_UnmarshalJSON _ ?j ?v] =>
           specialize (H j v Hv); destruct (Time_UnmarshalJSON time_Parse j v) end);
    try done.
  all: try (simpl in Hwf;
    match goal with |- context [decode time_Parse ?j ?t' ?x ?s] =>
      assert (has_type t' x = true) as Hx
        by (destruct v as [| | | | |[y|]| |]; simpl in *; try done; apply has_type_zero);
      specialize (IHt x s Hwf Hx);
      destruct (decode time_Parse j t' x s) as [[x' s'] a]; exact IHt
    end).
  - by apply decode_array_typed.
  - assert (∃ vs, (match v with VStruct _ => v | _ => zero (TStruct fs) end) = VStruct vs
                  ∧ struct_typed fs vs) as (vs & -> & Hvs).
    { destruct v; simpl in Hv; try done. eexists; split; [done|]. by apply has_type_struct. }
    destruct (decode_members_typed (decode time_Parse) fs m vs saved IHm Hwf Hvs)
      as (vs' & -> & Hvs').
    by apply has_type_struct.
Qed.

End Typing.

(** ** Members that are absent, and the elements of a typed slice *)

Lemma assoc_get_set_ne name n x fs :
  n ≠ name → assoc_get name (assoc_set n x fs) = assoc_get name fs.
Proof.
  intros Hne. induction fs as [|[m y] fs IH]; simpl.
  - by destruct (String.eqb_spec n name).
  - destruct (String.eqb_spec m n) as [->|]; simpl.
    + by destruct (String.eqb_spec n name).
    + by rewrite IH.
Qed.

Lemma get_set_field_ne name n x v :
  n ≠ name → get_field name (set_field n x v) = get_field name v.
Proof. intros. destruct v; simpl; try done. by apply assoc_get_set_ne. Qed.

Lemma decode_members_absent dec fields members v saved name :
  mentions fields name members = false →
  get_field name (decode_members dec fields members v saved).1.1 = get_field name v.
Proof.
  revert v saved. induction members as [|[key j] members IH]; intros v saved H; [done|].
  simpl in H. apply orb_false_iff in H as [Hk Hrest]. simpl.
  destruct (find_field fields key) as [f|]; [|by apply IH].
  destruct (dec j f.2 _ saved) as [[x s] a]. simpl.
  assert (f.1.1 ≠ name) as Hne by (by destruct (String.eqb_spec f.1.1 name)).
  destruct a; simpl; [|rewrite IH by done]; by apply get_set_field_ne.
Qed.

Lemma decode_members_unknown dec fields members v saved :
  Forall (λ kv : string * JSON, find_field fields kv.1 = None) members →
  decode_members dec fields members v saved = (v, saved, None).
Proof.
  induction 1 as [|[key j] members Hk _ IH]; simpl; [done|]. simpl in Hk. by rewrite Hk.
Qed.



(** ** The query of [buildURL] *)

Lemma elem_of_query_pairs_default (v : Values) k x :
  (k, x) ∈ query_pairs v ↔ x ∈ default [] (v !! k).
Proof.
  rewrite elem_of_query_pairs. split.
  - intros (vs & -> & H). done.
  - intros H. destruct (v !! k) as [vs|]; simpl in H; [eauto|by apply elem_of_nil in H].
Qed.

Lemma query_pairs_merge c (params : Values) k x :
  (k, x) ∈ query_pairs (merge_params c (map_to_list params))
  ↔ x ∈ credential_of c k ++ default [] (params !! k).
Proof. by rewrite elem_of_query_pairs_default, merge_params_default. Qed.


Lemma request_of_header c endpoint params :
  Header (request_of c endpoint params) = {[ "User-Agent" := [userAgent c] ]}.
Proof. unfold request_of, Values_Add. simpl. by rewrite lookup_empty, insert_empty. Qed.


Lemma Values_Add_empty k x : Values_Add ∅ k x = {[ k := [x] ]}.
Proof. unfold Values_Add. by rewrite lookup_empty, insert_empty. Qed.

Lemma is_empty_spec s : is_empty s = true ↔ s = "".
Proof. unfold is_empty. apply String.eqb_eq. Qed.

Lemma is_empty_false s : is_empty s = false ↔ s ≠ "".
Proof. unfold is_empty. apply String.eqb_neq. Qed.

Lemma SyncData_query_lookup l ct k :
  SyncData_query l ct !! k =
  if decide (k = "createTransaction") then (if ct then Some ["true"] else None)
  else if decide (k = "lastTransactionId") then (if decide (l = "") then None else Some [l])
  else None.
Proof.
  unfold SyncData_query.
  destruct (is_empty l) eqn:El; simpl.
  - apply is_empty_spec in El as ->.
    destruct ct; rewrite ?Values_Add_lookup, ?lookup_empty;
      repeat case_decide; subst; simpl; congruence.
  - apply is_empty_false in El.
    destruct ct; rewrite ?Values_Add_lookup, ?lookup_empty; repeat case_decide;
      rewrite ?Values_Add_lookup, ?lookup_empty; repeat case_decide;
      subst; simpl; congruence.
Qed.

(** ** The envelope of a failure *)

Lemma envelope_document time_Parse code message :
  int64_ok code = true →
  envelope time_Parse (Document (error_envelope code message))
  = (VStruct [("Success", VBool false); ("Code", VInt code); ("Message", VString message)],
     None).
Proof. intros H. unfold envelope. simpl. rewrite H. reflexivity. Qed.

Lemma envelope_error_message time_Parse code message :
  int64_ok code = true →
  envelope_error time_Parse (Document (error_envelope code message)) = errors_New message.
Proof. intros H. unfold envelope_error. by rewrite envelope_document. Qed.

(** ** Decoded values have the type they were decoded into *)

Lemma json_Unmarshal_typed time_Parse p t v :
  wf_type t = true → has_type t v = true →
  has_type t (json_Unmarshal time_Parse p t v).1 = true.
Proof.
  intros Hwf Hv. destruct p as [j|e]; simpl; [|done].
  pose proof (decode_typed time_Parse j t v None Hwf Hv) as H.
  by destruct (decode time_Parse j t v None) as [[v' s] a].
Qed.

Lemma result_type_wf op : wf_type (result_type op) = true.
Proof. destruct op; reflexivity. Qed.




(** ** The claims *)

(** C3. Construction fails with [errorMissingCredentials] exactly when one of
    the four credential strings is empty; it succeeds exactly when all four
    are non-empty, for every transport, and the client it returns holds the
    four strings, the default base URL and the default user agent. *)
Theorem New_missing_credentials h accountID username password developerID :
  (New h accountID username password developerID = (None, Some errorMissingCredentials)
   ↔ accountID = "" ∨ username = "" ∨ password = "" ∨ developerID = "")
  ∧ (New h accountID username password developerID
     = (Some {| Client_http := h;
                AccountID := accountID;
                Username := username;
                Password := password;
                DevID := developerID;
                baseURL := "https://data.talk2m.com/";
                userAgent := "go-ewon/dmweb 0.1" |}, None)
     ↔ accountID ≠ "" ∧ username ≠ "" ∧ password ≠ "" ∧ developerID ≠ "").
Proof.
  unfold New.
  destruct (is_empty accountID) eqn:Ea, (is_empty username) eqn:Eu,
    (is_empty password) eqn:Ep, (is_empty developerID) eqn:Ed; simpl;
    rewrite ?is_empty_spec, ?is_empty_false in *;
    (split; split; intros H); try discriminate H; try tauto; try reflexivity.
Qed.

Section Claims.

Variable time_Parse : string → option Time.
Variable url_Parse : string → option error.

Lemma Request_wire c endpoint params w :
  wire (Request time_Parse url_Parse c endpoint params w).2 = wire w
  ∨ wire (Request time_Parse url_Parse c endpoint params w).2
    = wire w ++ [request_of c endpoint params].
Proof.
  rewrite Request_cases. destruct (url_Parse _); [by left|].
  destruct (Client_http c) as [h|]; [|by left]. simpl.
  destruct (Transport h _) as [st p|[[st p]|] e]; [destruct (st =? 200)%Z|..]; by right.
Qed.

Lemma decode_body_world res t w : (decode_body time_Parse res t w).2 = w.
Proof. destruct res; [apply Decode_world|done]. Qed.

Lemma run_world op c w :
  (run time_Parse url_Parse op c w).2
  = (Request time_Parse url_Parse c (endpoint_of op) (query_of op) w).2.
Proof.
  rewrite run_cases.
  destruct (Request _ _ _ _ _ _) as [[[res [e|]]|] w']; simpl; try done.
  pose proof (decode_body_world res (result_type op) w') as H.
  by destruct (decode_body _ _ _ _) as [[r|] w''].
Qed.

Lemma run_wire op c w :
  wire (run time_Parse url_Parse op c w).2 = wire w
  ∨ wire (run time_Parse url_Parse op c w).2
    = wire w ++ [request_of c (endpoint_of op) (query_of op)].
Proof. rewrite run_world. apply Request_wire. Qed.

(** With an HTTP client and a URL that is accepted, the request is handed to
    the transport, whatever the transport answers. *)
Lemma Request_sends c h endpoint params w :
  Client_http c = Some h →
  url_Parse (buildURL c endpoint params) = None →
  wire (Request time_Parse url_Parse c endpoint params w).2
  = wire w ++ [request_of c endpoint params].
Proof.
  intros Hh Hu. rewrite Request_cases, Hu, Hh. simpl.
  destruct (Transport h _) as [st p|[[st p]|] e]; [destruct (st =? 200)%Z|..]; done.
Qed.

Lemma run_sends op c h w :
  Client_http c = Some h →
  url_Parse (buildURL c (endpoint_of op) (query_of op)) = None →
  wire (run time_Parse url_Parse op c w).2
  = wire w ++ [request_of c (endpoint_of op) (query_of op)].
Proof. intros Hh Hu. rewrite run_world. by apply (Request_sends c h). Qed.

(** The URL of the request, written out. *)
Lemma request_of_URL c endpoint (params : Values) :
  URL (request_of c endpoint params)
  = baseURL c +:+ endpoint +:+ "?"
    +:+ String.concat "&" (pair_text <$> query_pairs (merge_params c (map_to_list params))).
Proof. simpl. unfold buildURL. by rewrite Encode_pairs. Qed.

(** The shared lookup leaves the world as its one call of [Request] leaves
    it. *)
Lemma getEwonByIdentifier_world c qp i qs w :
  identifier_query qp i = Some qs →
  (getEwonByIdentifier time_Parse url_Parse c qp i w).2
  = (Request time_Parse url_Parse c "getewon" qs w).2.
Proof.
  intros Hq. unfold getEwonByIdentifier. rewrite Hq. run_m.
  destruct (Request _ _ _ _ _ _) as [[[res [e|]]|] w']; simpl; try done.
  pose proof (decode_body_world res Ewon w') as H.
  by destruct (decode_body _ _ _ _) as [[[v err]|] w''].
Qed.


(** C7. The query of [SyncData] holds [lastTransactionId], with the given
    value, exactly when that value is not empty, [createTransaction=true]
    exactly when the flag is set, and no other key; the same holds of the
    parameters of the URL; the one request [SyncData] hands to the transport
    is for the [syncdata] endpoint with that query; and [FirstSyncData] is
    [SyncData] with an empty identifier and the flag set. With an HTTP client
    and a URL that is accepted, [SyncData] does hand that request to the
    transport, whatever the transport answers; the URL of the request is the
    base URL, [syncdata], a question mark and these parameters joined by
    [&]; and when the transport answers with a response, [SyncData] returns
    the decoded [SyncResponse] with the decoder's error on status 200, and
    no result and the error of the envelope otherwise. *)
Theorem SyncData_parameters c lastTransactionID createTransaction :
  let qs := SyncData_query lastTransactionID createTransaction in
  let v := merge_params c (map_to_list qs) in
  qs !! "lastTransactionId"
    = (if decide (lastTransactionID = "") then None else Some [lastTransactionID])
  ∧ qs !! "createTransaction" = (if createTransaction then Some ["true"] else None)
  ∧ (∀ k, k ≠ "lastTransactionId" → k ≠ "createTransaction" → qs !! k = None)
  ∧ (∀ x, ("lastTransactionId", x) ∈ query_pairs v
          ↔ lastTransactionID ≠ "" ∧ x = lastTransactionID)
  ∧ (∀ x, ("createTransaction", x) ∈ query_pairs v ↔ createTransaction = true ∧ x = "true")
  ∧ (∀ w, wire (SyncData time_Parse url_Parse c lastTransactionID createTransaction w).2 = wire w
          ∨ wire (SyncData time_Parse url_Parse c lastTransactionID createTransaction w).2
            = wire w ++ [request_of c "syncdata" qs])
  ∧ FirstSyncData time_Parse url_Parse c = SyncData time_Parse url_Parse c "" true
  ∧ (∀ w h,
       Client_http c = Some h →
       url_Parse (buildURL c "syncdata" qs) = None →
       wire (SyncData time_Parse url_Parse c lastTransactionID createTransaction w).2
       = wire w ++ [request_of c "syncdata" qs])
  ∧ URL (request_of c "syncdata" qs)
    = baseURL c +:+ "syncdata" +:+ "?" +:+ String.concat "&" (pair_text <$> query_pairs v)
  ∧ (∀ k x, (k, x) ∈ query_pairs v ↔ x ∈ credential_of c k ++ default [] (qs !! k))
  ∧ (∀ w h status payload,
       Client_http c = Some h →
       url_Parse (buildURL c "syncdata" qs) = None →
       Transport h (request_of c "syncdata" qs) = DoResponse status payload →
       SyncData time_Parse url_Parse c lastTransactionID createTransaction w
       = (Returns
            (if (status =? 200)%Z
             then (Some (json_Unmarshal time_Parse payload SyncResponse (zero SyncResponse)).1,
                   (json_Unmarshal time_Parse payload SyncResponse (zero SyncResponse)).2)
             else (None, Some (envelope_error time_Parse payload))),
          respond w (request_of c "syncdata" qs) payload false))
  ∧ (∀ w e,
       url_Parse (buildURL c "syncdata" qs) = Some e →
       SyncData time_Parse url_Parse c lastTransactionID createTransaction w
       = (Returns (None, Some e), w)).
Proof.
  intros qs v. subst qs v. split_and!.
  - rewrite SyncData_query_lookup. repeat case_decide; done.
  - rewrite SyncData_query_lookup. repeat case_decide; done.
  - intros k H1 H2. rewrite SyncData_query_lookup. repeat case_decide; done.
  - intros x. rewrite query_pairs_merge. simpl. rewrite SyncData_query_lookup.
    repeat case_decide; try congruence; simpl;
      rewrite ?elem_of_nil, ?list_elem_of_singleton; tauto.
  - intros x. rewrite query_pairs_merge. simpl. rewrite SyncData_query_lookup.
    repeat case_decide; try congruence; destruct createTransaction; simpl;
      rewrite ?elem_of_nil, ?list_elem_of_singleton; intuition congruence.
  - intros w. apply (run_wire (OpSyncData lastTransactionID createTransaction)).
  - reflexivity.
  - intros w h Hh Hu.
    by apply (run_sends (OpSyncData lastTransactionID createTransaction) c h).
  - apply request_of_URL.
  - apply query_pairs_merge.
  - intros w h st p Hh Hu Ht.
    exact (run_response time_Parse url_Parse (OpSyncData lastTransactionID createTransaction)
             c h w st p Hh Hu Ht).
  - intros w e Hu.
    change (SyncData time_Parse url_Parse c lastTransactionID createTransaction)
      with (run time_Parse url_Parse (OpSyncData lastTransactionID createTransaction) c).
    rewrite run_cases, Request_cases. simpl endpoint_of. simpl query_of. by rewrite Hu.
Qed.

(** C8. [GetEwonByID] sets the [id] parameter, from the integer, and no
    [name] parameter; [GetEwonByName] sets the [name] parameter, from the
    string, and no [id] parameter; the request each hands to the transport is
    for the [getewon] endpoint with that one parameter; and for an identifier
    that is neither an [int] nor a [string] the shared lookup returns
    [errorCouldNotParseArgument] and leaves the world as it was: nothing is
    handed to the transport. Each of the two is the shared lookup called
    with its key and its kind of identifier; with an HTTP client and a URL
    that is accepted each does hand its request to the transport, whatever
    the transport answers; the URL of that request is the base URL,
    [getewon], a question mark and the credentials and the one parameter
    joined by [&]; and when the transport answers with a response, each
    returns the decoded [Ewon] with the decoder's error on status 200, and
    no result and the error of the envelope otherwise. *)
Theorem lookup_parameter_by_kind c id name qp i w :
  identifier_query "id" (any_int id) = Some {[ "id" := [strconv_Itoa id] ]}
  ∧ identifier_query "name" (any_string name) = Some {[ "name" := [name] ]}
  ∧ (∀ x, ("id", x) ∈ query_pairs (merge_params c (map_to_list (query_of (OpGetEwonByID id))))
          ↔ x = strconv_Itoa id)
  ∧ (∀ x, ("name", x) ∉ query_pairs (merge_params c (map_to_list (query_of (OpGetEwonByID id)))))
  ∧ (∀ x, ("name", x)
            ∈ query_pairs (merge_params c (map_to_list (query_of (OpGetEwonByName name))))
          ↔ x = name)
  ∧ (∀ x, ("id", x)
            ∉ query_pairs (merge_params c (map_to_list (query_of (OpGetEwonByName name)))))
  ∧ (wire (GetEwonByID time_Parse url_Parse c id w).2 = wire w
     ∨ wire (GetEwonByID time_Parse url_Parse c id w).2
       = wire w ++ [request_of c "getewon" {[ "id" := [strconv_Itoa id] ]}])
  ∧ (wire (GetEwonByName time_Parse url_Parse c name w).2 = wire w
     ∨ wire (GetEwonByName time_Parse url_Parse c name w).2
       = wire w ++ [request_of c "getewon" {[ "name" := [name] ]}])
  ∧ ((∀ n, i ≠ any_int n) → (∀ s, i ≠ any_string s) →
     getEwonByIdentifier time_Parse url_Parse c qp i w
     = (Returns (None, Some errorCouldNotParseArgument), w))
  ∧ GetEwonByID time_Parse url_Parse c id
    = getEwonByIdentifier time_Parse url_Parse c "id" (any_int id)
  ∧ GetEwonByName time_Parse url_Parse c name
    = getEwonByIdentifier time_Parse url_Parse c "name" (any_string name)
  ∧ (∀ qs h,
       identifier_query qp i = Some qs →
       Client_http c = Some h →
       url_Parse (buildURL c "getewon" qs) = None →
       wire (getEwonByIdentifier time_Parse url_Parse c qp i w).2
       = wire w ++ [request_of c "getewon" qs])
  ∧ (∀ h,
       Client_http c = Some h →
       url_Parse (buildURL c "getewon" {[ "id" := [strconv_Itoa id] ]}) = None →
       wire (GetEwonByID time_Parse url_Parse c id w).2
       = wire w ++ [request_of c "getewon" {[ "id" := [strconv_Itoa id] ]}])
  ∧ (∀ h,
       Client_http c = Some h →
       url_Parse (buildURL c "getewon" {[ "name" := [name] ]}) = None →
       wire (GetEwonByName time_Parse url_Parse c name w).2
       = wire w ++ [request_of c "getewon" {[ "name" := [name] ]}])
  ∧ (∀ key value,
       URL (request_of c "getewon" {[ key := [value] ]})
       = baseURL c +:+ "getewon" +:+ "?"
         +:+ String.concat "&"
               (pair_text <$> query_pairs (merge_params c (map_to_list {[ key := [value] ]})))
       ∧ ∀ k x, (k, x) ∈ query_pairs (merge_params c (map_to_list {[ key := [value] ]}))
                ↔ x ∈ credential_of c k ++ (if decide (k = key) then [value] else []))
  ∧ (∀ h status payload,
       Client_http c = Some h →
       url_Parse (buildURL c "getewon" {[ "id" := [strconv_Itoa id] ]}) = None →
       Transport h (request_of c "getewon" {[ "id" := [strconv_Itoa id] ]})
       = DoResponse status payload →
       GetEwonByID time_Parse url_Parse c id w
       = (Returns
            (if (status =? 200)%Z
             then (Some (json_Unmarshal time_Parse payload Ewon (zero Ewon)).1,
                   (json_Unmarshal time_Parse payload Ewon (zero Ewon)).2)
             else (None, Some (envelope_error time_Parse payload))),
          respond w (request_of c "getewon" {[ "id" := [strconv_Itoa id] ]}) payload false))
  ∧ (∀ h status payload,
       Client_http c = Some h →
       url_Parse (buildURL c "getewon" {[ "name" := [name] ]}) = None →
       Transport h (request_of c "getewon" {[ "name" := [name] ]})
       = DoResponse status payload →
       GetEwonByName time_Parse url_Parse c name w
       = (Returns
            (if (status =? 200)%Z
             then (Some (json_Unmarshal time_Parse payload Ewon (zero Ewon)).1,
                   (json_Unmarshal time_Parse payload Ewon (zero Ewon)).2)
             else (None, Some (envelope_error time_Parse payload))),
          respond w (request_of c "getewon" {[ "name" := [name] ]}) payload false)).
Proof.
  unfold identifier_query at 1 2. simpl query_of. rewrite !Values_Add_empty.
  split_and!; try reflexivity.
  - intros x. rewrite query_pairs_merge, lookup_singleton_eq. simpl.
    by rewrite list_elem_of_singleton.
  - intros x. rewrite query_pairs_merge, lookup_singleton_ne by done. simpl.
    apply not_elem_of_nil.
  - intros x. rewrite query_pairs_merge, lookup_singleton_eq. simpl.
    by rewrite list_elem_of_singleton.
  - intros x. rewrite query_pairs_merge, lookup_singleton_ne by done. simpl.
    apply not_elem_of_nil.
  - rewrite <- Values_Add_empty. apply (run_wire (OpGetEwonByID id)).
  - rewrite <- Values_Add_empty. apply (run_wire (OpGetEwonByName name)).
  - intros Hi Hs. unfold getEwonByIdentifier, identifier_query.
    destruct i as [n|s| | | | | |]; try done; [by destruct (Hi n)|by destruct (Hs s)].
  - intros qs h Hq Hh Hu. rewrite (getEwonByIdentifier_world c qp i qs w Hq).
    by apply (Request_sends c h).
  - intros h Hh Hu. rewrite <- Values_Add_empty in Hu |- *.
    by apply (run_sends (OpGetEwonByID id) c h).
  - intros h Hh Hu. rewrite <- Values_Add_empty in Hu |- *.
    by apply (run_sends (OpGetEwonByName name) c h).
  - intros key value. split; [apply request_of_URL|].
    intros k x. rewrite query_pairs_merge.
    destruct (decide (k = key)) as [->|Hne].
    + by rewrite lookup_singleton_eq.
    + by rewrite lookup_singleton_ne.
  - intros h st p Hh Hu Ht. rewrite <- Values_Add_empty in Hu, Ht |- *.
    exact (run_response time_Parse url_Parse (OpGetEwonByID id) c h w st p Hh Hu Ht).
  - intros h st p Hh Hu Ht. rewrite <- Values_Add_empty in Hu, Ht |- *.
    exact (run_response time_Parse url_Parse (OpGetEwonByName name) c h w st p Hh Hu Ht).
Qed.

(** C1. When the transport answers a request with a status other than 200,
    [Request] decodes the body as an error envelope and returns no response
    and an error, and every operation that made this request returns no
    result and the same error: the decoder's error when decoding fails, and
    otherwise an error whose text is the [message] of the envelope. *)
Theorem non200_error_envelope c h w endpoint params status payload :
  Client_http c = Some h →
  url_Parse (buildURL c endpoint params) = None →
  Transport h (request_of c endpoint params) = DoResponse status payload →
  status ≠ 200%Z →
  ∃ e w',
    Request time_Parse url_Parse c endpoint params w = (Returns (None, Some e), w')
    ∧ (∀ op, endpoint_of op = endpoint → query_of op = params →
             run time_Parse url_Parse op c w = (Returns (None, Some e), w'))
    ∧ match json_Unmarshal time_Parse payload errorResponse (zero errorResponse) with
      | (_, Some decode_error) => e = decode_error
      | (er, None) => Error e = Some (string_of (get_field "Message" er))
      end.
Proof.
  intros Hh Hu Ht Hst.
  exists (envelope_error time_Parse payload),
         (respond w (request_of c endpoint params) payload false).
  assert ((status =? 200)%Z = false) as Hne by (by apply Z.eqb_neq).
  split_and!.
  - rewrite Request_cases, Hu, Hh. simpl. by rewrite Ht, Hne.
  - intros op <- <-. by rewrite (run_response _ _ op c h w status payload), Hne.
  - unfold envelope_error, envelope. by destruct (json_Unmarshal _ _ _ _) as [er [e|]].
Qed.

(** C4, as amended. For a response with a status other than 200 whose
    envelope decodes, the error [Request] and every operation return is the
    error [errors.New] makes from the [message] of the envelope: its text is
    that message, and it is the same error for every envelope with that
    message, whatever its code. *)
Theorem service_error_keeps_message_only c h w endpoint params status payload er :
  Client_http c = Some h →
  url_Parse (buildURL c endpoint params) = None →
  Transport h (request_of c endpoint params) = DoResponse status payload →
  status ≠ 200%Z →
  envelope time_Parse payload = (er, None) →
  let e := errors_New (string_of (get_field "Message" er)) in
  (Request time_Parse url_Parse c endpoint params w).1 = Returns (None, Some e)
  ∧ (∀ op, endpoint_of op = endpoint → query_of op = params →
           (run time_Parse url_Parse op c w).1 = Returns (None, Some e))
  ∧ Error e = Some (string_of (get_field "Message" er))
  ∧ (∀ payload' er',
       envelope time_Parse payload' = (er', None) →
       string_of (get_field "Message" er') = string_of (get_field "Message" er) →
       envelope_error time_Parse payload' = e).
Proof.
  intros Hh Hu Ht Hst Her e.
  assert ((status =? 200)%Z = false) as Hne by (by apply Z.eqb_neq).
  assert (envelope_error time_Parse payload = e) as He.
  { unfold envelope_error. by rewrite Her. }
  split_and!.
  - rewrite Request_cases, Hu, Hh. simpl. by rewrite Ht, Hne, He.
  - intros op <- <-. by rewrite (run_response _ _ op c h w status payload), Hne, He.
  - done.
  - intros p' er' Her' Hm. unfold envelope_error. rewrite Her'. subst e. by rewrite Hm.
Qed.

(** C6, as amended. When the transport answers a request with a response and
    no error, then whatever the status and whatever the decoder makes of the
    body, the world [Request] and every operation that made this request
    leave behind holds the new body still open, and every earlier body as it
    was: no operation closes a body. *)
Theorem body_left_open c h w endpoint params status payload :
  Client_http c = Some h →
  url_Parse (buildURL c endpoint params) = None →
  Transport h (request_of c endpoint params) = DoResponse status payload →
  let w' := respond w (request_of c endpoint params) payload false in
  (Request time_Parse url_Parse c endpoint params w).2 = w'
  ∧ (∀ op, endpoint_of op = endpoint → query_of op = params →
           (run time_Parse url_Parse op c w).2 = w')
  ∧ bodies w' !! length (bodies w) = Some {| content := payload; closed := false |}
  ∧ (∀ b s, bodies w !! b = Some s → bodies w' !! b = Some s).
Proof.
  intros Hh Hu Ht w'. subst w'. split_and!.
  - rewrite Request_cases, Hu, Hh. simpl. rewrite Ht. by destruct (status =? 200)%Z.
  - intros op <- <-. by rewrite (run_response _ _ op c h w status payload).
  - simpl. by rewrite lookup_app_r, Nat.sub_diag by lia.
  - intros b s Hb. simpl. by apply lookup_app_l_Some.
Qed.

Lemma decode_body_typed res t w r w' :
  wf_type t = true →
  decode_body time_Parse res t w = (Returns r, w') → has_type t r.1 = true.
Proof.
  intros Hwf. destruct res as [res|]; [|done]. simpl. unfold Decode.
  destruct (bodies w !! Body res) as [s|]; [destruct (closed s)|]; intros [= <- <-];
    simpl; try apply has_type_zero.
  apply json_Unmarshal_typed; [done|apply has_type_zero].
Qed.

(** The value an operation returns has the type the operation decodes
    into, whether or not the decoder reported an error. *)
Lemma run_result_typed op c w r e w' :
  op ≠ OpGetEwons →
  run time_Parse url_Parse op c w = (Returns (Some r, e), w') →
  has_type (result_type op) r = true.
Proof.
  intros Hop. rewrite run_cases.
  destruct (Request _ _ _ _ _ _) as [[[res [e0|]]|] w0]; try done.
  destruct (decode_body _ _ _ _) as [[r0|] w1] eqn:Hd; try done.
  apply decode_body_typed in Hd; [|apply result_type_wf].
  destruct op; try done; by intros [= <- <- <-].
Qed.

Lemma decode_object_absent fields members saved name :
  mentions fields name members = false →
  get_field name (decode time_Parse (JObject members) (TStruct fields)
                    (zero (TStruct fields)) saved).1.1
  = get_field name (zero (TStruct fields)).
Proof. intros H. rewrite decode_eq. simpl. by apply decode_members_absent. Qed.


(** C10. When the transport answers with status 200 and a document in which
    the value of a tag and of a history sample is a literal with a fraction
    or an exponent, such as 1.5, in the range of [float64], [GetData]
    returns the decoder's error that the number does not fit an [int], and
    [SyncData] returns no error and the sample holds the number. *)
Theorem fractional_value_GetData_error_SyncData_ok c h w params lastTransactionID
    createTransaction m e :
  Client_http c = Some h →
  url_Parse (buildURL c "getdata" (GetData_query (map_to_list params))) = None →
  url_Parse (buildURL c "syncdata" (SyncData_query lastTransactionID createTransaction))
  = None →
  (∀ req, Transport h req = DoResponse 200 (Document (valued_document (NDec m e)))) →
  float64_ok m e = true →
  (∃ d, (GetData time_Parse url_Parse c params w).1
        = Returns (Some d, Some (LibError (UnmarshalTypeError (DnumberLit (NDec m e)) TInt)))
        ∧ history_samples d
          = [VStruct [("Date", VTime 0%Z); ("Quality", VString ""); ("Value", VInt 0)]])
  ∧ (∃ s, (SyncData time_Parse url_Parse c lastTransactionID createTransaction w).1
          = Returns (Some s, None)
          ∧ history_samples s
            = [VStruct [("Date", VTime 0%Z); ("DataType", VString "");
                        ("Value", VFloat64 {| significand := m; exponent10 := e |})]]).
Proof.
  intros Hh Hu1 Hu2 Ht Hok. split.
  - pose proof (run_response time_Parse url_Parse (OpGetData params) c h w 200 _
                  Hh Hu1 (Ht _)) as H.
    simpl in H. rewrite H. simpl. eexists. split; reflexivity.
  - pose proof (run_response time_Parse url_Parse
                  (OpSyncData lastTransactionID createTransaction) c h w 200 _
                  Hh Hu2 (Ht _)) as H.
    cbn -[float64_ok] in H. rewrite Hok in H. rewrite H. simpl. eexists. split; reflexivity.
Qed.

End Claims.

(** ** Further properties of the request path *)

(** The query of a URL is written with unreserved bytes, [+], [%], [=] and
    [&] only, and a key or value in it with none of [=] and [&]: what a
    caller passes as a parameter cannot add a parameter of its own. *)
Theorem query_string_characters c endpoint (params : Values) :
  buildURL c endpoint params
  = baseURL c +:+ endpoint +:+ "?" +:+ Values_Encode (merge_params c (map_to_list params))
  ∧ Forall (λ x, query_char x = true)
      (list_ascii_of_string (Values_Encode (merge_params c (map_to_list params))))
  ∧ (∀ s, Forall (λ x, escaped_char x = true) (list_ascii_of_string (QueryEscape s))).
Proof.
  split; [reflexivity|]. split; [|apply escape_chars].
  rewrite Encode_pairs. apply concat_chars, Forall_fmap, Forall_forall.
  intros kv _. apply pair_text_chars.
Qed.

Section Further.

Variable time_Parse : string → option Time.
Variable url_Parse : string → option error.

(** Whatever happens, no operation changes a body that is already there. *)
Lemma run_keeps_bodies op c w b s :
  bodies w !! b = Some s → bodies (run time_Parse url_Parse op c w).2 !! b = Some s.
Proof.
  intros Hb. rewrite run_world, Request_cases.
  destruct (url_Parse _); [done|]. destruct (Client_http c) as [h|]; [|done]. simpl.
  destruct (Transport h _) as [st p|[[st p]|] e]; [destruct (st =? 200)%Z|..]; simpl;
    try done; by apply lookup_app_l_Some.
Qed.

(** Closing the body of the response [Request] returned releases it; the
    operations call [Request] and never [Body_Close]. *)
Lemma Body_Close_releases c h w endpoint params payload :
  Client_http c = Some h →
  url_Parse (buildURL c endpoint params) = None →
  Transport h (request_of c endpoint params) = DoResponse 200 payload →
  bodies_released w
    (Body_Close (length (bodies w))
       (Request time_Parse url_Parse c endpoint params w).2).2.
Proof.
  intros Hh Hu Ht. rewrite Request_cases, Hu, Hh. cbn zeta. rewrite Ht.
  change ((200 =? 200)%Z) with true. cbn iota. unfold Body_Close, respond. cbn [snd bodies].
  intros b s Hnone Hsome.
  apply lookup_ge_None in Hnone. cbn [bodies] in Hsome.
  destruct (decide (b = length (bodies w))) as [->|Hne].
  - rewrite list_lookup_alter_eq, lookup_app_r, Nat.sub_diag in Hsome by lia.
    simpl in Hsome. by injection Hsome as <-.
  - rewrite list_lookup_alter_ne in Hsome by done.
    apply lookup_lt_Some in Hsome. rewrite length_app in Hsome. simpl in Hsome. lia.
Qed.

(** An operation hands at most one request to the transport: nothing is
    retried. *)
Theorem at_most_one_request op c w :
  wire (run time_Parse url_Parse op c w).2 = wire w
  ∨ wire (run time_Parse url_Parse op c w).2
    = wire w ++ [request_of c (endpoint_of op) (query_of op)].
Proof. apply run_wire. Qed.


(** A URL that [http.NewRequest] rejects is reported and nothing is sent. *)
Theorem rejected_url_sends_nothing op c w e :
  url_Parse (buildURL c (endpoint_of op) (query_of op)) = Some e →
  Request time_Parse url_Parse c (endpoint_of op) (query_of op) w
  = (Returns (None, Some e), w)
  ∧ run time_Parse url_Parse op c w = (Returns (None, Some e), w).
Proof. intros Hu. by rewrite run_cases, Request_cases, Hu. Qed.

(** On status 200 [Request] returns the response with its body open and no
    error. *)
Theorem status_200_returns_open_body c h w endpoint params payload :
  Client_http c = Some h →
  url_Parse (buildURL c endpoint params) = None →
  Transport h (request_of c endpoint params) = DoResponse 200 payload →
  ∃ r w',
    Request time_Parse url_Parse c endpoint params w = (Returns (Some r, None), w')
    ∧ StatusCode r = 200%Z
    ∧ bodies w' !! Body r = Some {| content := payload; closed := false |}.
Proof.
  intros Hh Hu Ht. rewrite Request_cases, Hu, Hh. simpl. rewrite Ht. simpl.
  eexists _, _. split; [reflexivity|]. split; [reflexivity|]. simpl.
  by rewrite lookup_app_r, Nat.sub_diag by lia.
Qed.

(** What an operation returns next to a value has the type the operation
    decodes into, with or without an error. *)
Theorem result_has_declared_type op c w r e w' :
  op ≠ OpGetEwons →
  run time_Parse url_Parse op c w = (Returns (Some r, e), w') →
  has_type (result_type op) r = true.
Proof. apply run_result_typed. Qed.

(** An operation that returns a pointer returns the decoded value, not nil,
    whenever the status is 200, with whatever error the decoder gives. *)
Lemma status_200_returns_value op c h w payload :
  op ≠ OpGetEwons →
  Client_http c = Some h →
  url_Parse (buildURL c (endpoint_of op) (query_of op)) = None →
  Transport h (request_of c (endpoint_of op) (query_of op)) = DoResponse 200 payload →
  (run time_Parse url_Parse op c w).1
  = Returns (Some (json_Unmarshal time_Parse payload (result_type op)
                     (zero (result_type op))).1,
             (json_Unmarshal time_Parse payload (result_type op)
                (zero (result_type op))).2).
Proof.
  intros Hop Hh Hu Ht. rewrite (run_response _ _ op c h w 200 payload) by done. simpl.
  by destruct op.
Qed.
End Further.

(** [GetData] passes each parameter of its map on as it is, whatever the
    order in which the map is ranged over. *)
Lemma GetData_query_add_values entries :
  GetData_query entries
  = foldl add_values (∅ : Values) (prod_map id (λ x, [x]) <$> entries).
Proof.
  unfold GetData_query. generalize (∅ : Values).
  induction entries as [|[k x] entries IH]; intros v; simpl; [done|]. by rewrite IH.
Qed.


(** ** The query read back: [ParseQuery] after [Encode] *)

Lemma length_app_string (a b : string) :
  String.length (a +:+ b) = String.length a + String.length b.
Proof. induction a; [done|]. unfold String.app in *; simpl. by rewrite IHa. Qed.

Lemma app_string_inv_head (a b c : string) : a +:+ b = a +:+ c → b = c.
Proof. induction a; [done|]. unfold String.app in *; simpl. intros [= H]. auto. Qed.

Lemma unescape_escape s : unescape (escape s) = (s, None).
Proof.
  induction s as [|c s IH]; [done|].
  cbn [escape].
  destruct (Ascii.eqb c " ") eqn:Esp.
  - apply Ascii.eqb_eq in Esp as ->. cbn. by rewrite IH.
  - destruct (shouldEscape c) eqn:Eesc.
    + cbn [unescape]. change (Ascii.eqb "%" "%") with true. cbn iota.
      assert (ishex (upperhex (N.shiftr (N_of_ascii c) 4))
              && ishex (upperhex (N.land (N_of_ascii c) 15)) = true
              ∧ ascii_of_N (N.lor (N.shiftl (unhex (upperhex (N.shiftr (N_of_ascii c) 4))) 4)
                              (unhex (upperhex (N.land (N_of_ascii c) 15)))) = c) as [-> ->].
      { clear. destruct c as [[] [] [] [] [] [] [] []]; vm_compute; done. }
      by rewrite IH.
    + cbn [unescape].
      assert (Ascii.eqb c "%" = false ∧ Ascii.eqb c "+" = false) as [-> ->].
      { clear -Eesc. destruct c as [[] [] [] [] [] [] [] []]; vm_compute in Eesc |- *; done. }
      by rewrite IH.
Qed.

Lemma strings_Cut_absent sep a :
  Forall (λ c, c ≠ sep) (list_ascii_of_string a) → strings_Cut a sep = (a, "", false).
Proof.
  induction a as [|c a IH]; simpl; [done|]. intros [Hc Ha]%Forall_cons.
  destruct (Ascii.eqb_spec c sep); [done|]. by rewrite IH.
Qed.

Lemma strings_Cut_present sep a b :
  Forall (λ c, c ≠ sep) (list_ascii_of_string a) →
  strings_Cut (a +:+ String sep b) sep = (a, b, true).
Proof.
  induction a as [|c a IH]; simpl.
  - intros _. unfold String.app; simpl. by rewrite Ascii.eqb_refl.
  - intros [Hc Ha]%Forall_cons. unfold String.app in *; simpl.
    destruct (Ascii.eqb_spec c sep); [done|]. by rewrite IH.
Qed.

Lemma strings_Cut_length s sep :
  String.length (strings_Cut s sep).1.2 ≤ String.length s
  ∧ (s ≠ "" → String.length (strings_Cut s sep).1.2 < String.length s).
Proof.
  induction s as [|c s [IH _]]; simpl; [split; [lia|done]|].
  destruct (Ascii.eqb c sep); simpl; [split; lia|].
  destruct (strings_Cut s sep) as [[before after] found]. simpl in *. split; lia.
Qed.

Lemma strings_Contains_false s sep :
  strings_Contains s sep = false ↔ Forall (λ c, c ≠ sep) (list_ascii_of_string s).
Proof.
  unfold strings_Contains. induction s as [|c s IH]; simpl.
  - split; [constructor|done].
  - destruct (Ascii.eqb_spec c sep) as [->|Hne]; simpl.
    + split; [done|]. by intros [? _]%Forall_cons.
    + destruct (strings_Cut s sep) as [[b a] f]. simpl in *. rewrite Forall_cons. tauto.
Qed.

(** More turns than the query has bytes change nothing. *)
Lemma parseQuery_turns turns query m err :
  String.length query ≤ turns →
  parseQuery turns m query err = parseQuery (String.length query) m query err.
Proof.
  assert (∀ n1 n2 query m err, String.length query ≤ n1 → String.length query ≤ n2 →
            parseQuery n1 m query err = parseQuery n2 m query err) as H.
  { induction n1 as [|n1 IH]; intros n2 q m' err' H1 H2.
    - destruct q; [|simpl in H1; lia]. by destruct n2.
    - destruct n2 as [|n2]; [destruct q; [done|simpl in H2; lia]|].
      cbn [parseQuery]. destruct (String.eqb_spec q "") as [->|Hq]; [done|].
      destruct (strings_Cut_length q "&") as [_ Hlt]. specialize (Hlt Hq).
      destruct (strings_Cut q "&") as [[key rest] found]. simpl in Hlt.
      assert (∀ m'' err'', parseQuery n1 m'' rest err'' = parseQuery n2 m'' rest err'') as Hrest
        by (intros; apply IH; lia).
      destruct (strings_Contains key ";"); [apply Hrest|].
      destruct (String.eqb key ""); [apply Hrest|].
      destruct (strings_Cut key "=") as [[k x] f].
      destruct (QueryUnescape k) as [k' [e|]]; [apply Hrest|].
      destruct (QueryUnescape x) as [x' [e|]]; apply Hrest. }
  intros Hlen. by apply H.
Qed.

Lemma escape_without sep s :
  escaped_char sep = false → Forall (λ c, c ≠ sep) (list_ascii_of_string (escape s)).
Proof.
  intros H. eapply Forall_impl; [apply escape_chars|]. simpl. intros c Hc ->. congruence.
Qed.

Lemma pair_text_without sep kv :
  escaped_char sep = false → sep ≠ "="%char →
  Forall (λ c, c ≠ sep) (list_ascii_of_string (pair_text kv)).
Proof.
  intros H Hne. unfold pair_text, QueryEscape. rewrite !chars_app.
  repeat apply Forall_app_2; try by apply escape_without.
  constructor; [congruence|constructor].
Qed.

Lemma pair_text_nonempty kv : pair_text kv ≠ "".
Proof.
  unfold pair_text. intros H.
  apply append_empty_inv in H as [_ H]. by apply append_empty_inv in H as [H _].
Qed.

(** One turn of the loop on the text of a pair. *)
Lemma parse_pair kv :
  strings_Contains (pair_text kv) ";" = false
  ∧ String.eqb (pair_text kv) "" = false
  ∧ strings_Cut (pair_text kv) "=" = (QueryEscape kv.1, QueryEscape kv.2, true).
Proof.
  split_and!.
  - unfold strings_Contains. by rewrite strings_Cut_absent by (by apply pair_text_without).
  - apply String.eqb_neq, pair_text_nonempty.
  - unfold pair_text. apply strings_Cut_present. by apply escape_without.
Qed.

Lemma concat_amp_cons p l :
  String.concat "&" (p :: l)
  = match l with [] => p | _ => p +:+ String "&" (String.concat "&" l) end.
Proof. by destruct l. Qed.

Lemma concat_amp_length p l :
  p ≠ "" → String.length (String.concat "&" l) < String.length (String.concat "&" (p :: l)).
Proof.
  intros Hp. rewrite concat_amp_cons. destruct l as [|q l].
  - destruct p; simpl; [done|lia].
  - rewrite length_app_string.
    change (String.length (String "&" ?s)) with (S (String.length s)). lia.
Qed.

Lemma parseQuery_pairs ps turns m err :
  String.length (String.concat "&" (pair_text <$> ps)) ≤ turns →
  parseQuery turns m (String.concat "&" (pair_text <$> ps)) err = (of_pairs ps m, err).
Proof.
  revert turns m. induction ps as [|kv ps IH]; intros turns m Hlen.
  - simpl. by destruct turns.
  - destruct (parse_pair kv) as (Hsemi & Hne & Hcut).
    rewrite fmap_cons in *.
    pose proof (concat_amp_length (pair_text kv) (pair_text <$> ps) (pair_text_nonempty kv))
      as Hlt.
    destruct turns as [|turns]; [lia|].
    cbn [parseQuery of_pairs foldl].
    assert (String.eqb (String.concat "&" (pair_text kv :: (pair_text <$> ps))) "" = false)
      as ->.
    { apply String.eqb_neq. intros E. rewrite E in Hlt. simpl in Hlt. lia. }
    assert (∃ found, strings_Cut (String.concat "&" (pair_text kv :: (pair_text <$> ps))) "&"
                     = (pair_text kv, String.concat "&" (pair_text <$> ps), found))
      as [found ->].
    { rewrite concat_amp_cons. destruct (pair_text <$> ps) as [|q l].
      - exists false. by rewrite strings_Cut_absent by (by apply pair_text_without).
      - exists true. by rewrite strings_Cut_present by (by apply pair_text_without). }
    rewrite Hsemi, Hne, Hcut. unfold QueryUnescape, QueryEscape.
    rewrite !unescape_escape. apply IH. lia.
Qed.

Lemma of_pairs_default ps (m : Values) k :
  default [] (of_pairs ps m !! k)
  = default [] (m !! k) ++ (filter (λ kv, kv.1 = k) ps).*2.
Proof.
  revert m. induction ps as [|kv ps IH]; intros m; simpl.
  - by rewrite app_nil_r.
  - unfold of_pairs in *. simpl. rewrite IH, Values_Add_default, filter_cons.
    rewrite <- app_assoc. by destruct (decide (kv.1 = k)).
Qed.

Lemma of_pairs_no_empty ps m : no_empty_values m → no_empty_values (of_pairs ps m).
Proof.
  revert m. induction ps as [|kv ps IH]; intros m Hm; [done|].
  apply IH. by apply Values_Add_no_empty.
Qed.

Lemma filter_pairs_of_keys (vals : string → list string) keys k :
  NoDup keys →
  (filter (λ kv : string * string, kv.1 = k) (k' ← keys; val ← vals k'; [(k', val)])).*2
  = if decide (k ∈ keys) then vals k else [].
Proof.
  induction keys as [|k' keys IH]; intros Hnd; [done|].
  apply NoDup_cons in Hnd as [Hnot Hnd].
  rewrite bind_cons, filter_app, fmap_app, IH by done.
  assert ((filter (λ kv : string * string, kv.1 = k) (val ← vals k'; [(k', val)])).*2
          = if decide (k' = k) then vals k' else []) as ->.
  { induction (vals k') as [|x xs IHx].
    - by destruct (decide (k' = k)).
    - rewrite bind_cons. cbn [app]. rewrite filter_cons. cbn [fst].
      destruct (decide (k' = k)); [rewrite fmap_cons|]; by rewrite IHx. }
  destruct (decide (k' = k)) as [->|Hne].
  - destruct (decide (k ∈ keys)); [done|].
    destruct (decide (k ∈ k :: keys)) as [_|H]; [apply app_nil_r|].
    exfalso. apply H. by left.
  - simpl. destruct (decide (k ∈ keys)) as [Hin|Hnin], (decide (k ∈ k' :: keys)) as [Hin'|Hnin'];
      try done.
    + exfalso. apply Hnin'. by right.
    + apply elem_of_cons in Hin' as [?|?]; congruence.
Qed.

(** Adding the pairs of a query one by one gives the query back. *)
Lemma of_pairs_query_pairs v : no_empty_values v → of_pairs (query_pairs v) ∅ = v.
Proof.
  intros Hv. apply no_empty_eq; [|done|].
  - apply of_pairs_no_empty. intros k. by rewrite lookup_empty.
  - intros k. rewrite of_pairs_default, lookup_empty. simpl.
    unfold query_pairs.
    rewrite (filter_pairs_of_keys (λ k, default [] (v !! k))) by apply sorted_keys_NoDup.
    destruct (decide (k ∈ sorted_keys v)) as [Hin|Hnin]; [done|].
    rewrite elem_of_sorted_keys in Hnin. destruct (v !! k); [|done].
    exfalso. apply Hnin. by eexists.
Qed.

Lemma ParseQuery_Encode v : no_empty_values v → ParseQuery (Values_Encode v) = (v, None).
Proof.
  intros Hv. unfold ParseQuery. rewrite Encode_pairs, parseQuery_pairs by done.
  by rewrite of_pairs_query_pairs.
Qed.

(** A query that [Encode] wrote is read back by [ParseQuery] as it was and
    with no error, whatever bytes its keys and values hold: [QueryUnescape]
    undoes [QueryEscape], an escaped key or value holds none of the
    separators [&], [=] and [;], and the turns [ParseQuery] gives its loop
    are enough for every query. *)
Theorem query_round_trip (v : Values) :
  no_empty_values v →
  ParseQuery (Values_Encode v) = (v, None)
  ∧ (∀ s, QueryUnescape (QueryEscape s) = (s, None))
  ∧ (∀ s, strings_Contains (QueryEscape s) "&" = false
          ∧ strings_Contains (QueryEscape s) "=" = false
          ∧ strings_Contains (QueryEscape s) ";" = false)
  ∧ (∀ turns query m err,
       String.length query ≤ turns →
       parseQuery turns m query err = parseQuery (String.length query) m query err).
Proof.
  intros Hv. split_and!.
  - by apply ParseQuery_Encode.
  - apply unescape_escape.
  - intros s. split_and!; by apply strings_Contains_false, escape_without.
  - apply parseQuery_turns.
Qed.

Lemma Encode_without sep v :
  query_char sep = false →
  Forall (λ c, c ≠ sep) (list_ascii_of_string (Values_Encode v)).
Proof.
  intros H. rewrite Encode_pairs.
  eapply Forall_impl.
  - apply concat_chars, Forall_fmap, Forall_forall. intros kv _. apply pair_text_chars.
  - simpl. intros c Hc ->. congruence.
Qed.

Lemma RawQuery_query prefix (v : Values) :
  strings_Contains prefix "?" = false → strings_Contains prefix "#" = false →
  RawQuery (prefix +:+ "?" +:+ Values_Encode v) = Values_Encode v.
Proof.
  intros Hq%strings_Contains_false Hf%strings_Contains_false. unfold RawQuery.
  rewrite strings_Cut_absent.
  - change ("?" +:+ Values_Encode v) with (String "?" (Values_Encode v)).
    by rewrite strings_Cut_present.
  - rewrite !chars_app. repeat apply Forall_app_2; [done|by repeat constructor|].
    by apply Encode_without.
Qed.

Lemma buildURL_prefix c endpoint params :
  buildURL c endpoint params
  = (baseURL c +:+ endpoint) +:+ "?" +:+ Values_Encode (merge_params c (map_to_list params)).
Proof. unfold buildURL. by rewrite append_assoc. Qed.

Lemma Values_Get_default (v : Values) k :
  Values_Get v k = default "" (head (default [] (v !! k))).
Proof. unfold Values_Get. by destruct (v !! k) as [[|]|]. Qed.

Lemma URL_Query_buildURL c endpoint (params : Values) :
  strings_Contains (baseURL c +:+ endpoint) "?" = false →
  strings_Contains (baseURL c +:+ endpoint) "#" = false →
  let v := merge_params c (map_to_list params) in
  let url := buildURL c endpoint params in
  RawQuery url = Values_Encode v
  ∧ ParseQuery (RawQuery url) = (v, None)
  ∧ URL_Query url = v
  ∧ Values_Get (URL_Query url) "t2maccount" = AccountID c
  ∧ Values_Get (URL_Query url) "t2musername" = Username c
  ∧ Values_Get (URL_Query url) "t2mpassword" = Password c
  ∧ Values_Get (URL_Query url) "t2mdevid" = DevID c
  ∧ (∀ k, credential_of c k = [] →
          default [] (URL_Query url !! k) = default [] (params !! k)
          ∧ Values_Get (URL_Query url) k = Values_Get params k).
Proof.
  intros Hq Hf v url.
  assert (RawQuery url = Values_Encode v) as Hraw.
  { subst url. rewrite buildURL_prefix. by apply RawQuery_query. }
  assert (ParseQuery (RawQuery url) = (v, None)) as Hparse.
  { rewrite Hraw. apply ParseQuery_Encode, merge_params_no_empty. }
  unfold URL_Query. rewrite Hparse. subst v. simpl.
  split_and!; try done;
    try (by rewrite Values_Get_default, merge_params_default).
  intros k Hk. rewrite !Values_Get_default, merge_params_default, Hk. done.
Qed.

(** What the receiver of a request reads from its URL. When the base URL
    and the endpoint hold no [?] and no [#], the query of the URL is the
    encoded merge, [URL.Query] reads back exactly the merged parameters with
    no error, [Get] of a credential key yields the client's credential even
    when the caller passed a parameter under that key, and [Get] of any
    other key yields what the caller passed. *)
Theorem URL_query_read_back c endpoint (params : Values) :
  strings_Contains (baseURL c +:+ endpoint) "?" = false →
  strings_Contains (baseURL c +:+ endpoint) "#" = false →
  let v := merge_params c (map_to_list params) in
  let url := buildURL c endpoint params in
  RawQuery url = Values_Encode v
  ∧ ParseQuery (RawQuery url) = (v, None)
  ∧ URL_Query url = v
  ∧ Values_Get (URL_Query url) "t2maccount" = AccountID c
  ∧ Values_Get (URL_Query url) "t2musername" = Username c
  ∧ Values_Get (URL_Query url) "t2mpassword" = Password c
  ∧ Values_Get (URL_Query url) "t2mdevid" = DevID c
  ∧ (∀ k, credential_of c k = [] →
          default [] (URL_Query url !! k) = default [] (params !! k)
          ∧ Values_Get (URL_Query url) k = Values_Get params k).
Proof. apply URL_Query_buildURL. Qed.

(** ** The URL determines the request *)

Lemma strconv_Itoa_inj i j : strconv_Itoa i = strconv_Itoa j → i = j.
Proof.
  unfold strconv_Itoa. intros H. apply DecimalZ.to_int_inj.
  assert (∀ z, Z.to_int z ≠ Decimal.Pos Decimal.Nil ∧ Z.to_int z ≠ Decimal.Neg Decimal.Nil)
    as Hnz.
  { intros z. destruct z as [|p|p]; simpl; split; try discriminate;
      intros [= E]; by apply (DecimalPos.Unsigned.to_uint_nonnil p). }
  pose proof (NilZero.isi (Z.to_int i) (proj1 (Hnz i)) (proj2 (Hnz i))) as Hi.
  pose proof (NilZero.isi (Z.to_int j) (proj1 (Hnz j)) (proj2 (Hnz j))) as Hj.
  rewrite H in Hi. congruence.
Qed.

Lemma endpoint_of_no_question op : strings_Contains (endpoint_of op) "?" = false.
Proof. by destruct op. Qed.

Lemma Encode_injective (v1 v2 : Values) :
  no_empty_values v1 → no_empty_values v2 → Values_Encode v1 = Values_Encode v2 → v1 = v2.
Proof.
  intros H1 H2 E. pose proof (ParseQuery_Encode v1 H1) as P1.
  rewrite E, ParseQuery_Encode in P1 by done. congruence.
Qed.

Lemma merge_params_injective c (p1 p2 : Values) :
  no_empty_values p1 → no_empty_values p2 →
  merge_params c (map_to_list p1) = merge_params c (map_to_list p2) → p1 = p2.
Proof.
  intros H1 H2 E. apply no_empty_eq; try done. intros k.
  pose proof (merge_params_default c p1 k) as D1.
  rewrite E, merge_params_default in D1. by apply app_inv_head in D1.
Qed.

Lemma buildURL_injective c ep1 ep2 (p1 p2 : Values) :
  strings_Contains ep1 "?" = false → strings_Contains ep2 "?" = false →
  no_empty_values p1 → no_empty_values p2 →
  buildURL c ep1 p1 = buildURL c ep2 p2 → ep1 = ep2 ∧ p1 = p2.
Proof.
  intros Hq1%strings_Contains_false Hq2%strings_Contains_false H1 H2 E. unfold buildURL in E.
  apply app_string_inv_head in E.
  apply (f_equal (λ s, strings_Cut s "?")) in E.
  change ("?" +:+ ?s) with (String "?" s) in E.
  rewrite !strings_Cut_present in E by done.
  injection E as -> E. split; [done|].
  apply Encode_injective in E; try apply merge_params_no_empty.
  by apply (merge_params_injective c).
Qed.

Lemma GetData_query_fmap (params : gmap string string) :
  GetData_query (map_to_list params) = (λ x, [x]) <$> params.
Proof.
  rewrite GetData_query_add_values.
  apply no_empty_eq.
  - apply foldl_add_values_no_empty. intros k. by rewrite lookup_empty.
  - intros k. rewrite lookup_fmap. by destruct (params !! k).
  - intros k. rewrite foldl_add_values_default, lookup_empty. simpl.
    apply extras_of_map. by rewrite map_to_list_fmap.
Qed.

Lemma SyncData_query_no_empty l ct : no_empty_values (SyncData_query l ct).
Proof.
  intros k. rewrite SyncData_query_lookup. repeat case_decide; try done; by destruct ct.
Qed.

Lemma query_of_no_empty op : no_empty_values (query_of op).
Proof.
  destruct op; simpl; try apply SyncData_query_no_empty;
    try (apply Values_Add_no_empty); try (intros k; by rewrite lookup_empty).
  rewrite GetData_query_fmap. intros k. rewrite lookup_fmap. by destruct (params !! k).
Qed.

(** The URL of a request tells which request it is: two operations of a
    client whose URLs are equal have the same endpoint and the same query,
    so two identifiers, two names, two parameter maps or two
    pairs of [SyncData] arguments that differ give URLs that differ. *)
Theorem URL_determines_request c :
  (∀ op1 op2,
     buildURL c (endpoint_of op1) (query_of op1) = buildURL c (endpoint_of op2) (query_of op2) →
     endpoint_of op1 = endpoint_of op2 ∧ query_of op1 = query_of op2)
  ∧ (∀ id1 id2,
       buildURL c "getewon" (query_of (OpGetEwonByID id1))
       = buildURL c "getewon" (query_of (OpGetEwonByID id2)) → id1 = id2)
  ∧ (∀ name1 name2,
       buildURL c "getewon" (query_of (OpGetEwonByName name1))
       = buildURL c "getewon" (query_of (OpGetEwonByName name2)) → name1 = name2)
  ∧ (∀ params1 params2,
       buildURL c "getdata" (query_of (OpGetData params1))
       = buildURL c "getdata" (query_of (OpGetData params2)) → params1 = params2)
  ∧ (∀ l1 ct1 l2 ct2,
       buildURL c "syncdata" (query_of (OpSyncData l1 ct1))
       = buildURL c "syncdata" (query_of (OpSyncData l2 ct2)) → l1 = l2 ∧ ct1 = ct2)
  ∧ (∀ endpoint1 endpoint2 (params1 params2 : Values),
       strings_Contains endpoint1 "?" = false → strings_Contains endpoint2 "?" = false →
       no_empty_values params1 → no_empty_values params2 →
       buildURL c endpoint1 params1 = buildURL c endpoint2 params2 →
       endpoint1 = endpoint2 ∧ params1 = params2).
Proof.
  assert (∀ op1 op2,
     buildURL c (endpoint_of op1) (query_of op1) = buildURL c (endpoint_of op2) (query_of op2) →
     endpoint_of op1 = endpoint_of op2 ∧ query_of op1 = query_of op2) as Hgen.
  { intros op1 op2. apply buildURL_injective;
      auto using endpoint_of_no_question, query_of_no_empty. }
  split_and!; [exact Hgen|..].
  - intros id1 id2 [_ E]%(Hgen (OpGetEwonByID id1) (OpGetEwonByID id2)).
    simpl in E. rewrite !Values_Add_empty in E.
    apply (f_equal (.!! "id")) in E. rewrite !lookup_singleton_eq in E.
    injection E as E. by apply strconv_Itoa_inj.
  - intros n1 n2 [_ E]%(Hgen (OpGetEwonByName n1) (OpGetEwonByName n2)).
    simpl in E. rewrite !Values_Add_empty in E.
    apply (f_equal (.!! "name")) in E. rewrite !lookup_singleton_eq in E. congruence.
  - intros p1 p2 [_ E]%(Hgen (OpGetData p1) (OpGetData p2)).
    simpl in E. rewrite !GetData_query_fmap in E.
    apply map_eq. intros k. apply (f_equal (.!! k)) in E. rewrite !lookup_fmap in E.
    destruct (p1 !! k), (p2 !! k); simpl in E; congruence.
  - intros l1 ct1 l2 ct2 [_ E]%(Hgen (OpSyncData l1 ct1) (OpSyncData l2 ct2)).
    simpl in E. split.
    + apply (f_equal (.!! "lastTransactionId")) in E.
      rewrite !SyncData_query_lookup in E. simpl in E.
      repeat case_decide; congruence.
    + apply (f_equal (.!! "createTransaction")) in E.
      rewrite !SyncData_query_lookup in E. simpl in E.
      destruct ct1, ct2; congruence.
  - intros. by apply (buildURL_injective c).
Qed.

(** ** What a success means, and when an operation panics *)

Section Outcomes.

Variable time_Parse : string → option Time.
Variable url_Parse : string → option error.

(** An operation returns no error only if the URL was accepted, the
    transport answered the one request with status 200 and a JSON document,
    and the whole document was decoded with no error saved and none
    aborting; what it returns is then made of the decoded value, and the
    body is left in the world, open. *)
Theorem success_means_200_and_decoded op c w r w' :
  run time_Parse url_Parse op c w = (Returns (r, None), w') →
  ∃ h j v,
    Client_http c = Some h
    ∧ url_Parse (buildURL c (endpoint_of op) (query_of op)) = None
    ∧ Transport h (request_of c (endpoint_of op) (query_of op)) = DoResponse 200 (Document j)
    ∧ decode time_Parse j (result_type op) (zero (result_type op)) None = (v, None, None)
    ∧ (r, None) = finish op (v, None)
    ∧ w' = respond w (request_of c (endpoint_of op) (query_of op)) (Document j) false.
Proof.
  rewrite run_cases, Request_cases.
  destruct (url_Parse _) as [e|] eqn:Hu; [done|].
  destruct (Client_http c) as [h|] eqn:Hh; [|done]. cbn zeta.
  destruct (Transport h _) as [st p|[[st p]|] e] eqn:Ht; try done.
  destruct (Z.eqb_spec st 200) as [->|_]; [|done].
  unfold decode_body. cbn [Body]. rewrite Decode_fresh.
  destruct p as [j|e]; simpl.
  - destruct (decode time_Parse j _ _ None) as [[v s] a] eqn:Hd.
    intros H. exists h, j, v.
    assert (s = None ∧ a = None) as [-> ->].
    { destruct op, a, s; simpl in H; try done;
        unfold slice_result in H; simpl in H;
        destruct (default _ _) as [| | | | | |[]|]; done. }
    split_and!; try done; [|congruence].
    destruct op; simpl in *; congruence.
  - intros H. exfalso. destruct op; simpl in H; try done.
Qed.

(** [New] accepts a nil [http.Client]: given four credentials that are not
    empty it returns a client and no error. Every operation of that client,
    and [Request], panics at [c.Client.Do] once the URL has been accepted,
    and nothing has been handed to the transport by then; when the URL is
    rejected, the error of the URL is returned and there is no panic. *)
Theorem nil_http_client_panics accountID username password developerID :
  accountID ≠ "" → username ≠ "" → password ≠ "" → developerID ≠ "" →
  ∃ c,
    New None accountID username password developerID = (Some c, None)
    ∧ Client_http c = None
    ∧ (∀ op w,
         url_Parse (buildURL c (endpoint_of op) (query_of op)) = None →
         run time_Parse url_Parse op c w = (Panics, w))
    ∧ (∀ endpoint params w,
         url_Parse (buildURL c endpoint params) = None →
         Request time_Parse url_Parse c endpoint params w = (Panics, w))
    ∧ (∀ op w e,
         url_Parse (buildURL c (endpoint_of op) (query_of op)) = Some e →
         run time_Parse url_Parse op c w = (Returns (None, Some e), w)).
Proof.
  intros Ha Hu Hp Hd. eexists. split_and!.
  - unfold New. apply is_empty_false in Ha, Hu, Hp, Hd. by rewrite Ha, Hu, Hp, Hd.
  - reflexivity.
  - intros op w Hurl. by rewrite run_cases, Request_cases, Hurl.
  - intros endpoint params w Hurl. by rewrite Request_cases, Hurl.
  - intros op w e Hurl. by rewrite run_cases, Request_cases, Hurl.
Qed.

End Outcomes.

(** ** Members the decoder does not read *)

Lemma known_part_eq j t :
  known_part j t =
  match t with
  | TPtr t' => known_part j t'
  | TSlice et =>
      match j with
      | JArray elems => JArray (map (λ e, known_part e et) elems)
      | _ => j
      end
  | TStruct fields =>
      match j with
      | JObject members => JObject (known_members fields members)
      | _ => j
      end
  | _ => j
  end.
Proof.
  destruct j, t; try reflexivity. simpl. f_equal. unfold known_members.
  induction members as [|[k x] ms IH]; simpl; [done|].
  destruct (find_field fields k); simpl; by rewrite IH.
Qed.

Lemma known_part_null j t : known_part j t = JNull ↔ j = JNull.
Proof.
  induction t as [| | | | |t IH|t IH|fs]; rewrite known_part_eq; try done;
    destruct j; done.
Qed.

Lemma known_members_app fields m1 m2 :
  known_members fields (m1 ++ m2) = known_members fields m1 ++ known_members fields m2.
Proof. apply omap_app. Qed.

Lemma known_members_known fields members kv :
  kv ∈ known_members fields members → is_Some (find_field fields kv.1).
Proof.
  unfold known_members. rewrite list_elem_of_omap. intros ([k x] & _ & H). simpl in H.
  destruct (find_field fields k) as [f|] eqn:Hf; [|done].
  injection H as <-. simpl. by rewrite Hf.
Qed.

Section Known.

Variable time_Parse : string → option Time.
Variable url_Parse : string → option error.

Lemma decode_elems_known dec et elems backing saved :
  Forall (λ e, ∀ t v s, dec (known_part e t) t v s = dec e t v s) elems →
  decode_elems dec et (map (λ e, known_part e et) elems) backing saved
  = decode_elems dec et elems backing saved.
Proof.
  intros H. revert backing saved.
  induction H as [|e elems He _ IH]; intros backing saved; [done|].
  simpl. rewrite He. destruct (dec e et _ saved) as [[x s] [a|]]; [done|]. by rewrite IH.
Qed.

Lemma decode_members_known dec fields members v saved :
  Forall (λ kv : string * JSON, ∀ t v s, dec (known_part kv.2 t) t v s = dec kv.2 t v s)
    members →
  decode_members dec fields (known_members fields members) v saved
  = decode_members dec fields members v saved.
Proof.
  intros H. revert v saved.
  induction H as [|[k x] members Hx _ IH]; intros v saved; [done|].
  unfold known_members in *. simpl.
  destruct (find_field fields k) as [f|] eqn:Hf; simpl; [|apply IH].
  simpl in Hx. rewrite Hf, Hx. destruct (dec x f.2 _ saved) as [[y s] [a|]]; [done|]. apply IH.
Qed.

Lemma decode_ptr_known j t :
  (∀ v s, decode time_Parse (known_part j t) t v s = decode time_Parse j t v s) →
  ∀ v s, decode time_Parse (known_part j (TPtr t)) (TPtr t) v s
         = decode time_Parse j (TPtr t) v s.
Proof.
  intros H v s. rewrite known_part_eq, (decode_eq _ (known_part j t) (TPtr t)), H.
  rewrite (decode_eq _ j (TPtr t)).
  pose proof (known_part_null j t) as Hn.
  destruct (known_part j t); [by rewrite (proj1 Hn eq_refl)|..];
    destruct j; try done; by destruct Hn as [_ Hn]; specialize (Hn eq_refl).
Qed.

Lemma decode_known_part j t v saved :
  decode time_Parse (known_part j t) t v saved = decode time_Parse j t v saved.
Proof.
  revert t v saved.
  induction j as [|b|n|s|l IHl|m IHm] using JSON_nested_ind;
    intros t; induction t as [| | | | |t IHt|t IHt|fs]; intros v saved;
    try (by apply decode_ptr_known);
    rewrite known_part_eq; try reflexivity.
  - rewrite !(decode_eq _ _ (TSlice t)). unfold decode_array.
    destruct (match v with VSlice (Some s) => s | _ => ([], 0%nat) end) as [backing len].
    rewrite decode_elems_known by done. by destruct l.
  - rewrite !(decode_eq _ _ (TStruct fs)). by apply decode_members_known.
Qed.

(** A member of an object whose key names no field of the struct the
    object is decoded into has no effect, at any depth of the document: the
    value, the saved error and the aborting error are those of the document
    without such members, so a member with such a key can be dropped
    anywhere, and what an operation returns for a 200 response depends only
    on the members it knows. *)
Theorem unknown_members_ignored j t v saved :
  decode time_Parse (known_part j t) t v saved = decode time_Parse j t v saved
  ∧ json_Unmarshal time_Parse (Document (known_part j t)) t v
    = json_Unmarshal time_Parse (Document j) t v
  ∧ (∀ fields members,
       known_part (JObject members) (TStruct fields) = JObject (known_members fields members)
       ∧ ∀ kv, kv ∈ known_members fields members → is_Some (find_field fields kv.1))
  ∧ (∀ fields m1 key x m2,
       find_field fields key = None →
       decode time_Parse (JObject (m1 ++ (key, x) :: m2)) (TStruct fields) v saved
       = decode time_Parse (JObject (m1 ++ m2)) (TStruct fields) v saved)
  ∧ (∀ op c h w,
       t = result_type op →
       Client_http c = Some h →
       url_Parse (buildURL c (endpoint_of op) (query_of op)) = None →
       Transport h (request_of c (endpoint_of op) (query_of op)) = DoResponse 200 (Document j) →
       (run time_Parse url_Parse op c w).1
       = Returns (finish op (json_Unmarshal time_Parse (Document (known_part j t)) t (zero t)))).
Proof.
  assert (∀ v, json_Unmarshal time_Parse (Document (known_part j t)) t v
               = json_Unmarshal time_Parse (Document j) t v) as Hun.
  { intros v0. unfold json_Unmarshal. by rewrite decode_known_part. }
  split_and!.
  - apply decode_known_part.
  - apply Hun.
  - intros fields members. split; [by rewrite known_part_eq|apply known_members_known].
  - intros fields m1 key x m2 Hkey.
    rewrite <- (decode_known_part (JObject (m1 ++ (key, x) :: m2))).
    rewrite <- (decode_known_part (JObject (m1 ++ m2))).
    rewrite !(known_part_eq (JObject _) (TStruct fields)), !known_members_app.
    unfold known_members at 2. simpl. by rewrite Hkey.
  - intros op c h w -> Hh Hu Ht.
    by rewrite (run_response _ _ op c h w 200 (Document j)), Hun.
Qed.

End Known.

(** ** The errors of the decoder *)

Lemma saveError_type saved d t :
  none_or is_type_error saved = true →
  none_or is_type_error (saveError saved (UnmarshalTypeError d t)) = true.
Proof. by destruct saved. Qed.

Lemma literalStore_classified j t v saved :
  none_or is_type_error saved = true →
  none_or is_type_error (literalStore j t v saved).1.2 = true
  ∧ none_or is_time_error (literalStore j t v saved).2 = true.
Proof.
  intros H. destruct j as [|b|[z|m e]|s|l|m], t; simpl; try done;
    try (destruct (int64_ok _)); try (destruct (float64_ok _ _)); simpl;
    try done; split; try done; by apply saveError_type.
Qed.

Section Classified.

Variable time_Parse : string → option Time.
Variable url_Parse : string → option error.

Lemma Time_UnmarshalJSON_classified j v :
  none_or is_time_error (Time_UnmarshalJSON time_Parse j v).2 = true.
Proof. destruct j; simpl; try done. by destruct (time_Parse s). Qed.

Lemma decode_elems_classified dec et elems backing saved :
  Forall (classified_at dec) elems → none_or is_type_error saved = true →
  none_or is_type_error (decode_elems dec et elems backing saved).1.2 = true
  ∧ none_or is_time_error (decode_elems dec et elems backing saved).2 = true.
Proof.
  intros Hall. revert backing saved.
  induction Hall as [|j elems Hj _ IH]; intros backing saved Hs; [done|].
  simpl. specialize (Hj et (default (zero et) (head backing)) saved Hs).
  destruct (dec j et _ saved) as [[x s] a]. simpl in Hj. destruct Hj as [Hs' Ha].
  destruct a as [e|]; [done|].
  specialize (IH (tail backing) s Hs').
  by destruct (decode_elems dec et elems (tail backing) s) as [[xs s'] a'].
Qed.

Lemma decode_array_classified dec et elems v saved :
  Forall (classified_at dec) elems → none_or is_type_error saved = true →
  none_or is_type_error (decode_array dec et elems v saved).1.2 = true
  ∧ none_or is_time_error (decode_array dec et elems v saved).2 = true.
Proof.
  intros Hall Hs. unfold decode_array.
  destruct (match v with VSlice (Some s) => s | _ => ([], 0%nat) end) as [backing len].
  pose proof (decode_elems_classified dec et elems backing saved Hall Hs) as H.
  destruct (decode_elems dec et elems backing saved) as [[xs s] [e|]]; [done|].
  by destruct elems.
Qed.

Lemma decode_members_classified dec fields members v saved :
  Forall (λ kv : string * JSON, classified_at dec kv.2) members →
  none_or is_type_error saved = true →
  none_or is_type_error (decode_members dec fields members v saved).1.2 = true
  ∧ none_or is_time_error (decode_members dec fields members v saved).2 = true.
Proof.
  intros Hall. revert v saved.
  induction Hall as [|[k j] members Hj _ IH]; intros v saved Hs; [done|].
  simpl. destruct (find_field fields k) as [f|]; [|by apply IH].
  specialize (Hj f.2 (default (zero f.2) (get_field f.1.1 v)) saved Hs). simpl in Hj.
  destruct (dec j f.2 _ saved) as [[x s] a]. simpl in Hj. destruct Hj as [Hs' Ha].
  destruct a as [e|]; [done|]. by apply IH.
Qed.

Lemma decode_classified j : classified_at (decode time_Parse) j.
Proof.
  induction j as [|b|n|s|l IHl|m IHm] using JSON_nested_ind;
    intros t; induction t as [| | | | |t IHt|t IHt|fs]; intros v saved Hs;
    rewrite decode_eq; try (by apply literalStore_classified);
    try (by match goal with |- context [Time_UnmarshalJSON _ ?j ?v] =>
              pose proof (Time_UnmarshalJSON_classified j v);
              destruct (Time_UnmarshalJSON time_Parse j v) end);
    try done.
  all: try (match goal with |- context [decode time_Parse ?j ?t' ?x ?s] =>
      specialize (IHt x s Hs);
      destruct (decode time_Parse j t' x s) as [[x' s'] a]; exact IHt
    end).
  - by apply decode_array_classified.
  - by apply decode_members_classified.
Qed.

(** The error an operation returns for a 200 response that holds a JSON
    document is a [json.UnmarshalTypeError] or an error of
    [Time.UnmarshalJSON], never an error whose text the package decides;
    inside the decoder the first kind is saved while decoding goes on and
    only the second kind aborts. *)
Theorem errors_of_a_200_response op c h w j r e w' :
  Client_http c = Some h →
  url_Parse (buildURL c (endpoint_of op) (query_of op)) = None →
  Transport h (request_of c (endpoint_of op) (query_of op)) = DoResponse 200 (Document j) →
  run time_Parse url_Parse op c w = (Returns (r, Some e), w') →
  (is_type_error e = true ∨ is_time_error e = true)
  ∧ Error e = None
  ∧ (∀ t v, none_or is_type_error (decode time_Parse j t v None).1.2 = true
            ∧ none_or is_time_error (decode time_Parse j t v None).2 = true).
Proof.
  intros Hh Hu Ht. rewrite (run_response _ _ op c h w 200 (Document j)) by done.
  cbn [Z.eqb Pos.eqb json_Unmarshal].
  pose proof (decode_classified j (result_type op) (zero (result_type op)) None eq_refl)
    as [Hs Ha].
  destruct (decode time_Parse j _ _ None) as [[v s] a]. simpl in Hs, Ha.
  intros H.
  assert (e = default e a ∧ (a = None → s = Some e)) as [He Hes].
  { destruct op, a; simpl in H; unfold slice_result in H; simpl in H;
      try destruct (default _ _) as [| | | | | |[]|]; simplify_eq; done. }
  assert (is_type_error e = true ∨ is_time_error e = true) as Hclass.
  { destruct a as [e'|]; simpl in *; [right; congruence|].
    left. specialize (Hes eq_refl). by subst. }
  split_and!; [done| |intros t v0; by apply decode_classified].
  destruct Hclass as [Hc|Hc]; destruct e as [| | |[]]; done.
Qed.

End Classified.

(** ** Arrays and slices *)




(** ** Bodies with nothing to decode, and members that are absent *)

Lemma result_type_struct op : result_type op = TStruct (struct_fields (result_type op)).
Proof. by destruct op. Qed.

Section Degenerate.

Variable time_Parse : string → option Time.
Variable url_Parse : string → option error.

Lemma decode_null t saved : decode time_Parse JNull t (zero t) saved = (zero t, saved, None).
Proof. rewrite decode_eq. by destruct t. Qed.

Lemma decode_object_unknown fields members saved :
  Forall (λ kv : string * JSON, find_field fields kv.1 = None) members →
  decode time_Parse (JObject members) (TStruct fields) (zero (TStruct fields)) saved
  = (zero (TStruct fields), saved, None).
Proof. intros H. rewrite decode_eq. simpl. by rewrite decode_members_unknown. Qed.

(** A 200 response with nothing to decode. When the body is [null], or an
    object none of whose members names a field, the operation returns the
    zero value of its result type and no error; when the body is one the
    decoder rejects before it stores anything, such as an empty body, the
    operation returns the zero value together with the decoder's error.
    [GetEwons], which returns a slice, returns nil in each of these
    cases. *)
Theorem body_with_nothing_to_decode op c h w payload :
  Client_http c = Some h →
  url_Parse (buildURL c (endpoint_of op) (query_of op)) = None →
  Transport h (request_of c (endpoint_of op) (query_of op)) = DoResponse 200 payload →
  let nothing := match op with
                 | OpGetEwons => None
                 | _ => Some (zero (result_type op))
                 end in
  (payload = Document JNull →
   (run time_Parse url_Parse op c w).1 = Returns (nothing, None))
  ∧ (∀ members,
       payload = Document (JObject members) →
       Forall (λ kv : string * JSON, find_field (struct_fields (result_type op)) kv.1 = None)
         members →
       (run time_Parse url_Parse op c w).1 = Returns (nothing, None))
  ∧ (∀ e, payload = Malformed e →
          (run time_Parse url_Parse op c w).1 = Returns (nothing, Some e)).
Proof.
  intros Hh Hu Ht nothing. rewrite (run_response _ _ op c h w 200 payload) by done.
  cbn [Z.eqb Pos.eqb]. subst nothing. split_and!.
  - intros ->. unfold json_Unmarshal. rewrite decode_null. by destruct op.
  - intros members -> Hall. unfold json_Unmarshal.
    rewrite (result_type_struct op), decode_object_unknown by done.
    rewrite <- (result_type_struct op). by destruct op.
  - intros e ->. unfold json_Unmarshal. by destruct op.
Qed.

(** A field in which no member of the document is stored keeps its zero
    value in what the operation returns: members are optional, and an absent
    one is no error by itself. When no member is stored in the list of
    [GetEwons], [GetEwons] returns nil. *)
Theorem absent_member_keeps_zero op c h w members name :
  Client_http c = Some h →
  url_Parse (buildURL c (endpoint_of op) (query_of op)) = None →
  Transport h (request_of c (endpoint_of op) (query_of op))
  = DoResponse 200 (Document (JObject members)) →
  mentions (struct_fields (result_type op)) name members = false →
  ∃ v e,
    json_Unmarshal time_Parse (Document (JObject members)) (result_type op)
      (zero (result_type op)) = (v, e)
    ∧ (run time_Parse url_Parse op c w).1 = Returns (finish op (v, e))
    ∧ get_field name v = get_field name (zero (result_type op))
    ∧ (op = OpGetEwons → name = "Ewons" →
       (run time_Parse url_Parse op c w).1 = Returns (None, e)).
Proof.
  intros Hh Hu Ht Hm. rewrite (run_response _ _ op c h w 200 _) by done.
  cbn [Z.eqb Pos.eqb].
  destruct (json_Unmarshal _ _ _ _) as [v e] eqn:E. exists v, e.
  assert (get_field name v = get_field name (zero (result_type op))) as Hget.
  { unfold json_Unmarshal in E. rewrite (result_type_struct op) in E |- *.
    pose proof (decode_object_absent time_Parse _ members None name Hm) as H.
    destruct (decode time_Parse _ _ _ None) as [[v' s] a]. simpl in H.
    injection E as <- _. done. }
  split_and!; try done.
  intros -> ->. simpl in *. by rewrite Hget.
Qed.

End Degenerate.

(** ** Keys and fields *)

Lemma find_field_folds fields key f :
  find_field fields key = Some f → foldName f.1.2 = foldName key.
Proof.
  unfold find_field. destruct (List.find _ fields) as [g|] eqn:E.
  - intros [= <-]. apply List.find_some in E as [_ E]. apply String.eqb_eq in E. by rewrite E.
  - intros H. apply List.find_some in H as [_ H]. by apply String.eqb_eq in H.
Qed.

Lemma find_field_some fields key (f : Field) :
  f ∈ fields → foldName key = foldName f.1.2 → is_Some (find_field fields key).
Proof.
  intros Hin Hfold. unfold find_field.
  destruct (List.find _ fields) as [g|] eqn:E; [by eexists|].
  destruct (List.find (λ f0 : Field, String.eqb (foldName f0.1.2) (foldName key)) fields)
    as [g|] eqn:E'; [by eexists|].
  exfalso. pose proof (List.find_none _ _ E' f (proj1 (list_elem_of_In _ _) Hin)) as H.
  simpl in H. rewrite Hfold, String.eqb_refl in H. done.
Qed.

Lemma NoDup_fmap_inj {A B} (g : A → B) (l : list A) x y :
  NoDup (g <$> l) → x ∈ l → y ∈ l → g x = g y → x = y.
Proof.
  induction l as [|a l IH]; intros Hnd Hx Hy E; [by apply elem_of_nil in Hx|].
  rewrite fmap_cons in Hnd. apply NoDup_cons in Hnd as [Hnot Hnd].
  apply elem_of_cons in Hx as [->|Hx], Hy as [->|Hy]; try done.
  - exfalso. apply Hnot. rewrite E. by apply list_elem_of_fmap_2.
  - exfalso. apply Hnot. rewrite <- E. by apply list_elem_of_fmap_2.
  - by apply IH.
Qed.

Lemma find_field_unambiguous fields key (f : Field) :
  NoDup (foldName <$> fields.*1.*2) → f ∈ fields → foldName key = foldName f.1.2 →
  find_field fields key = Some f.
Proof.
  intros Hnd Hin Hfold.
  destruct (find_field_some fields key f Hin Hfold) as [g Hg].
  rewrite Hg. f_equal.
  pose proof (find_field_folds _ _ _ Hg) as Hgf. apply find_field_In in Hg.
  rewrite <- !list_fmap_compose in Hnd.
  apply (NoDup_fmap_inj _ fields g f Hnd Hg Hin). simpl. congruence.
Qed.

(** The key of a member is matched to the JSON name of a field without
    regard to letter case, and in the types of [types.go] without
    ambiguity: in every struct the package decodes into, at every depth, the
    names are distinct under case folding, so a key that folds to the name
    of a field is stored in that field and in no other, and a key is never
    stored in a field whose name it does not fold to. The struct of
    [GetEwons], whose fields have no tag, takes its list from [ewons] in any
    letter case. *)
Theorem keys_matched_without_case :
  Forall (λ t, fold_distinct t = true) response_types
  ∧ (∀ op, result_type op ∈ response_types)
  ∧ (∀ fields key (f : Field),
       NoDup (foldName <$> fields.*1.*2) → f ∈ fields → foldName key = foldName f.1.2 →
       find_field fields key = Some f)
  ∧ (∀ fields key f, find_field fields key = Some f → foldName f.1.2 = foldName key)
  ∧ (∀ key, foldName key = "EWONS" →
            find_field (struct_fields GetEwons_es) key = Some (field "Ewons" "Ewons" Ewons)).
Proof.
  split_and!.
  - repeat constructor.
  - intros op. unfold response_types. destruct op; set_solver.
  - apply find_field_unambiguous.
  - apply find_field_folds.
  - intros key Hkey. apply find_field_unambiguous; [|set_solver|done].
    apply (bool_decide_eq_true_1 _). vm_compute. reflexivity.
Qed.

(** ** After an abort *)

Lemma decode_members_abort dec fields m1 m2 v saved v' saved' e :
  decode_members dec fields m1 v saved = (v', saved', Some e) →
  decode_members dec fields (m1 ++ m2) v saved = (v', saved', Some e).
Proof.
  revert v saved. induction m1 as [|[k j] m1 IH]; intros v saved; simpl; [done|].
  destruct (find_field fields k) as [f|]; [|apply IH].
  destruct (dec j f.2 _ saved) as [[x s] [a|]]; [done|]. apply IH.
Qed.

Lemma decode_elems_abort dec et l1 l2 backing saved xs saved' e :
  decode_elems dec et l1 backing saved = (xs, saved', Some e) →
  decode_elems dec et (l1 ++ l2) backing saved = (xs, saved', Some e).
Proof.
  revert backing saved xs. induction l1 as [|j l1 IH]; intros backing saved xs; simpl; [done|].
  destruct (dec j et _ saved) as [[x s] [a|]]; [done|].
  destruct (decode_elems dec et l1 (tail backing) s) as [[ys s'] a] eqn:E.
  intros [= <- <- ->]. by rewrite (IH _ _ _ E).
Qed.

Lemma decode_array_abort dec et l1 l2 v saved v' saved' e :
  decode_array dec et l1 v saved = (v', saved', Some e) →
  decode_array dec et (l1 ++ l2) v saved = (v', saved', Some e).
Proof.
  unfold decode_array.
  destruct (match v with VSlice (Some s) => s | _ => ([], 0%nat) end) as [backing len].
  destruct (decode_elems dec et l1 backing saved) as [[xs s] [a|]] eqn:E.
  - rewrite (decode_elems_abort _ _ _ l2 _ _ _ _ _ E). done.
  - by destruct l1.
Qed.

Section Abort.

Variable time_Parse : string → option Time.
Variable url_Parse : string → option error.

(** Once a timestamp has failed, decoding stops: the members of an object
    and the elements of an array that follow the failure are not decoded,
    whatever they are; the error of the timestamp is what the decoder
    reports, also when a type error was saved before it, and it is the
    error the operation returns, next to the value as it was when decoding
    stopped. *)
Theorem nothing_decoded_after_abort j t v v' saved' e :
  decode time_Parse j t v None = (v', saved', Some e) →
  json_Unmarshal time_Parse (Document j) t v = (v', Some e)
  ∧ is_time_error e = true
  ∧ (∀ fields m1 m2, j = JObject m1 → t = TStruct fields →
       decode time_Parse (JObject (m1 ++ m2)) t v None = (v', saved', Some e))
  ∧ (∀ et l1 l2, j = JArray l1 → t = TSlice et →
       decode time_Parse (JArray (l1 ++ l2)) t v None = (v', saved', Some e))
  ∧ (∀ op c h w,
       t = result_type op → v = zero t →
       Client_http c = Some h →
       url_Parse (buildURL c (endpoint_of op) (query_of op)) = None →
       Transport h (request_of c (endpoint_of op) (query_of op)) = DoResponse 200 (Document j) →
       (run time_Parse url_Parse op c w).1 = Returns (finish op (v', Some e))).
Proof.
  intros Hd. split_and!.
  - unfold json_Unmarshal. by rewrite Hd.
  - pose proof (decode_classified time_Parse j t v None eq_refl) as [_ H].
    by rewrite Hd in H.
  - intros fields m1 m2 -> ->. rewrite decode_eq in Hd |- *. by apply decode_members_abort.
  - intros et l1 l2 -> ->. rewrite decode_eq in Hd |- *. by apply decode_array_abort.
  - intros op c h w -> -> Hh Hu Ht.
    rewrite (run_response _ _ op c h w 200 (Document j)) by done.
    cbn [Z.eqb Pos.eqb json_Unmarshal]. by rewrite Hd.
Qed.

End Abort.

(** ** The [success] member *)

Lemma assoc_get_set_eq n x fs : assoc_get n (assoc_set n x fs) = Some x.
Proof.
  induction fs as [|[m y] fs IH]; simpl.
  - by rewrite String.eqb_refl.
  - destruct (String.eqb_spec m n) as [->|Hne]; simpl.
    + by rewrite String.eqb_refl.
    + by destruct (String.eqb_spec m n).
Qed.

Lemma same_but_set_flag name x1 x2 v1 v2 :
  same_but name v1 v2 → same_but name (set_field name x1 v1) (set_field name x2 v2).
Proof.
  intros (fs1 & fs2 & -> & -> & H). eexists _, _. split; [done|]. split; [done|].
  intros n Hn. rewrite !assoc_get_set_ne by done. by apply H.
Qed.

Lemma same_but_set name m x v1 v2 :
  same_but name v1 v2 → same_but name (set_field m x v1) (set_field m x v2).
Proof.
  intros (fs1 & fs2 & -> & -> & H). eexists _, _. split; [done|]. split; [done|].
  intros n Hn. destruct (decide (m = n)) as [->|Hne].
  - by rewrite !assoc_get_set_eq.
  - rewrite !assoc_get_set_ne by done. by apply H.
Qed.

Lemma same_but_get name m v1 v2 :
  same_but name v1 v2 → m ≠ name → get_field m v1 = get_field m v2.
Proof. intros (fs1 & fs2 & -> & -> & H) Hm. by apply H. Qed.

Lemma flag_member_key fields name b kv : (flag_member fields name b kv).1 = kv.1.
Proof.
  unfold flag_member. destruct (find_field fields kv.1) as [f|]; [|done].
  destruct kv.2; try done. by destruct (String.eqb f.1.1 name).
Qed.

Lemma literalStore_bool_flag j j' x1 x2 saved :
  (j' = j ∨ ∃ b b', j = JBool b ∧ j' = JBool b') →
  (literalStore j TBool x1 saved).1.2 = (literalStore j' TBool x2 saved).1.2
  ∧ (literalStore j TBool x1 saved).2 = (literalStore j' TBool x2 saved).2.
Proof. intros [->|(b & b' & -> & ->)]; [by destruct j as [| |[]| | |]|done]. Qed.

Lemma result_type_Success op (f : Field) :
  f ∈ struct_fields (result_type op) → f.1.1 = "Success" → f.2 = TBool.
Proof.
  destruct op; simpl; intros Hin;
    repeat (apply elem_of_cons in Hin as [->|Hin]; [done|]); by apply elem_of_nil in Hin.
Qed.

Lemma finish_snd op r : (finish op r).2 = r.2.
Proof.
  destruct op; simpl; try done. unfold slice_result.
  by destruct (default _ _) as [| | | | | |[]|].
Qed.

Section Flag.

Variable time_Parse : string → option Time.
Variable url_Parse : string → option error.

Lemma decode_members_flag fields name b members v1 v2 saved :
  (∀ f : Field, f ∈ fields → f.1.1 = name → f.2 = TBool) →
  same_but name v1 v2 →
  same_but name
    (decode_members (decode time_Parse) fields members v1 saved).1.1
    (decode_members (decode time_Parse) fields (map (flag_member fields name b) members)
       v2 saved).1.1
  ∧ (decode_members (decode time_Parse) fields members v1 saved).1.2
    = (decode_members (decode time_Parse) fields (map (flag_member fields name b) members)
         v2 saved).1.2
  ∧ (decode_members (decode time_Parse) fields members v1 saved).2
    = (decode_members (decode time_Parse) fields (map (flag_member fields name b) members)
         v2 saved).2.
Proof.
  intros Hbool. revert v1 v2 saved.
  induction members as [|[k j] members IH]; intros v1 v2 saved Hv; [done|].
  cbn [map]. pose proof (flag_member_key fields name b (k, j)) as Hkey.
  destruct (flag_member fields name b (k, j)) as [k' j'] eqn:Hfm. simpl in Hkey. subst k'.
  cbn [decode_members]. unfold flag_member in Hfm. cbn [fst snd] in Hfm.
  destruct (find_field fields k) as [f|] eqn:Hf.
  2: { by apply IH. }
  destruct (String.eqb_spec f.1.1 name) as [Hname|Hname].
  - pose proof (Hbool f (find_field_In _ _ _ Hf) Hname) as Ht. rewrite Ht.
    rewrite !(decode_eq _ _ TBool).
    assert (j' = j ∨ ∃ b b', j = JBool b ∧ j' = JBool b') as Hj.
    { destruct j; try (left; congruence). right. injection Hfm as <-. eauto. }
    match goal with |- context [literalStore j TBool ?x1 saved] =>
      match goal with |- context [literalStore j' TBool ?x2 saved] =>
        pose proof (literalStore_bool_flag j j' x1 x2 saved Hj) as [Hs Ha];
        assert ((literalStore j TBool x1 saved).2 = None) as Hnone
          by (by destruct j as [| |[]| | |]);
        destruct (literalStore j TBool x1 saved) as [[y1 s1] a1];
        destruct (literalStore j' TBool x2 saved) as [[y2 s2] a2]
      end end.
    simpl in Hs, Ha, Hnone. subst a1 s2 a2. rewrite Hname. apply IH.
    by apply same_but_set_flag.
  - assert (j' = j) as -> by (destruct j; congruence).
    rewrite (same_but_get name f.1.1 v1 v2 Hv Hname).
    destruct (decode time_Parse j f.2 _ saved) as [[x s] [a|]].
    + simpl. split; [|done]. by apply same_but_set.
    + apply IH. by apply same_but_set.
Qed.

(** No operation looks at what [success] says. For a 200 response whose
    document is an object, replacing every boolean stored in the field
    [Success] by any other boolean leaves the error of the operation as it
    was, and every other field of the value it returns; the list [GetEwons]
    returns is the same list. A document that says [success: false] under
    status 200 is decoded like one that says [true]. *)
Theorem success_flag_not_interpreted op c h w members b :
  Client_http c = Some h →
  url_Parse (buildURL c (endpoint_of op) (query_of op)) = None →
  Transport h (request_of c (endpoint_of op) (query_of op))
  = DoResponse 200 (Document (JObject members)) →
  ∃ r r' e,
    (run time_Parse url_Parse op c w).1 = Returns (r, e)
    ∧ finish op (json_Unmarshal time_Parse
                   (Document (JObject (map (flag_member (struct_fields (result_type op))
                                              "Success" b) members)))
                   (result_type op) (zero (result_type op))) = (r', e)
    ∧ (op = OpGetEwons → r' = r)
    ∧ (∀ x y name, r = Some x → r' = Some y → name ≠ "Success" →
                   op ≠ OpGetEwons → get_field name x = get_field name y).
Proof.
  intros Hh Hu Ht. rewrite (run_response _ _ op c h w 200 _) by done.
  cbn [Z.eqb Pos.eqb]. unfold json_Unmarshal.
  rewrite !(decode_eq _ (JObject _) (result_type op)).
  rewrite (result_type_struct op). cbn [zero].
  rewrite <- (result_type_struct op).
  pose proof (decode_members_flag (struct_fields (result_type op)) "Success" b members
                (VStruct (map (λ f : Field, (f.1.1, zero f.2)) (struct_fields (result_type op))))
                (VStruct (map (λ f : Field, (f.1.1, zero f.2)) (struct_fields (result_type op))))
                None (result_type_Success op)) as H.
  destruct H as (Hsame & Hs & Ha).
  { eexists _, _. by split_and!. }
  destruct (decode_members _ _ members _ None) as [[v1 s1] a1].
  destruct (decode_members _ _ (map _ members) _ None) as [[v2 s2] a2].
  simpl in Hsame, Hs, Ha. subst s2 a2.
  pose proof (same_but_get "Success" "Ewons" v1 v2 Hsame ltac:(done)) as HE.
  set (e := match a1 with Some e => Some e | None => s1 end).
  exists (finish op (v1, e)).1, (finish op (v2, e)).1, e.
  pose proof (finish_snd op (v1, e)) as E1. pose proof (finish_snd op (v2, e)) as E2.
  destruct (finish op (v1, e)) as [r1 e1] eqn:F1, (finish op (v2, e)) as [r2 e2] eqn:F2.
  simpl in E1, E2. subst e1 e2. cbn [fst snd]. split_and!; try done.
  - intros ->. simpl in F1, F2. rewrite HE in F1. congruence.
  - intros x y name -> -> Hn Hop.
    destruct op; try done; simpl in F1, F2; simplify_eq; by apply (same_but_get "Success").
Qed.

End Flag.

(** ** The error of a failure, and the requests of a new client *)

Lemma literalStore_no_abort j t v saved : (literalStore j t v saved).2 = None.
Proof.
  destruct j as [|b|[z|m e]|s|l|m], t; simpl; try done;
    try (destruct (int64_ok _)); try (destruct (float64_ok _ _)); done.
Qed.

Section Envelope.
Variable time_Parse : string → option Time.
Variable url_Parse : string → option error.

Lemma decode_elems_no_abort dec et elems backing saved :
  Forall (no_abort_at dec) elems → time_free et = true →
  (decode_elems dec et elems backing saved).2 = None.
Proof.
  intros Hall Het. revert backing saved.
  induction Hall as [|j elems Hj _ IH]; intros backing saved; [done|].
  simpl. specialize (Hj et (default (zero et) (head backing)) saved Het).
  destruct (dec j et _ saved) as [[x s] a]. simpl in Hj. subst a.
  specialize (IH (tail backing) s).
  by destruct (decode_elems dec et elems (tail backing) s) as [[xs s'] a'].
Qed.

Lemma decode_array_no_abort dec et elems v saved :
  Forall (no_abort_at dec) elems → time_free et = true →
  (decode_array dec et elems v saved).2 = None.
Proof.
  intros Hall Het. unfold decode_array.
  destruct (match v with VSlice (Some s) => s | _ => ([], 0%nat) end) as [backing len].
  pose proof (decode_elems_no_abort dec et elems backing saved Hall Het) as H.
  destruct (decode_elems dec et elems backing saved) as [[xs s] a]. simpl in H. subst a.
  by destruct elems.
Qed.

Lemma decode_members_no_abort dec fields members v saved :
  Forall (λ kv : string * JSON, no_abort_at dec kv.2) members →
  forallb (λ f : Field, time_free f.2) fields = true →
  (decode_members dec fields members v saved).2 = None.
Proof.
  intros Hall Hfs. revert v saved.
  induction Hall as [|[k j] members Hj _ IH]; intros v saved; [done|].
  simpl. destruct (find_field fields k) as [f|] eqn:Hf; [|by apply IH].
  assert (time_free f.2 = true) as Hfree.
  { rewrite forallb_forall in Hfs. apply (Hfs f), list_elem_of_In. by eapply find_field_In. }
  specialize (Hj f.2 (default (zero f.2) (get_field f.1.1 v)) saved Hfree). simpl in Hj.
  destruct (dec j f.2 _ saved) as [[x s] a]. simpl in Hj. subst a. by apply IH.
Qed.

Lemma decode_no_abort j : no_abort_at (decode time_Parse) j.
Proof.
  induction j as [|b|n|s|l IHl|m IHm] using JSON_nested_ind;
    intros t; induction t as [| | | | |t IHt|t IHt|fs]; intros v saved Hfree;
    rewrite decode_eq; try (by apply literalStore_no_abort); try done.
  all: try (simpl in Hfree;
            match goal with |- context [decode time_Parse ?j ?t' ?x ?s] =>
              specialize (IHt x s Hfree);
              destruct (decode time_Parse j t' x s) as [[x' s'] a]; exact IHt
            end).
  - by apply decode_array_no_abort.
  - by apply decode_members_no_abort.
Qed.

(** The error [Request] returns for a response with a status other than
    200 that holds a JSON document is a [json.UnmarshalTypeError], when a
    member does not fit its field of the envelope, or else the error
    [errors.New] makes from the message; the decoding of an envelope never
    aborts, since the envelope holds no timestamp. When the document is
    [null], or an object in which no member is stored in the message, that
    message is empty: the caller gets an error with no text. *)
Theorem error_of_a_non200_response c h w endpoint params status j :
  Client_http c = Some h →
  url_Parse (buildURL c endpoint params) = None →
  Transport h (request_of c endpoint params) = DoResponse status (Document j) →
  status ≠ 200%Z →
  ∃ e,
    (Request time_Parse url_Parse c endpoint params w).1 = Returns (None, Some e)
    ∧ (is_type_error e = true ∨ ∃ message, e = errors_New message)
    ∧ is_time_error e = false
    ∧ (j = JNull → e = errors_New "")
    ∧ (∀ members,
         j = JObject members →
         mentions (struct_fields errorResponse) "Message" members = false →
         is_type_error e = true ∨ e = errors_New "").
Proof.
  intros Hh Hu Ht Hst. exists (envelope_error time_Parse (Document j)).
  assert ((status =? 200)%Z = false) as Hne by (by apply Z.eqb_neq).
  split.
  { rewrite Request_cases, Hu, Hh. simpl. by rewrite Ht, Hne. }
  unfold envelope_error, envelope, json_Unmarshal.
  pose proof (decode_no_abort j errorResponse (zero errorResponse) None eq_refl) as Ha.
  pose proof (decode_classified time_Parse j errorResponse (zero errorResponse) None eq_refl)
    as [Hs _].
  pose proof (λ members, decode_object_absent time_Parse (struct_fields errorResponse)
                           members None "Message") as Habs.
  pose proof (decode_null time_Parse errorResponse None) as Hnull.
  destruct (decode time_Parse j errorResponse _ None) as [[er s] a] eqn:Hd.
  simpl in Ha, Hs. subst a.
  destruct s as [e|]; simpl in Hs.
  - split_and!; [by left|by destruct e as [| | |[]]| |by left].
    intros ->. rewrite Hnull in Hd. done.
  - split_and!; [right; by eexists|done| |].
    + intros ->. rewrite Hnull in Hd. by injection Hd as <-.
    + intros members -> Hm. right. specialize (Habs members Hm).
      change (TStruct (struct_fields errorResponse)) with errorResponse in Habs.
      rewrite Hd in Habs. simpl in Habs. by rewrite Habs.
Qed.

(** A client made by [New], used. Every operation of such a client hands
    the transport nothing or one [GET] request, whose URL is the default
    base URL, the endpoint of the operation, a question mark and the query;
    its only header is the default user agent; and what the receiver reads
    from the URL with [URL.Query] and [Get] is each of the four credentials
    [New] was given and, under every other key, the parameters of the
    operation. *)
Theorem New_client_requests h accountID username password developerID c op w :
  New h accountID username password developerID = (Some c, None) →
  wire (run time_Parse url_Parse op c w).2 = wire w
  ∨ ∃ req,
      wire (run time_Parse url_Parse op c w).2 = wire w ++ [req]
      ∧ Method req = "GET"
      ∧ URL req = "https://data.talk2m.com/" +:+ endpoint_of op +:+ "?" +:+ RawQuery (URL req)
      ∧ Header req = {[ "User-Agent" := ["go-ewon/dmweb 0.1"] ]}
      ∧ Values_Get (URL_Query (URL req)) "t2maccount" = accountID
      ∧ Values_Get (URL_Query (URL req)) "t2musername" = username
      ∧ Values_Get (URL_Query (URL req)) "t2mpassword" = password
      ∧ Values_Get (URL_Query (URL req)) "t2mdevid" = developerID
      ∧ (∀ k, credential_of c k = [] →
              default [] (URL_Query (URL req) !! k) = default [] (query_of op !! k)).
Proof.
  intros Hnew.
  assert (c = {| Client_http := h; AccountID := accountID; Username := username;
                 Password := password; DevID := developerID;
                 baseURL := DefaultBaseURL; userAgent := DefaultUserAgent |}) as Hc.
  { unfold New in Hnew. destruct (_ || _); congruence. }
  destruct (run_wire time_Parse url_Parse op c w) as [E|E]; [by left|right].
  eexists. split; [exact E|].
  pose proof (URL_Query_buildURL c (endpoint_of op) (query_of op)) as H.
  cbv zeta in H.
  destruct H as (Hraw & _ & _ & H1 & H2 & H3 & H4 & H5);
    [rewrite Hc; by destruct op|rewrite Hc; by destruct op|].
  cbn [request_of Method URL]. rewrite Hraw, H1, H2, H3, H4, request_of_header.
  split_and!; try done; try (by rewrite Hc).
  intros k Hk. by apply H5.
Qed.
End Envelope.

(** ** The claims on the data of the package's tests *)

(** C1 on the 401 response of the tests: [Request] and [GetStatus] fail
    with an error whose text is [Invalid credentials]. *)
Lemma non200_error_envelope_witness :
  ∃ e w',
    Request rfc3339_utc any_url
      (test_client (DoResponse 401 (Document invalid_credentials))) "getstatus" ∅ empty_world
    = (Returns (None, Some e), w')
    ∧ GetStatus rfc3339_utc any_url
        (test_client (DoResponse 401 (Document invalid_credentials))) empty_world
      = (Returns (None, Some e), w')
    ∧ Error e = Some "Invalid credentials".
Proof.
  destruct (non200_error_envelope rfc3339_utc any_url
              (test_client (DoResponse 401 (Document invalid_credentials)))
              {| Transport := λ _, DoResponse 401 (Document invalid_credentials) |}
              empty_world "getstatus" ∅ 401 (Document invalid_credentials)
              eq_refl eq_refl eq_refl ltac:(discriminate))
    as (e & w' & Hreq & Hop & He).
  exists e, w'. split; [exact Hreq|]. split; [exact (Hop OpGetStatus eq_refl eq_refl)|exact He].
Defined.

(** The same text reaches the caller of every operation. *)
Example invalid_credentials_every_operation op :
  (run rfc3339_utc any_url op
     (test_client (DoResponse 401 (Document invalid_credentials))) empty_world).1
  = Returns (None, Some (errors_New "Invalid credentials")).
Proof.
  by rewrite (run_response rfc3339_utc any_url op _
                {| Transport := λ _, DoResponse 401 (Document invalid_credentials) |}
                empty_world 401 (Document invalid_credentials)).
Qed.

(** C4 as stated fails: two envelopes with the codes 401 and 403 and the
    same message give the same error, so no function of the error yields
    the code. *)
Lemma error_code_not_preserved : ¬ code_preserved rfc3339_utc any_url.
Proof.
  intros [code_of H].
  pose proof (H (test_client (DoResponse 401 (Document (error_envelope 401 "Invalid credentials"))))
                _ empty_world "getstatus" ∅ 401%Z _ _ 401%Z _ _
                eq_refl eq_refl eq_refl ltac:(discriminate) eq_refl eq_refl eq_refl) as H1.
  pose proof (H (test_client (DoResponse 401 (Document (error_envelope 403 "Invalid credentials"))))
                _ empty_world "getstatus" ∅ 401%Z _ _ 403%Z _ _
                eq_refl eq_refl eq_refl ltac:(discriminate) eq_refl eq_refl eq_refl) as H2.
  vm_compute in H1, H2. rewrite H1 in H2. discriminate H2.
Qed.

(** C4, as amended, on the 404 response of [TestGetEwonByID]. *)
Lemma service_error_keeps_message_only_witness :
  (GetEwonByID rfc3339_utc any_url
     (test_client (DoResponse 404
        (Document (error_envelope 404 "No eWON found for id '987654'"))))
     987654 empty_world).1
  = Returns (None, Some (errors_New "No eWON found for id '987654'")).
Proof.
  exact (proj1 (proj2
    (service_error_keeps_message_only rfc3339_utc any_url
       (test_client (DoResponse 404
          (Document (error_envelope 404 "No eWON found for id '987654'"))))
       {| Transport := λ _, DoResponse 404
            (Document (error_envelope 404 "No eWON found for id '987654'")) |}
       empty_world "getewon" (query_of (OpGetEwonByID 987654)) 404
       (Document (error_envelope 404 "No eWON found for id '987654'"))
       (VStruct [("Success", VBool false); ("Code", VInt 404);
                 ("Message", VString "No eWON found for id '987654'")])
       eq_refl eq_refl eq_refl ltac:(discriminate) eq_refl))
    (OpGetEwonByID 987654) eq_refl eq_refl).
Defined.

(** C5. [GetStatus] on a status document whose second member does not fit
    its field returns the decoder's error together with a value that holds
    the first member. *)
Theorem GetStatus_error_with_partial_result :
  (GetStatus rfc3339_utc any_url (test_client (DoResponse 200 (Document half_status)))
     empty_world).1
  = Returns (Some (VStruct [("HistoryCount", VInt 5); ("EwonsCount", VInt 0);
                            ("Ewons", VSlice None)]),
             Some (LibError (UnmarshalTypeError Dstring TInt)))
  ∧ ¬ no_partial_result
        (Some (VStruct [("HistoryCount", VInt 5); ("EwonsCount", VInt 0);
                        ("Ewons", VSlice None)]),
         Some (LibError (UnmarshalTypeError Dstring TInt))).
Proof.
  split; [vm_compute; reflexivity|].
  intros H. specialize (H ltac:(discriminate)). discriminate H.
Qed.

(** C6 as stated fails: after [GetStatus] on the status document of the
    tests the body it obtained is still open. *)
Lemma GetStatus_body_not_released :
  ¬ bodies_released empty_world
      (GetStatus rfc3339_utc any_url
         (test_client (DoResponse 200 (Document status_document))) empty_world).2.
Proof.
  intros H. specialize (H 0%nat _ eq_refl eq_refl). discriminate H.
Qed.

(** C6, as amended, on the status document of the tests. *)
Lemma body_left_open_witness :
  bodies (GetStatus rfc3339_utc any_url
            (test_client (DoResponse 200 (Document status_document))) empty_world).2
  = [{| content := Document status_document; closed := false |}].
Proof.
  exact (f_equal bodies (proj1 (proj2
    (body_left_open rfc3339_utc any_url
       (test_client (DoResponse 200 (Document status_document)))
       {| Transport := λ _, DoResponse 200 (Document status_document) |}
       empty_world "getstatus" ∅ 200 (Document status_document) eq_refl eq_refl eq_refl))
    OpGetStatus eq_refl eq_refl)).
Defined.



(** C10 on the literal 1.5. *)
Lemma fractional_value_witness :
  (∃ d, (GetData rfc3339_utc any_url
           (test_client (DoResponse 200 (Document (valued_document (NDec 15 (-1)))))) ∅
           empty_world).1
        = Returns (Some d, Some (LibError (UnmarshalTypeError (DnumberLit (NDec 15 (-1))) TInt)))
        ∧ history_samples d
          = [VStruct [("Date", VTime 0%Z); ("Quality", VString ""); ("Value", VInt 0)]])
  ∧ (∃ s, (SyncData rfc3339_utc any_url
             (test_client (DoResponse 200 (Document (valued_document (NDec 15 (-1)))))) "" true
             empty_world).1
          = Returns (Some s, None)
          ∧ history_samples s
            = [VStruct [("Date", VTime 0%Z); ("DataType", VString "");
                        ("Value", VFloat64 {| significand := 15; exponent10 := -1 |})]]).
Proof.
  apply (fractional_value_GetData_error_SyncData_ok rfc3339_utc any_url
           (test_client (DoResponse 200 (Document (valued_document (NDec 15 (-1))))))
           {| Transport := λ _, DoResponse 200 (Document (valued_document (NDec 15 (-1)))) |}
           empty_world ∅ "" true 15 (-1)); [reflexivity..|intros; reflexivity|reflexivity].
Defined.

(** C7 on the second call of [TestSyncData]: the request [SyncData] hands
    to the transport carries both parameters in its URL. *)
Lemma SyncData_parameters_witness :
  wire (SyncData rfc3339_utc any_url
          (test_client (DoResponse 200 (Document syncdata_document)))
          "456789" true empty_world).2
  = [{| Method := "GET";
        URL := "https://data.talk2m.com/syncdata?createTransaction=true&lastTransactionId=456789&t2maccount=aid&t2mdevid=devid&t2mpassword=password&t2musername=username";
        Header := {[ "User-Agent" := ["go-ewon/dmweb 0.1"] ]} |}].
Proof.
  pose proof (SyncData_parameters rfc3339_utc any_url
                (test_client (DoResponse 200 (Document syncdata_document))) "456789" true) as H.
  cbv zeta in H. destruct H as (_ & _ & _ & _ & _ & _ & _ & Hsend & _).
  rewrite (Hsend empty_world _ eq_refl eq_refl). vm_compute. reflexivity.
Defined.

(** C8 on [TestGetEwonByID]: the request [GetEwonByID] hands to the
    transport carries the [id] parameter, and no [name], in its URL. *)
Lemma lookup_parameter_by_kind_witness :
  wire (GetEwonByID rfc3339_utc any_url
          (test_client (DoResponse 200 (Document ewon_document))) 123456 empty_world).2
  = [{| Method := "GET";
        URL := "https://data.talk2m.com/getewon?id=123456&t2maccount=aid&t2mdevid=devid&t2mpassword=password&t2musername=username";
        Header := {[ "User-Agent" := ["go-ewon/dmweb 0.1"] ]} |}].
Proof.
  pose proof (lookup_parameter_by_kind rfc3339_utc any_url
                (test_client (DoResponse 200 (Document ewon_document)))
                123456 "" "id" any_nil empty_world) as H.
  destruct H as (_ & _ & _ & _ & _ & _ & _ & _ & _ & _ & _ & _ & Hsend & _).
  rewrite (Hsend _ eq_refl eq_refl). vm_compute. reflexivity.
Defined.

(** ** The further properties on the data of the tests *)


(** With a URL that is rejected, [GetStatus] fails and the world is as it
    was. *)
Lemma rejected_url_sends_nothing_witness :
  GetStatus rfc3339_utc (λ _, Some (LibError (ExternalError "invalid URL")))
    (test_client (DoResponse 200 (Document status_document))) empty_world
  = (Returns (None, Some (LibError (ExternalError "invalid URL"))), empty_world).
Proof.
  exact (proj2 (rejected_url_sends_nothing rfc3339_utc
                  (λ _, Some (LibError (ExternalError "invalid URL"))) OpGetStatus
                  (test_client (DoResponse 200 (Document status_document))) empty_world
                  (LibError (ExternalError "invalid URL")) eq_refl)).
Defined.

(** [TestRequest]: the response comes back with its body, the empty
    object, open. *)
Lemma status_200_returns_open_body_witness :
  ∃ r w',
    Request rfc3339_utc any_url (test_client (DoResponse 200 (Document (JObject []))))
      "getewons" ∅ empty_world
    = (Returns (Some r, None), w')
    ∧ StatusCode r = 200%Z
    ∧ bodies w' !! Body r = Some {| content := Document (JObject []); closed := false |}.
Proof.
  exact (status_200_returns_open_body rfc3339_utc any_url
           (test_client (DoResponse 200 (Document (JObject []))))
           {| Transport := λ _, DoResponse 200 (Document (JObject [])) |}
           empty_world "getewons" ∅ (Document (JObject [])) eq_refl eq_refl eq_refl).
Defined.

(** The value [GetStatus] returns with the decoder's error for
    [half_status] is a [GetStatusResponse]. *)
Lemma result_has_declared_type_witness :
  has_type GetStatusResponse
    (VStruct [("HistoryCount", VInt 5); ("EwonsCount", VInt 0); ("Ewons", VSlice None)])
  = true.
Proof.
  refine (result_has_declared_type rfc3339_utc any_url OpGetStatus
            (test_client (DoResponse 200 (Document half_status))) empty_world _
            (Some (LibError (UnmarshalTypeError Dstring TInt)))
            (respond empty_world
               (request_of (test_client (DoResponse 200 (Document half_status)))
                  "getstatus" ∅)
               (Document half_status) false) _ _); [discriminate|].
  vm_compute. reflexivity.
Defined.


(** The awkward query is written with its separators escaped and read back
    as it was. *)
Lemma query_round_trip_witness :
  Values_Encode awkward_query = "100%25=%C3%A9&a+b=x%26y%3Dz&a+b=1%3B2&k="
  ∧ ParseQuery "100%25=%C3%A9&a+b=x%26y%3Dz&a+b=1%3B2&k=" = (awkward_query, None).
Proof.
  assert (Values_Encode awkward_query = "100%25=%C3%A9&a+b=x%26y%3Dz&a+b=1%3B2&k=") as E
    by (vm_compute; reflexivity).
  assert (no_empty_values awkward_query) as H.
  { apply of_pairs_no_empty. intros k. by rewrite lookup_empty. }
  split; [exact E|]. rewrite <- E. exact (proj1 (query_round_trip awkward_query H)).
Defined.

(** [TestGetData]: the transport reads [ewonId] back from the URL of the
    request. *)
Lemma URL_query_read_back_witness :
  Values_Get
    (URL_Query (buildURL (test_client (DoResponse 200 (Document getdata_document)))
                  "getdata" {[ "ewonId" := ["508238"] ]}))
    "ewonId"
  = "508238".
Proof.
  pose proof (URL_query_read_back (test_client (DoResponse 200 (Document getdata_document)))
                "getdata" {[ "ewonId" := ["508238"] ]} eq_refl eq_refl) as H.
  cbv zeta in H. destruct H as (_ & _ & _ & _ & _ & _ & _ & H).
  destruct (H "ewonId" eq_refl) as [_ H']. rewrite H'. reflexivity.
Defined.

(** [TestGetStatus] succeeded: the transport answered 200 with a document
    that was decoded with no error. *)
Lemma success_means_200_and_decoded_witness :
  ∃ h j v,
    Client_http (test_client (DoResponse 200 (Document status_document))) = Some h
    ∧ Transport h (request_of (test_client (DoResponse 200 (Document status_document)))
                     "getstatus" ∅)
      = DoResponse 200 (Document j)
    ∧ decode rfc3339_utc j GetStatusResponse (zero GetStatusResponse) None = (v, None, None).
Proof.
  edestruct (success_means_200_and_decoded rfc3339_utc any_url OpGetStatus
               (test_client (DoResponse 200 (Document status_document))) empty_world)
    as (h & j & v & H1 & _ & H3 & H4 & _).
  - vm_compute. reflexivity.
  - by exists h, j, v.
Defined.

(** The error [GetStatus] returns for [half_status] is a type error. *)
Lemma errors_of_a_200_response_witness :
  is_type_error (LibError (UnmarshalTypeError Dstring TInt)) = true
  ∨ is_time_error (LibError (UnmarshalTypeError Dstring TInt)) = true.
Proof.
  refine (proj1 (errors_of_a_200_response rfc3339_utc any_url OpGetStatus
                   (test_client (DoResponse 200 (Document half_status)))
                   {| Transport := λ _, DoResponse 200 (Document half_status) |}
                   empty_world half_status _ _ _ eq_refl eq_refl eq_refl _)).
  vm_compute. reflexivity.
Defined.


(** The body of [TestRequest], the empty object, gives [GetStatus] the zero
    [GetStatusResponse] and no error. *)
Lemma body_with_nothing_to_decode_witness :
  (GetStatus rfc3339_utc any_url (test_client (DoResponse 200 (Document (JObject []))))
     empty_world).1
  = Returns (Some (zero GetStatusResponse), None).
Proof.
  exact (proj1 (proj2
    (body_with_nothing_to_decode rfc3339_utc any_url OpGetStatus
       (test_client (DoResponse 200 (Document (JObject []))))
       {| Transport := λ _, DoResponse 200 (Document (JObject [])) |}
       empty_world (Document (JObject [])) eq_refl eq_refl eq_refl))
    [] eq_refl (List.Forall_nil _)).
Defined.

(** The document of [TestGetEwonByID] has no [timeZone]: the time zone of
    the [Ewon] returned is empty. *)
Lemma absent_member_keeps_zero_witness :
  ∃ v e,
    (GetEwonByID rfc3339_utc any_url (test_client (DoResponse 200 (Document ewon_document)))
       123456 empty_world).1
    = Returns (Some v, e)
    ∧ get_field "TimeZone" v = Some (VString "").
Proof.
  destruct (absent_member_keeps_zero rfc3339_utc any_url (OpGetEwonByID 123456)
              (test_client (DoResponse 200 (Document ewon_document)))
              {| Transport := λ _, DoResponse 200 (Document ewon_document) |}
              empty_world
              [("success", JBool true); ("id", jint 123456); ("name", JString "Ewon1");
               ("tags", JArray [
                  JObject [("id", jint 98765); ("name", JString "Random_Metric");
                           ("dataType", JString "Float"); ("description", JString "");
                           ("alarmHint", JString ""); ("value", JNumber (NDec 12344567 (-4)));
                           ("quality", JString "good"); ("ewonTagId", jint 10)]]);
               ("lastSynchroDate", JString "2018-06-05T12:49:27Z")]
              "TimeZone" eq_refl eq_refl eq_refl eq_refl)
    as (v & e & _ & H2 & H3 & _).
  exists v, e. split; [exact H2|exact H3].
Defined.

(** A timestamp that does not parse stops the decoding of an [Ewon]: the
    name that follows it is not stored. *)
Lemma nothing_decoded_after_abort_witness :
  ∃ v',
    decode rfc3339_utc
      (JObject ([("lastSynchroDate", JString "yesterday")] ++ [("name", JString "late")]))
      Ewon (zero Ewon) None
    = (v', None, Some (LibError (TimeParseError "yesterday")))
    ∧ get_field "Name" v' = Some (VString "").
Proof.
  edestruct (nothing_decoded_after_abort rfc3339_utc any_url
               (JObject [("lastSynchroDate", JString "yesterday")]) Ewon (zero Ewon))
    as (_ & _ & H & _).
  - vm_compute. reflexivity.
  - eexists. split; [exact (H _ _ [("name", JString "late")] eq_refl eq_refl)|reflexivity].
Defined.

(** [TestGetEwons]: the list returned for the document that says
    [success: true] is the list decoded from the one that says [false]. *)
Lemma success_flag_not_interpreted_witness :
  ∃ r e,
    (GetEwons rfc3339_utc any_url
       (test_client (DoResponse 200 (Document (ewons_document true)))) empty_world).1
    = Returns (default (VSlice None) r, e)
    ∧ finish OpGetEwons
        (json_Unmarshal rfc3339_utc (Document (ewons_document false)) GetEwons_es
           (zero GetEwons_es))
      = (r, e).
Proof.
  destruct (success_flag_not_interpreted rfc3339_utc any_url OpGetEwons
              (test_client (DoResponse 200 (Document (ewons_document true))))
              {| Transport := λ _, DoResponse 200 (Document (ewons_document true)) |}
              empty_world
              [("success", JBool true);
               ("ewons", JArray [
                  JObject [("id", jint 123456); ("name", JString "Ewon1");
                           ("lastSynchroDate", JString "2017-07-08T10:51:28Z")];
                  JObject [("id", jint 123457); ("name", JString "Ewon2");
                           ("lastSynchroDate", JString "2018-06-05T12:49:27Z")]])]
              false eq_refl eq_refl eq_refl)
    as (r & r' & e & H1 & H2 & H3 & _).
  specialize (H3 eq_refl). subst r'. exists r, e. split; [|exact H2].
  simpl run in H1. unfold mbind, M_bind, mret, M_ret in H1.
  destruct (GetEwons _ _ _ _) as [[[v e']|] w'] eqn:E; [|vm_compute in E; discriminate E].
  vm_compute in E. injection E as <- <- <-. vm_compute in H1. injection H1 as <- <-.
  reflexivity.
Defined.

(** A failure whose body is [null] reaches the caller as an error with no
    text. *)
Lemma error_of_a_non200_response_witness :
  (Request rfc3339_utc any_url (test_client (DoResponse 500 (Document JNull)))
     "getstatus" ∅ empty_world).1
  = Returns (None, Some (errors_New "")).
Proof.
  destruct (error_of_a_non200_response rfc3339_utc any_url
              (test_client (DoResponse 500 (Document JNull)))
              {| Transport := λ _, DoResponse 500 (Document JNull) |}
              empty_world "getstatus" ∅ 500 JNull eq_refl eq_refl eq_refl ltac:(discriminate))
    as (e & H1 & _ & _ & H4 & _).
  rewrite H1, (H4 eq_refl). reflexivity.
Defined.

(** The client of the tests is the client [New] makes of the credentials of
    the tests: the request of [GetStatus] carries them. *)
Lemma New_client_requests_witness :
  ∃ req,
    wire (GetStatus rfc3339_utc any_url
            (test_client (DoResponse 200 (Document status_document))) empty_world).2
    = [req]
    ∧ Values_Get (URL_Query (URL req)) "t2maccount" = "aid"
    ∧ Values_Get (URL_Query (URL req)) "t2musername" = "username"
    ∧ Values_Get (URL_Query (URL req)) "t2mpassword" = "password"
    ∧ Values_Get (URL_Query (URL req)) "t2mdevid" = "devid".
Proof.
  destruct (New_client_requests rfc3339_utc any_url
              (Some {| Transport := λ _, DoResponse 200 (Document status_document) |})
              "aid" "username" "password" "devid"
              (test_client (DoResponse 200 (Document status_document)))
              OpGetStatus empty_world eq_refl)
    as [E|(req & E & _ & _ & _ & H1 & H2 & H3 & H4 & _)].
  - vm_compute in E. discriminate E.
  - exists req. split; [exact E|]. split; [exact H1|]. split; [exact H2|].
    split; [exact H3|exact H4].
Defined.

(** [TestNew] makes a client of a nil [http.Client]; [GetStatus] of that
    client panics, and nothing has been sent. *)
Lemma nil_http_client_panics_witness :
  ∃ c,
    New None "accountid" "username" "password" "did" = (Some c, None)
    ∧ GetStatus rfc3339_utc any_url c empty_world = (Panics, empty_world).
Proof.
  destruct (nil_http_client_panics rfc3339_utc any_url "accountid" "username" "password" "did"
              ltac:(discriminate) ltac:(discriminate) ltac:(discriminate) ltac:(discriminate))
    as (c & Hnew & _ & Hrun & _).
  exists c. split; [exact Hnew|]. exact (Hrun OpGetStatus empty_world eq_refl).
Defined.

(** ** The tests of the package *)

(** [TestNew]. *)
Example TestNew :
  New None "" "" "" "" = (None, Some errorMissingCredentials)
  ∧ New None "accountid" "username" "password" "" = (None, Some errorMissingCredentials)
  ∧ ∃ c, New None "accountid" "username" "password" "did" = (Some c, None)
         ∧ baseURL c = DefaultBaseURL ∧ userAgent c = DefaultUserAgent.
Proof. split; [reflexivity|]. split; [reflexivity|]. by eexists. Qed.

(** The URL and the header of the request [GetData] sends in [TestGetData]. *)
Example TestGetData_request :
  wire (GetData rfc3339_utc any_url
          (test_client (DoResponse 200 (Document getdata_document)))
          {[ "ewonId" := "508238" ]} empty_world).2
  = [{| Method := "GET";
        URL := "https://data.talk2m.com/getdata?ewonId=508238&t2maccount=aid&t2mdevid=devid&t2mpassword=password&t2musername=username";
        Header := {[ "User-Agent" := ["go-ewon/dmweb 0.1"] ]} |}].
Proof. vm_compute. reflexivity. Qed.

(** [TestGetStatus], the valid response. *)
Example TestGetStatus :
  ∃ s ewons first,
    (GetStatus rfc3339_utc any_url
       (test_client (DoResponse 200 (Document status_document))) empty_world).1
    = Returns (Some s, None)
    ∧ get_field "HistoryCount" s = Some (VInt 20732)
    ∧ get_field "EwonsCount" s = Some (VInt 2)
    ∧ sub_slice "Ewons" s = first :: ewons
    ∧ get_field "ID" first = Some (VInt 2)
    ∧ get_field "Name" first = Some (VString "Paris")
    ∧ get_field "HistoryCount" first = Some (VInt 2702)
    ∧ get_field "FirstHistoryDate" first = VTime <$> rfc3339_utc "2015-07-16T16:04:25Z"
    ∧ get_field "LastHistoryDate" first = VTime <$> rfc3339_utc "2015-07-17T17:43:36Z".
Proof. eexists _, _, _. split; [vm_compute; reflexivity|]. by vm_compute. Qed.

(** [TestSyncData], the first call. *)
Example TestSyncData :
  ∃ s,
    (FirstSyncData rfc3339_utc any_url
       (test_client (DoResponse 200 (Document syncdata_document))) empty_world).1
    = Returns (Some s, None)
    ∧ get_field "MoreDataAvailable" s = Some (VBool true)
    ∧ get_field "TransactionID" s = Some (VString "456789").
Proof. eexists. split; [vm_compute; reflexivity|]. by vm_compute. Qed.

(** In the history of [TestGetData] only the first sample has a quality;
    the others decode to the empty quality. *)
Example TestGetData_qualities :
  ∃ d,
    (GetData rfc3339_utc any_url
       (test_client (DoResponse 200 (Document getdata_document)))
       {[ "ewonId" := "508238" ]} empty_world).1
    = Returns (Some d, None)
    ∧ (λ s, get_field "Quality" s) <$> history_samples d
      = [Some (VString "initialGood"); Some (VString ""); Some (VString "");
         Some (VString ""); Some (VString "")].
Proof. eexists. split; [vm_compute; reflexivity|]. by vm_compute. Qed.

(** [TestRequest]: the body of the response [Request] returns can be read,
    and holds the empty object. *)
Example TestRequest :
  ∃ r w',
    Request rfc3339_utc any_url (test_client (DoResponse 200 (Document (JObject []))))
      "getewons" ∅ empty_world
    = (Returns (Some r, None), w')
    ∧ bodies w' !! Body r = Some {| content := Document (JObject []); closed := false |}
    ∧ (λ req, Values_Get (Header req) "User-Agent") <$> wire w' = ["go-ewon/dmweb 0.1"].
Proof. eexists _, _. split; [vm_compute; reflexivity|]. by vm_compute. Qed.

(** [TestGetEwons], the response without time zone. *)
Example TestGetEwons :
  ∃ es first second,
    (GetEwons rfc3339_utc any_url
       (test_client (DoResponse 200 (Document (ewons_document true)))) empty_world).1
    = Returns (es, None)
    ∧ slice_elems es = [VPtr (Some first); VPtr (Some second)]
    ∧ get_field "ID" first = Some (VInt 123456)
    ∧ get_field "Name" first = Some (VString "Ewon1")
    ∧ get_field "LastSynchroDate" first = VTime <$> rfc3339_utc "2017-07-08T10:51:28Z"
    ∧ get_field "TimeZone" first = Some (VString "").
Proof. eexists _, _, _. split; [vm_compute; reflexivity|]. by vm_compute. Qed.

(** [TestGetEwonByID], the known identifier. *)
Example TestGetEwonByID :
  ∃ e tag,
    (GetEwonByID rfc3339_utc any_url
       (test_client (DoResponse 200 (Document ewon_document))) 123456 empty_world).1
    = Returns (Some e, None)
    ∧ get_field "ID" e = Some (VInt 123456)
    ∧ get_field "Name" e = Some (VString "Ewon1")
    ∧ get_field "LastSynchroDate" e = VTime <$> rfc3339_utc "2018-06-05T12:49:27Z"
    ∧ sub_slice "Tags" e = [VPtr (Some tag)]
    ∧ get_field "Name" tag = Some (VString "Random_Metric").
Proof. eexists _, _. split; [vm_compute; reflexivity|]. by vm_compute. Qed.

(** What [ParseQuery] makes of queries that [Encode] does not write: empty
    pairs are skipped, a pair without [=] has the empty value, and a pair
    with a semicolon or a bad escape is left out and reported. *)
Example ParseQuery_other_queries :
  ParseQuery "" = (∅, None)
  ∧ ParseQuery "&&a=1&&" = ({[ "a" := ["1"] ]}, None)
  ∧ ParseQuery "a&b=" = ({[ "a" := [""]; "b" := [""] ]}, None)
  ∧ ParseQuery "a=1;b=2&c=3" = ({[ "c" := ["3"] ]}, Some InvalidSemicolon)
  ∧ ParseQuery "a=%zz&b=%4&c=3" = ({[ "c" := ["3"] ]}, Some (EscapeError "%zz")).
Proof. by vm_compute. Qed.
